(** * macthemes.garden-data: the Airtable dump scripts

    A shallow embedding of [dump-airtable.ts] and of its sibling script (the
    variant that writes under [public/themes/] and mirrors no archives),
    followed by the properties their specification states.

    Modelling conventions.
    - JavaScript strings are Rocq [string]s.  [toLowerCase] folds the ASCII
      letters and [trim] strips the ASCII white space characters.
    - A value of type [T | undefined] is an [option T]; [?.] is the option
      bind; truthiness of a string is non-emptiness, of an object [true].
    - The scripts are embedded at their declared types: a raw record is
      read at the types its casts name ([as string],
      [as Airtable.Attachment[]]), every field optional.  The normalizer,
      whose casts are unchecked, is embedded on untyped values as well.
    - The file system is a finite map from literal paths to contents; the
      remote hosts are a function from URLs to response bodies, [None] being
      a rejected [fetch].  Every effect is recorded in the [World].
    - The scripts are embedded twice.  In the first embedding the calls of
      the file system succeed: it is the course of a run on which the file
      system raises no error.  In [Faulty] the same code runs on a [Disk]
      that may reject [fs.writeFile], [fs.remove] and the read of a file;
      on the [reliable] disk the two embeddings coincide.
    - [async.flatMapLimit] and [async.mapLimit] are run one item after the
      other, in the order of the collection (the order of their results). *)

From stdpp Require Import base option list strings pretty gmap.
From Stdlib Require Import Ascii String.

Open Scope string_scope.
Open Scope list_scope.

(** ** String primitives of the JavaScript runtime *)

Definition lower_ascii (c : ascii) : ascii :=
  let n := nat_of_ascii c in
  if (65 <=? n)%nat && (n <=? 90)%nat then ascii_of_nat (n + 32) else c.

(** [s.toLowerCase()] *)
Fixpoint toLowerCase (s : string) : string :=
  match s with
  | EmptyString => EmptyString
  | String c s' => String (lower_ascii c) (toLowerCase s')
  end.

(** [s.startsWith(t)] *)
Fixpoint startsWith (s t : string) {struct t} : bool :=
  match t with
  | EmptyString => true
  | String c t' =>
      match s with
      | EmptyString => false
      | String d s' => Ascii.eqb d c && startsWith s' t'
      end
  end.

(** [s.endsWith(t)]: some suffix of [s] is [t]. *)
Fixpoint endsWith (s t : string) : bool :=
  String.eqb s t ||
  match s with
  | EmptyString => false
  | String _ s' => endsWith s' t
  end.

(** [s.split(sep)] for a separator of one character. *)
Fixpoint split (sep : ascii) (s : string) : list string :=
  match s with
  | EmptyString => [EmptyString]
  | String c s' =>
      if Ascii.eqb c sep then EmptyString :: split sep s'
      else match split sep s' with
           | h :: t => String c h :: t
           | [] => [String c EmptyString]
           end
  end.

(** White space in the sense of [trim]: TAB, LF, VT, FF, CR and SPACE. *)
Definition is_space (c : ascii) : bool :=
  let n := nat_of_ascii c in
  ((9 <=? n)%nat && (n <=? 13)%nat) || (n =? 32)%nat.

(** The characters below U+0080.  Among them the white space of [trim] is
    the six characters of [is_space]; the strings of the model stand for
    texts of such characters wherever [trim] or [toLowerCase] is applied to
    them. *)
Definition is_ascii (c : ascii) : bool := (nat_of_ascii c <? 128)%nat.

(** A character of a token: below U+0080 and not white space. *)
Definition is_token_char (c : ascii) : bool := is_ascii c && negb (is_space c).

Fixpoint trimStart (s : string) : string :=
  match s with
  | EmptyString => EmptyString
  | String c s' => if is_space c then trimStart s' else s
  end.

Fixpoint trimEnd (s : string) : string :=
  match s with
  | EmptyString => EmptyString
  | String c s' =>
      match trimEnd s' with
      | EmptyString => if is_space c then EmptyString else String c EmptyString
      | r => String c r
      end
  end.

(** [s.trim()] *)
Definition trim (s : string) : string := trimEnd (trimStart s).

(** [!!v] for [v : string | undefined]. *)
Definition truthy (v : option string) : bool :=
  match v with
  | Some s => negb (String.eqb s "")
  | None => false
  end.

(** ** Data model *)

(** [Airtable.Attachment], with the three fields the scripts read. *)
Module Attachment.
Record t := mk { id : string; url : string; filename : string }.
End Attachment.

(** A [Date] object, kept as the argument its constructor received. *)
Inductive Date := NewDate (arg : option string).

(** One raw record of the table: [record.fields], at the types of the casts. *)
Module Fields.
Record t := mk {
  Name : option string;
  Authors : option string;                       (* "Author(s)" *)
  Year : option string;
  About : option (list Attachment.t);
  Showcase : option (list Attachment.t);
  Archive_file : option (list Attachment.t);     (* "Archive file" *)
  Archive_name2 : option string;                 (* "Archive name2" *)
  KSA_Sampler_transparent : option (list Attachment.t);
  Created : option string
}.
End Fields.

Module NormalizedRecord.
Record t := mk {
  name : option string;
  authors : option string;
  year : option string;
  about : option Attachment.t;
  showcase : option Attachment.t;
  archiveFile : option Attachment.t;
  archiveFileName2 : option string;
  ksaSampler : option Attachment.t;
  created : Date
}.
End NormalizedRecord.

(** What [downloadAttachment] resolves to. *)
Module DownloadedFile.
Record t := mk { id : string; filepath : string; filename : string }.
End DownloadedFile.

(** An element of [normalizedRecordsWithFilePaths]: the normalized record
    with its attachments replaced by local paths.  [archiveFile] is
    overwritten with [undefined], hence carries no data. *)
Module ResolvedRecord.
Record t := mk {
  name : option string;
  authors : option string;
  year : option string;
  about : option string;
  showcase : option string;
  archiveFile : option Empty_set;
  archiveFileName2 : option string;
  ksaSampler : option string;
  created : Date;
  archiveFilename : option string
}.
End ResolvedRecord.

(** ** The record normalizer *)

(** [(xs as T[])?.[0]] *)
Definition first {A} (xs : option (list A)) : option A :=
  xs ≫= head.

(** The callback of [records.map] that builds [normalizedRecords]. *)
Definition normalize (fields : Fields.t) : NormalizedRecord.t :=
  {| NormalizedRecord.name := Fields.Name fields;
     NormalizedRecord.authors := Fields.Authors fields;
     NormalizedRecord.year := Fields.Year fields;
     NormalizedRecord.about := first (Fields.About fields);
     NormalizedRecord.showcase := first (Fields.Showcase fields);
     NormalizedRecord.archiveFile := first (Fields.Archive_file fields);
     NormalizedRecord.archiveFileName2 := Fields.Archive_name2 fields;
     NormalizedRecord.ksaSampler := first (Fields.KSA_Sampler_transparent fields);
     NormalizedRecord.created := NewDate (Fields.Created fields) |}.

Definition normalizedRecords (records : list Fields.t) : list NormalizedRecord.t :=
  map normalize records.

(** ** The record normalizer, on untyped values

    The casts of the normalizer are not checked at run time: a field of a
    raw record may hold any JSON value.  This module embeds the normalizer
    on such values, where an index into [undefined] or [null] throws, and
    the raw records of the typed embedding among them. *)
Module Untyped.

#[local] Unset Elimination Schemes.
Inductive value :=
  | Undefined
  | Null
  | Bool (b : bool)
  | Number (n : Z)          (* the normalizer never inspects a number *)
  | Str (s : string)
  | Array (elements : list value)
  | Object (properties : list (string * value)).
#[local] Set Elimination Schemes.

(** [o[k]] for the own properties [o] of an object, none of them inherited;
    the first binding of a key is the one in force. *)
Definition property (k : string) (o : list (string * value)) : value :=
  from_option snd Undefined (List.find (λ kv, String.eqb (fst kv) k) o).

(** [v[0]]; [None] is the [TypeError] of an index into [undefined] or
    [null]. *)
Definition index0 (v : value) : option value :=
  match v with
  | Undefined | Null => None
  | Bool _ | Number _ => Some Undefined
  | Str s =>
      Some (match s with
            | String c _ => Str (String c EmptyString)
            | EmptyString => Undefined
            end)
  | Array elements => Some (default Undefined (head elements))
  | Object properties => Some (property "0" properties)
  end.

(** [v?.[0]] *)
Definition optional_index0 (v : value) : option value :=
  match v with
  | Undefined | Null => Some Undefined
  | _ => index0 v
  end.

(** [new Date(v)] converts an object [v] to a primitive before anything
    else, and throws a [TypeError] when it cannot.  The properties of an
    object read from JSON are never callable: an object with an own
    [toString] property shadows [Object.prototype.toString] with a value
    that cannot be called, while [valueOf], own or inherited, yields no
    primitive.  An array is converted by [join], which converts every
    element but [undefined] and [null] to a string in the same way.
    [inconvertible v] holds when the conversion throws. *)
Fixpoint inconvertible (v : value) : bool :=
  match v with
  | Object properties =>
      existsb (λ kv, String.eqb (fst kv) "toString") properties
  | Array elements => existsb inconvertible elements
  | Undefined | Null | Bool _ | Number _ | Str _ => false
  end.

(** [new Date(v)]: the date, kept as the argument of the constructor;
    [None] is the [TypeError]. *)
Definition newDate (v : value) : option value :=
  if inconvertible v then None else Some v.

(** A normalized record as it is at run time; [created] is kept as the
    argument [new Date] received. *)
Record normalized := mkNormalized {
  name : value;
  authors : value;
  year : value;
  about : value;
  showcase : value;
  archiveFile : value;
  archiveFileName2 : value;
  ksaSampler : value;
  created : value
}.

(** A typed raw record as an object: a missing field is a missing key. *)
Definition field (k : string) (v : option value) : list (string * value) :=
  from_option (λ v, [(k, v)]) [] v.

Definition of_attachment (a : Attachment.t) : value :=
  Object [ ("id", Str (Attachment.id a)); ("url", Str (Attachment.url a));
           ("filename", Str (Attachment.filename a)) ].

Definition of_attachments (l : list Attachment.t) : value :=
  Array (map of_attachment l).

Definition of_fields (f : Fields.t) : list (string * value) :=
  field "Name" (Str <$> Fields.Name f) ++
  field "Author(s)" (Str <$> Fields.Authors f) ++
  field "Year" (Str <$> Fields.Year f) ++
  field "About" (of_attachments <$> Fields.About f) ++
  field "Showcase" (of_attachments <$> Fields.Showcase f) ++
  field "Archive file" (of_attachments <$> Fields.Archive_file f) ++
  field "Archive name2" (Str <$> Fields.Archive_name2 f) ++
  field "KSA Sampler transparent"
        (of_attachments <$> Fields.KSA_Sampler_transparent f) ++
  field "Created" (Str <$> Fields.Created f).

Definition of_string (s : option string) : value := from_option Str Undefined s.

Definition of_normalized (r : NormalizedRecord.t) : normalized :=
  {| name := of_string (NormalizedRecord.name r);
     authors := of_string (NormalizedRecord.authors r);
     year := of_string (NormalizedRecord.year r);
     about := from_option of_attachment Undefined (NormalizedRecord.about r);
     showcase := from_option of_attachment Undefined (NormalizedRecord.showcase r);
     archiveFile :=
       from_option of_attachment Undefined (NormalizedRecord.archiveFile r);
     archiveFileName2 := of_string (NormalizedRecord.archiveFileName2 r);
     ksaSampler :=
       from_option of_attachment Undefined (NormalizedRecord.ksaSampler r);
     created := match NormalizedRecord.created r with
                | NewDate arg => of_string arg
                end |}.

(** The callback of [records.map], on [record.fields]. *)
Definition normalize (fields : list (string * value)) : option normalized :=
  about ← optional_index0 (property "About" fields);
  showcase ← optional_index0 (property "Showcase" fields);
  archiveFile ← optional_index0 (property "Archive file" fields);
  ksaSampler ← optional_index0 (property "KSA Sampler transparent" fields);
  created ← newDate (property "Created" fields);
  Some {| name := property "Name" fields;
          authors := property "Author(s)" fields;
          year := property "Year" fields;
          about := about;
          showcase := showcase;
          archiveFile := archiveFile;
          archiveFileName2 := property "Archive name2" fields;
          ksaSampler := ksaSampler;
          created := created |}.

Definition normalizedRecords (records : list (list (string * value)))
    : option (list normalized) :=
  mapM normalize records.

End Untyped.

(** ** The record-to-asset resolver *)

(** [filePaths.find((f) => f.id === a?.id)?.filepath] *)
Definition findFilepath (filePaths : list DownloadedFile.t)
    (a : option Attachment.t) : option string :=
  DownloadedFile.filepath <$>
    List.find (λ f, bool_decide (Some (DownloadedFile.id f) = Attachment.id <$> a))
              filePaths.

(** [archiveName]: the [.sit] file name, else [archiveFileName2], else
    [undefined]. *)
Definition archiveName (record : NormalizedRecord.t) : option string :=
  let filename := Attachment.filename <$> NormalizedRecord.archiveFile record in
  let chosen :=
    if from_option (λ f, endsWith f ".sit") false filename
    then filename
    else NormalizedRecord.archiveFileName2 record in
  if truthy chosen then chosen else None.

Definition resolve (filePaths : list DownloadedFile.t)
    (record : NormalizedRecord.t) : ResolvedRecord.t :=
  {| ResolvedRecord.name := NormalizedRecord.name record;
     ResolvedRecord.authors := NormalizedRecord.authors record;
     ResolvedRecord.year := NormalizedRecord.year record;
     ResolvedRecord.about := findFilepath filePaths (NormalizedRecord.about record);
     ResolvedRecord.showcase := findFilepath filePaths (NormalizedRecord.showcase record);
     ResolvedRecord.archiveFile := None;
     ResolvedRecord.archiveFileName2 := NormalizedRecord.archiveFileName2 record;
     ResolvedRecord.ksaSampler := findFilepath filePaths (NormalizedRecord.ksaSampler record);
     ResolvedRecord.created := NormalizedRecord.created record;
     ResolvedRecord.archiveFilename := archiveName record |}.

(** [Object.values(f).filter((v) => !!v).length]: the number of truthy
    fields; a [Date] object is always truthy. *)
Definition truthyValues (f : ResolvedRecord.t) : nat :=
  List.length (List.filter (λ b : bool, b)
    [ truthy (ResolvedRecord.name f);
      truthy (ResolvedRecord.authors f);
      truthy (ResolvedRecord.year f);
      truthy (ResolvedRecord.about f);
      truthy (ResolvedRecord.showcase f);
      bool_decide (is_Some (ResolvedRecord.archiveFile f));
      truthy (ResolvedRecord.archiveFileName2 f);
      truthy (ResolvedRecord.ksaSampler f);
      true;
      truthy (ResolvedRecord.archiveFilename f) ]).

(** The first filter: [!!f && Object.values(f).filter((v) => !!v).length]. *)
Definition nonEmpty (f : ResolvedRecord.t) : bool :=
  negb (truthyValues f =? 0)%nat.

(** The second filter, the validity test. *)
Definition valid (f : ResolvedRecord.t) : bool :=
  truthy (ResolvedRecord.name f) &&
  (truthy (ResolvedRecord.year f) || truthy (ResolvedRecord.authors f)) &&
  truthy (ResolvedRecord.about f) &&
  truthy (ResolvedRecord.showcase f) &&
  truthy (ResolvedRecord.archiveFilename f) &&
  truthy (ResolvedRecord.ksaSampler f).

Definition normalizedRecordsWithFilePaths (filePaths : list DownloadedFile.t)
    (records : list NormalizedRecord.t) : list ResolvedRecord.t :=
  List.filter valid (List.filter nonEmpty (map (resolve filePaths) records)).

(** ** The filesystem reconciler, pure part *)

Definition allFiles (resolved : list ResolvedRecord.t) : list (option string) :=
  flat_map (λ r, [ResolvedRecord.about r; ResolvedRecord.ksaSampler r;
                  ResolvedRecord.showcase r]) resolved.

(** [allFiles.includes(file)] *)
Definition includes (files : list (option string)) (file : string) : bool :=
  existsb (λ o, bool_decide (o = Some file)) files.

Definition filesToDelete (existingAttachments : list string)
    (files : list (option string)) : list string :=
  List.filter (λ file, negb (includes files file))
    (List.filter (λ f, truthy (Some f)) existingAttachments).

(** [compact]: the truthy elements. *)
Definition compact (l : list (option string)) : list string :=
  omap (λ o, if truthy o then o else None) l.

Fixpoint uniq_from (seen : list string) (l : list string) : list string :=
  match l with
  | [] => []
  | x :: l' =>
      if bool_decide (x ∈ seen) then uniq_from seen l'
      else x :: uniq_from (x :: seen) l'
  end.

(** [uniq]: the first occurrence of every element, in order. *)
Definition uniq (l : list string) : list string := uniq_from [] l.

Definition archives (resolved : list ResolvedRecord.t) : list string :=
  uniq (compact (map ResolvedRecord.archiveFilename resolved)).

(** ** The world the scripts act on *)

Inductive Error :=
  | FetchFailed (url : string)
  | ReadFailed (path : string)
  | WriteFailed (path : string)
  | RemoveFailed (path : string).

Inductive ConsoleLine :=
  | Log (msg : string)
  | LogError (e : Error).

Record World := mkWorld {
  files : gmap string string;      (* path |-> content *)
  requests : list string;          (* the URLs fetched so far, oldest first *)
  console : list ConsoleLine       (* the lines printed so far, oldest first *)
}.

(** A computation either returns or throws, in both cases with the world
    it leaves behind. *)
Inductive Outcome (A : Type) :=
  | Ok (a : A) (w : World)
  | Throw (e : Error) (w : World).
Arguments Ok {A} a w.
Arguments Throw {A} e w.

Definition M (A : Type) : Type := World → Outcome A.

Definition ret {A} (a : A) : M A := λ w, Ok a w.

Definition bind {A B} (m : M A) (k : A → M B) : M B :=
  λ w, match m w with
       | Ok a w' => k a w'
       | Throw e w' => Throw e w'
       end.

#[global] Instance M_ret : MRet M := @ret.
#[global] Instance M_bind : MBind M := λ A B k m, bind m k.

(** [try { m } catch (e) { h e }] *)
Definition try_catch {A} (m : M A) (h : Error → M A) : M A :=
  λ w, match m w with
       | Ok a w' => Ok a w'
       | Throw e w' => h e w'
       end.

(** [for (const x of l) await f(x)] *)
Fixpoint forEach {A} (f : A → M unit) (l : list A) : M unit :=
  match l with
  | [] => ret tt
  | x :: l' => f x;; forEach f l'
  end.

(** [async.flatMapLimit(l, _, f)], one item at a time. *)
Fixpoint flatMapLimit {A B} (f : A → M (list B)) (l : list A) : M (list B) :=
  match l with
  | [] => ret []
  | x :: l' => ys ← f x; rest ← flatMapLimit f l'; ret (ys ++ rest)
  end.

(** [async.mapLimit<_, void>(l, _, f)], one item at a time. *)
Definition mapLimit {A} (f : A → M unit) (l : list A) : M unit := forEach f l.

Definition console_log (msg : string) : M unit :=
  λ w, Ok tt (mkWorld (files w) (requests w) (console w ++ [Log msg])).

Definition console_error (e : Error) : M unit :=
  λ w, Ok tt (mkWorld (files w) (requests w) (console w ++ [LogError e])).

Definition fs_exists (path : string) : M bool :=
  λ w, Ok (bool_decide (is_Some (files w !! path))) w.

Definition fs_writeFile (path content : string) : M unit :=
  λ w, Ok tt (mkWorld (<[path := content]> (files w)) (requests w) (console w)).

Definition fs_remove (path : string) : M unit :=
  λ w, Ok tt (mkWorld (delete path (files w)) (requests w) (console w)).

(** The scripts differ in three places. *)
Record Script := mkScript {
  attachmentsDir : string;
  snapshotPath : string;
  mirrorsArchives : bool
}.

Definition dump_airtable : Script :=
  mkScript "attachments/" "airtable.json" true.

Definition part_000 : Script :=
  mkScript "public/themes/attachments/" "src/themes/airtable.json" false.

(** The local constants [filename] and [filepath] of [downloadAttachment]. *)
Definition filename_of (prefix : string) (attachment : Attachment.t) : string :=
  toLowerCase (prefix +:+ Attachment.id attachment +:+ "-" +:+
               Attachment.filename attachment).

Definition filepath_of (script : Script) (prefix : string)
    (attachment : Attachment.t) : string :=
  attachmentsDir script +:+ filename_of prefix attachment.

Definition descriptor (script : Script) (prefix : string)
    (attachment : Attachment.t) : DownloadedFile.t :=
  DownloadedFile.mk (Attachment.id attachment)
                    (filepath_of script prefix attachment)
                    (Attachment.filename attachment).

(** ** What the scripts are expected to compute *)

(** The descriptors [downloadRecord] resolves to whenever it returns. *)
Definition recordPaths (script : Script) (record : NormalizedRecord.t)
    : list DownloadedFile.t :=
  omap id [ descriptor script "about-" <$> NormalizedRecord.about record;
            descriptor script "ksa-sampler-" <$> NormalizedRecord.ksaSampler record;
            descriptor script "showcase-" <$> NormalizedRecord.showcase record ].

(** The descriptors [filePaths] holds whenever the download stage returns:
    they depend on the records alone. *)
Definition expectedPaths (script : Script) (records : list NormalizedRecord.t)
    : list DownloadedFile.t :=
  flat_map (recordPaths script) records.

(** The list the script serialises into its snapshot. *)
Definition snapshot (script : Script) (records : list Fields.t)
    : list ResolvedRecord.t :=
  normalizedRecordsWithFilePaths
    (expectedPaths script (normalizedRecords records))
    (normalizedRecords records).

(** The attachments of a record, each with the prefix of its role, in the
    order [downloadRecord] fetches them. *)
Definition attachmentsOf (record : NormalizedRecord.t)
    : list (string * Attachment.t) :=
  omap id [ pair "about-" <$> NormalizedRecord.about record;
            pair "ksa-sampler-" <$> NormalizedRecord.ksaSampler record;
            pair "showcase-" <$> NormalizedRecord.showcase record ].

(** A warm local directory: every attachment of every record is on disk. *)
Definition warm (script : Script) (records : list NormalizedRecord.t)
    (fs : gmap string string) : Prop :=
  Forall (λ record,
    Forall (λ pa, is_Some (fs !! filepath_of script pa.1 pa.2))
           (attachmentsOf record)) records.

#[global] Instance warm_dec script records fs : Decision (warm script records fs).
Proof. unfold warm. apply _. Defined.

(** Every character of [s] satisfies [p]. *)
Fixpoint all_chars (p : ascii → bool) (s : string) : bool :=
  match s with
  | EmptyString => true
  | String c s' => p c && all_chars p s'
  end.

(** ** The scripts *)

Section Runtime.

(** The remote hosts: the body [fetch] resolves to, [None] when it rejects. *)
Variable remote : string → option string.
(** The hex MD5 digest of a file content. *)
Variable md5 : string → string.
(** [JSON.stringify(_, null, 2)] on the snapshot. *)
Variable stringify : list ResolvedRecord.t → string.
(** [fs.globSync("public/themes/attachments/*.png")] on a file system. *)
Variable globSync : gmap string string → list string.

Definition fetch (url : string) : M string :=
  λ w, let w' := mkWorld (files w) (requests w ++ [url]) (console w) in
       match remote url with
       | Some body => Ok body w'
       | None => Throw (FetchFailed url) w'
       end.

Definition getMd5HashOfFile (path : string) : M string :=
  λ w, match files w !! path with
       | Some content => Ok (md5 content) w
       | None => Throw (ReadFailed path) w
       end.

Definition downloadAttachment (script : Script)
    (attachment : option Attachment.t) (prefix : string)
    : M (option DownloadedFile.t) :=
  match attachment with
  | None => ret None
  | Some attachment =>
      let filename := filename_of prefix attachment in
      let filepath := filepath_of script prefix attachment in
      present ← fs_exists filepath;
      if (present : bool) then ret (Some (descriptor script prefix attachment))
      else
        buffer ← fetch (Attachment.url attachment);
        console_log ("Downloaded " +:+ filename);;
        fs_writeFile filepath buffer;;
        ret (Some (descriptor script prefix attachment))
  end.

(** The callback of [flatMapLimit] that builds [filePaths]. *)
Definition downloadRecord (script : Script) (record : NormalizedRecord.t)
    : M (list DownloadedFile.t) :=
  about ← downloadAttachment script (NormalizedRecord.about record) "about-";
  ksaSampler ← downloadAttachment script (NormalizedRecord.ksaSampler record)
                                  "ksa-sampler-";
  showcase ← downloadAttachment script (NormalizedRecord.showcase record)
                                "showcase-";
  ret (omap id [about; ksaSampler; showcase]).

Definition filePaths (script : Script) (records : list NormalizedRecord.t)
    : M (list DownloadedFile.t) :=
  flatMapLimit (downloadRecord script) records.

Definition md5Remote (md5FileContent : string) : option string :=
  trim <$> head (split " " md5FileContent).

Definition files_host : string := "https://files.macthemes.garden/".

(** The body of the [try] block of [downloadArchive]. *)
Definition downloadArchive_try (archiveFilename : string) : M unit :=
  md5FileContent ← fetch (files_host +:+ archiveFilename +:+ ".md5");
  let filepath := "archives/" +:+ archiveFilename in
  present ← fs_exists filepath;
  same ← (if (present : bool)
          then md5OfExisting ← getMd5HashOfFile filepath;
               ret (bool_decide (Some md5OfExisting = md5Remote md5FileContent))
          else ret false);
  if (same : bool) then console_log ("[INFO] skipped " +:+ archiveFilename)
  else
    response ← fetch (files_host +:+ archiveFilename);
    fs_writeFile filepath response;;
    fs_writeFile (filepath +:+ ".md5") md5FileContent;;
    console_log ("[INFO] downloaded " +:+ archiveFilename).

Definition downloadArchive (archiveFilename : string) : M unit :=
  try_catch (downloadArchive_try archiveFilename)
    (λ e, console_log ("[ERROR] could not download " +:+ archiveFilename);;
          console_error e).

(** The local copy of an archive carries the checksum of a manifest. *)
Definition upToDate (archiveFilename manifest : string) (w : World) : bool :=
  from_option (λ content, bool_decide (Some (md5 content) = md5Remote manifest))
              false (files w !! ("archives/" +:+ archiveFilename)).

(** The body of the script, after [grabRawRecords] returned [records]. *)
Definition run (script : Script) (records : list Fields.t) : M unit :=
  existingAttachments ← (λ w, Ok (globSync (files w)) w);
  let normalized := normalizedRecords records in
  console_log ("Grabbed " +:+ pretty (List.length normalized) +:+ " records");;
  console_log ("Downloading " +:+ pretty (List.length normalized * 4)%nat +:+
               " attachments...");;
  paths ← filePaths script normalized;
  let resolved := normalizedRecordsWithFilePaths paths normalized in
  forEach fs_remove (filesToDelete existingAttachments (allFiles resolved));;
  fs_writeFile (snapshotPath script) (stringify resolved);;
  if mirrorsArchives script
  then mapLimit downloadArchive (archives resolved)
  else ret tt.

(** The world after the two opening lines of the console. *)
Definition started (records : list Fields.t) (w : World) : World :=
  let n := List.length (normalizedRecords records) in
  mkWorld (files w) (requests w)
    ((console w ++ [Log ("Grabbed " +:+ pretty n +:+ " records")]) ++
     [Log ("Downloading " +:+ pretty (n * 4)%nat +:+ " attachments...")]).

(** The world after the reconciler and the snapshot writer. *)
Definition written (script : Script) (records : list Fields.t)
    (w2 : World) : World :=
  mkWorld (<[snapshotPath script := stringify (snapshot script records)]>
             (files w2))
          (requests w2) (console w2).

End Runtime.

(** ** The scripts on a file system whose calls may reject

    Above, [fs.writeFile] and [fs.remove] always succeed and a file that
    exists can always be read: that is the course of a run on which the
    file system raises no error.  Here each of these calls may reject.
    What the file system answers is a parameter, which may depend on the
    world the call is made in: a call may fail once and succeed later. *)

(** How a call [fs.writeFile(path, content)] ends: the content is written,
    or the call rejects; the file is then as it was ([None]) or holds what
    was written before the error ([Some partial], empty when the file was
    created and nothing more). *)
Inductive WriteResult :=
  | Written
  | WriteRejected (remains : option string).

Record Disk := mkDisk {
  (** [fs.writeFile(path, content)] *)
  writes : World → string → string → WriteResult;
  (** [fs.remove(path)] resolves *)
  removes : World → string → bool;
  (** the read stream of an existing file ends without an [error] event *)
  reads : World → string → bool
}.

(** The file system that raises no error. *)
Definition reliable : Disk :=
  mkDisk (λ _ _ _, Written) (λ _ _, true) (λ _ _, true).

(** A response as [fetch] resolves to it.  The scripts read its body and
    never its status: what they see of a host is the body it answers
    with, whatever the status. *)
Module Response.
Record t := mk { status : nat; body : string }.
End Response.

Definition bodies (host : string → option Response.t) (url : string)
    : option string :=
  Response.body <$> host url.

Module Faulty.

Section Runtime.

Variable remote : string → option string.
Variable md5 : string → string.
Variable stringify : list ResolvedRecord.t → string.
Variable globSync : gmap string string → list string.
Variable disk : Disk.

Definition fs_writeFile (path content : string) : M unit :=
  λ w, match writes disk w path content with
       | Written =>
           Ok tt (mkWorld (<[path := content]> (files w)) (requests w)
                          (console w))
       | WriteRejected remains =>
           Throw (WriteFailed path)
                 (mkWorld (from_option (λ partial, <[path := partial]> (files w))
                                       (files w) remains)
                          (requests w) (console w))
       end.

Definition fs_remove (path : string) : M unit :=
  λ w, if removes disk w path
       then Ok tt (mkWorld (delete path (files w)) (requests w) (console w))
       else Throw (RemoveFailed path) w.

(** The promise rejects on any [error] event of the read stream: when the
    file is absent, and when reading it fails. *)
Definition getMd5HashOfFile (path : string) : M string :=
  λ w, match files w !! path with
       | Some content =>
           if reads disk w path then Ok (md5 content) w
           else Throw (ReadFailed path) w
       | None => Throw (ReadFailed path) w
       end.

Definition downloadAttachment (script : Script)
    (attachment : option Attachment.t) (prefix : string)
    : M (option DownloadedFile.t) :=
  match attachment with
  | None => ret None
  | Some attachment =>
      let filename := filename_of prefix attachment in
      let filepath := filepath_of script prefix attachment in
      present ← fs_exists filepath;
      if (present : bool) then ret (Some (descriptor script prefix attachment))
      else
        buffer ← fetch remote (Attachment.url attachment);
        console_log ("Downloaded " +:+ filename);;
        fs_writeFile filepath buffer;;
        ret (Some (descriptor script prefix attachment))
  end.

(** The callback of [flatMapLimit] that builds [filePaths]. *)
Definition downloadRecord (script : Script) (record : NormalizedRecord.t)
    : M (list DownloadedFile.t) :=
  about ← downloadAttachment script (NormalizedRecord.about record) "about-";
  ksaSampler ← downloadAttachment script (NormalizedRecord.ksaSampler record)
                                  "ksa-sampler-";
  showcase ← downloadAttachment script (NormalizedRecord.showcase record)
                                "showcase-";
  ret (omap id [about; ksaSampler; showcase]).

Definition filePaths (script : Script) (records : list NormalizedRecord.t)
    : M (list DownloadedFile.t) :=
  flatMapLimit (downloadRecord script) records.

(** The body of the [try] block of [downloadArchive]. *)
Definition downloadArchive_try (archiveFilename : string) : M unit :=
  md5FileContent ← fetch remote (files_host +:+ archiveFilename +:+ ".md5");
  let filepath := "archives/" +:+ archiveFilename in
  present ← fs_exists filepath;
  same ← (if (present : bool)
          then md5OfExisting ← getMd5HashOfFile filepath;
               ret (bool_decide (Some md5OfExisting = md5Remote md5FileContent))
          else ret false);
  if (same : bool) then console_log ("[INFO] skipped " +:+ archiveFilename)
  else
    response ← fetch remote (files_host +:+ archiveFilename);
    fs_writeFile filepath response;;
    fs_writeFile (filepath +:+ ".md5") md5FileContent;;
    console_log ("[INFO] downloaded " +:+ archiveFilename).

Definition downloadArchive (archiveFilename : string) : M unit :=
  try_catch (downloadArchive_try archiveFilename)
    (λ e, console_log ("[ERROR] could not download " +:+ archiveFilename);;
          console_error e).

(** The body of the script, after [grabRawRecords] returned [records]. *)
Definition run (script : Script) (records : list Fields.t) : M unit :=
  existingAttachments ← (λ w, Ok (globSync (files w)) w);
  let normalized := normalizedRecords records in
  console_log ("Grabbed " +:+ pretty (List.length normalized) +:+ " records");;
  console_log ("Downloading " +:+ pretty (List.length normalized * 4)%nat +:+
               " attachments...");;
  paths ← filePaths script normalized;
  let resolved := normalizedRecordsWithFilePaths paths normalized in
  forEach fs_remove (filesToDelete existingAttachments (allFiles resolved));;
  fs_writeFile (snapshotPath script) (stringify resolved);;
  if mirrorsArchives script
  then mapLimit downloadArchive (archives resolved)
  else ret tt.

End Runtime.

End Faulty.

(** ** Notions used to state the effects of the download stage *)

(** The console of [w1] extends the console of [w]. *)
Definition console_grows (w w1 : World) : Prop :=
  ∃ lines, console w1 = console w ++ lines.

(** The attachments of a list of records, with their prefixes, in the order
    the download stage visits them. *)
Definition targetsOf (records : list NormalizedRecord.t)
    : list (string * Attachment.t) :=
  flat_map attachmentsOf records.

(** From [w] to [w1] only attachments among [targets] were downloaded: the
    files of [w] are intact, every changed path is the path of a target, and
    the new requests are URLs of targets, at most one for each. *)
Definition downloaded (script : Script) (targets : list (string * Attachment.t))
    (w w1 : World) : Prop :=
  (∀ p, is_Some (files w !! p) → files w1 !! p = files w !! p)
  ∧ (∀ p, files w1 !! p ≠ files w !! p →
          ∃ pa, pa ∈ targets ∧ p = filepath_of script pa.1 pa.2)
  ∧ console_grows w w1
  ∧ ∃ new, requests w1 = requests w ++ new
           ∧ (List.length new ≤ List.length targets)%nat
           ∧ ∀ u, u ∈ new → ∃ pa, pa ∈ targets ∧ u = Attachment.url pa.2.

(** The error [e] of a download started in [w] was raised for an attachment
    among [targets] whose file was not on disk: the fetch of its URL was
    rejected, or the host served it and the write of its file was
    rejected. *)
Definition downloadError (remote : string → option string) (disk : Disk)
    (script : Script) (targets : list (string * Attachment.t)) (w : World)
    (e : Error) : Prop :=
  ∃ pa, pa ∈ targets
    ∧ files w !! filepath_of script pa.1 pa.2 = None
    ∧ ((e = FetchFailed (Attachment.url pa.2)
        ∧ remote (Attachment.url pa.2) = None)
       ∨ (∃ v buffer remains,
            e = WriteFailed (filepath_of script pa.1 pa.2)
            ∧ remote (Attachment.url pa.2) = Some buffer
            ∧ writes disk v (filepath_of script pa.1 pa.2) buffer
              = WriteRejected remains)).

(** From [w] to [w1] the attachments [requested] were requested, in this
    order, and the lines of the attachments [printed] were printed. *)
Definition fetchedTrace (requested printed : list (string * Attachment.t))
    (w w1 : World) : Prop :=
  requests w1 = requests w ++ map (λ pa, Attachment.url pa.2) requested
  ∧ console w1
    = console w
      ++ map (λ pa, Log ("Downloaded " +:+ filename_of pa.1 pa.2)) printed.

(** The outcome [o] of a computation started in [w] has the trace of a
    download of some of [targets], in their order: every attachment
    requested has its line, but the last one when the computation threw on
    the rejection of its fetch. *)
Definition traced {A} (script : Script) (targets : list (string * Attachment.t))
    (w : World) (o : Outcome A) : Prop :=
  match o with
  | Ok _ w1 =>
      ∃ fetched, fetched `sublist_of` targets ∧ fetchedTrace fetched fetched w w1
  | Throw e w1 =>
      ∃ fetched last,
        (fetched ++ [last]) `sublist_of` targets
        ∧ ((e = FetchFailed (Attachment.url last.2)
            ∧ fetchedTrace (fetched ++ [last]) fetched w w1)
           ∨ (e = WriteFailed (filepath_of script last.1 last.2)
              ∧ fetchedTrace (fetched ++ [last]) (fetched ++ [last]) w w1))
  end.

(** ** Notions used to state the effects of one mirror operation *)

(** The world [v] after one more request, one more line, one more file. *)
Definition requested (url : string) (v : World) : World :=
  mkWorld (files v) (requests v ++ [url]) (console v).

Definition printed (msg : string) (v : World) : World :=
  mkWorld (files v) (requests v) (console v ++ [Log msg]).

Definition stored (path content : string) (v : World) : World :=
  mkWorld (<[path := content]> (files v)) (requests v) (console v).

(** The world [v] after a rejected write at [path]. *)
Definition spoiled (path : string) (remains : option string) (v : World)
    : World :=
  mkWorld (from_option (λ partial, <[path := partial]> (files v)) (files v)
                       remains)
          (requests v) (console v).

(** The world after the handler of [downloadArchive] caught [e] in [v]. *)
Definition caught (archiveFilename : string) (e : Error) (v : World) : World :=
  mkWorld (files v) (requests v)
          ((console v ++ [Log ("[ERROR] could not download " +:+ archiveFilename)])
           ++ [LogError e]).

(** ** A concrete table, remote host and local directory *)

Definition example_about : Attachment.t :=
  Attachment.mk "attAbout1" "https://dl.airtable.com/about" "About.PNG".
Definition example_sampler : Attachment.t :=
  Attachment.mk "attSampler1" "https://dl.airtable.com/sampler" "Sampler.png".
Definition example_showcase : Attachment.t :=
  Attachment.mk "attShowcase1" "https://dl.airtable.com/showcase" "Showcase.png".
Definition example_archive : Attachment.t :=
  Attachment.mk "attArchive1" "https://dl.airtable.com/archive" "Theme.sit".
Definition example_orphan : Attachment.t :=
  Attachment.mk "attOrphan1" "https://dl.airtable.com/orphan" "Orphan.png".

(** A complete record, and one without [Name] that still has an attachment. *)
Definition example_records : list Fields.t :=
  [ Fields.mk (Some "Aqua") (Some "Someone") (Some "1999")
              (Some [example_about]) (Some [example_showcase])
              (Some [example_archive]) None (Some [example_sampler])
              (Some "2024-01-01T00:00:00.000Z");
    Fields.mk None None (Some "2001") (Some [example_orphan]) None None
              (Some "Broken.sit") None None ].

Definition example_remote (url : string) : option string :=
  if String.eqb url "https://dl.airtable.com/about" then Some "about bytes"
  else if String.eqb url "https://dl.airtable.com/sampler" then Some "sampler bytes"
  else if String.eqb url "https://dl.airtable.com/showcase" then Some "showcase bytes"
  else if String.eqb url "https://dl.airtable.com/orphan" then Some "orphan bytes"
  else if String.eqb url "https://files.macthemes.garden/Theme.sit.md5"
       then Some "d41d8cd9  Theme.sit"
  else if String.eqb url "https://files.macthemes.garden/Theme.sit"
       then Some "archive bytes"
  else None.

(** A stand-in for the digest: it tells the remote archive from the rest. *)
Definition example_md5 (content : string) : string :=
  if String.eqb content "archive bytes" then "d41d8cd9" else "00000000".

(** A stand-in for the serialisation: the names of the records. *)
Definition example_stringify (resolved : list ResolvedRecord.t) : string :=
  String.concat "," (map (λ r, default "" (ResolvedRecord.name r)) resolved).

(** A listing for the pattern [public/themes/attachments/*.png]: on the
    directories below, which hold neither a subdirectory nor a hidden file,
    it lists the files the pattern matches. *)
Definition example_globSync (fs : gmap string string) : list string :=
  List.filter (λ p, startsWith p "public/themes/attachments/" && endsWith p ".png")
              (map fst (map_to_list fs)).

(** A directory that holds one stale file of the other script. *)
Definition example_world : World :=
  mkWorld {[ "public/themes/attachments/old.png" := "old bytes" ]} [] [].

Definition world_of {A} (o : Outcome A) : World :=
  match o with Ok _ w => w | Throw _ w => w end.

Definition example_after : World :=
  world_of (run example_remote example_md5 example_stringify example_globSync
                dump_airtable example_records example_world).

(** A directory of the sibling script in which every attachment of the
    example records is in place. *)
Definition example_warm_world : World :=
  mkWorld
    {[ "public/themes/attachments/about-attabout1-about.png" := "about bytes";
       "public/themes/attachments/ksa-sampler-attsampler1-sampler.png"
         := "sampler bytes";
       "public/themes/attachments/showcase-attshowcase1-showcase.png"
         := "showcase bytes";
       "public/themes/attachments/about-attorphan1-orphan.png"
         := "orphan bytes" ]} [] [].

Definition part_000_once : World :=
  world_of (run example_remote example_md5 example_stringify example_globSync
                part_000 example_records example_warm_world).

Definition part_000_twice : World :=
  world_of (run example_remote example_md5 example_stringify example_globSync
                part_000 example_records part_000_once).

(** The first of the example records, normalized. *)
Definition example_first : NormalizedRecord.t :=
  NormalizedRecord.mk (Some "Aqua") (Some "Someone") (Some "1999")
    (Some example_about) (Some example_showcase) (Some example_archive) None
    (Some example_sampler) (NewDate (Some "2024-01-01T00:00:00.000Z")).

(** A record whose [about] and [showcase] attachments carry the same id. *)
Definition example_shared : NormalizedRecord.t :=
  NormalizedRecord.mk (Some "Twin") None (Some "2000")
    (Some (Attachment.mk "attShared" "https://dl.airtable.com/a" "A.png"))
    (Some (Attachment.mk "attShared" "https://dl.airtable.com/b" "B.png"))
    None (Some "Twin.sit") None (NewDate None).

(** A file system that rejects the write of one attachment of the first
    script, leaving an empty file, and on which the local copy of one
    archive cannot be read. *)
Definition example_disk : Disk :=
  mkDisk (λ _ path _,
            if String.eqb path "attachments/ksa-sampler-attsampler1-sampler.png"
            then WriteRejected (Some "") else Written)
         (λ _ _, true)
         (λ _ path, negb (String.eqb path "archives/Old.sit")).

Definition example_interrupted : World :=
  world_of (Faulty.run example_remote example_md5 example_stringify
              example_globSync example_disk dump_airtable example_records
              example_world).

(** A files host: it serves two archives with their manifests, answers the
    requests for a third one with an error page, and is out of reach for
    anything else. *)
Definition example_files_host (url : string) : option Response.t :=
  if String.eqb url "https://files.macthemes.garden/Theme.sit.md5"
  then Some (Response.mk 200 "d41d8cd9  Theme.sit")
  else if String.eqb url "https://files.macthemes.garden/Theme.sit"
  then Some (Response.mk 200 "archive bytes")
  else if String.eqb url "https://files.macthemes.garden/Old.sit.md5"
  then Some (Response.mk 200 "0123abcd  Old.sit")
  else if String.eqb url "https://files.macthemes.garden/Old.sit"
  then Some (Response.mk 200 "old archive")
  else if String.eqb url "https://files.macthemes.garden/Gone.sit.md5"
  then Some (Response.mk 404 "Not Found")
  else if String.eqb url "https://files.macthemes.garden/Gone.sit"
  then Some (Response.mk 404 "Not Found")
  else None.

(** A directory with a snapshot and the local copies of two archives. *)
Definition example_archives_world : World :=
  mkWorld {[ "airtable.json" := "Aqua";
             "archives/Old.sit" := "old bytes";
             "archives/Gone.sit" := "good bytes" ]} [] [].

Definition example_gone : World :=
  world_of (Faulty.downloadArchive (bodies example_files_host) example_md5
              reliable "Gone.sit" example_archives_world).


(** * Properties *)

(** ** Strings *)

(** The primitives on the strings the scripts meet. *)
Example string_primitives :
  toLowerCase "about-attL8HyJ-Foo.PNG" = "about-attl8hyj-foo.png"
  ∧ endsWith "Theme.sit" ".sit" = true
  ∧ endsWith "Theme.SIT" ".sit" = false
  ∧ endsWith "sit" ".sit" = false
  ∧ split " " "d41d8cd9  Theme.sit" = ["d41d8cd9"; ""; "Theme.sit"]
  ∧ split " " "" = [""]
  ∧ trim "  Theme sit  " = "Theme sit"
  ∧ trim (String "009" ("d41d8cd9" +:+ String "013" (String "010" "")))
    = "d41d8cd9".
Proof. by vm_compute. Qed.

Lemma toLowerCase_app (s t : string) :
  toLowerCase (s +:+ t) = toLowerCase s +:+ toLowerCase t.
Proof. induction s as [|c s IH]; simpl; [done | by rewrite IH]. Qed.

Lemma length_append (s t : string) :
  String.length (s +:+ t) = (String.length s + String.length t)%nat.
Proof.
  induction s as [|x s IH]; [done |].
  change (String x s +:+ t) with (String x (s +:+ t)). simpl. by rewrite IH.
Qed.

Lemma endsWith_unfold (s t : string) :
  endsWith s t =
    String.eqb s t ||
    match s with EmptyString => false | String _ s' => endsWith s' t end.
Proof. by destruct s. Qed.

Lemma endsWith_spec (s t : string) :
  endsWith s t = true ↔ ∃ u, s = u +:+ t.
Proof.
  induction s as [|c s IH]; rewrite endsWith_unfold.
  - rewrite orb_false_r, String.eqb_eq. split.
    + intros <-. by exists "".
    + intros [u Hu]. destruct u; simpl in Hu; [done | discriminate].
  - rewrite orb_true_iff, String.eqb_eq, IH. split.
    + intros [<- | [u ->]]; [by exists "" | by exists (String c u)].
    + intros [[|c' u] Hu]; simpl in Hu; [by left | right].
      injection Hu as _ ->. by exists u.
Qed.

Lemma endsWith_nonempty (s t : string) :
  endsWith s t = true → t ≠ "" → s ≠ "".
Proof.
  intros [u ->]%endsWith_spec Ht Hs. destruct u; simpl in Hs; [done | discriminate].
Qed.

Lemma split_before_separator (sep : ascii) (s rest : string) :
  all_chars (λ c, negb (Ascii.eqb c sep)) s = true →
  split sep (s +:+ String sep rest) = s :: split sep rest.
Proof.
  induction s as [|c s IH]; simpl.
  - by rewrite Ascii.eqb_refl.
  - intros [Hc Hs]%andb_true_iff. apply negb_true_iff in Hc.
    by rewrite Hc, (IH Hs).
Qed.

Lemma split_without_separator (sep : ascii) (s : string) :
  all_chars (λ c, negb (Ascii.eqb c sep)) s = true → split sep s = [s].
Proof.
  induction s as [|c s IH]; simpl; [done |].
  intros [Hc Hs]%andb_true_iff. apply negb_true_iff in Hc.
  by rewrite Hc, (IH Hs).
Qed.

Lemma trimEnd_no_space (s : string) :
  all_chars (λ c, negb (is_space c)) s = true → trimEnd s = s.
Proof.
  induction s as [|c s IH]; simpl; [done |].
  intros [Hc Hs]%andb_true_iff. apply negb_true_iff in Hc.
  rewrite (IH Hs), Hc. by destruct s.
Qed.

Lemma trim_no_space (s : string) :
  all_chars (λ c, negb (is_space c)) s = true → trim s = s.
Proof.
  intros Hs. unfold trim.
  assert (trimStart s = s) as ->; [| by apply trimEnd_no_space].
  destruct s as [|c s]; simpl in *; [done |].
  apply andb_true_iff in Hs as [Hc _]. apply negb_true_iff in Hc. by rewrite Hc.
Qed.

Lemma no_space_no_blank (s : string) :
  all_chars (λ c, negb (is_space c)) s = true →
  all_chars (λ c, negb (Ascii.eqb c " ")) s = true.
Proof.
  induction s as [|c s IH]; simpl; [done |].
  intros [Hc Hs]%andb_true_iff. rewrite (IH Hs), andb_true_r.
  destruct (Ascii.eqb_spec c " ") as [-> |]; [discriminate | done].
Qed.

Lemma trim_trailing_newline (s : string) :
  all_chars (λ c, negb (is_space c)) s = true →
  trim (s +:+ String "010" "") = s.
Proof.
  intros Hs. unfold trim.
  assert (trimEnd (s +:+ String "010" "") = s) as Hend.
  { induction s as [|c s IH]; simpl in *; [done |].
    apply andb_true_iff in Hs as [Hc Hs]. apply negb_true_iff in Hc.
    rewrite (IH Hs), Hc. by destruct s. }
  destruct s as [|c s]; [done |].
  simpl in Hs. apply andb_true_iff in Hs as [Hc _]. apply negb_true_iff in Hc.
  change (trimStart (String c s +:+ String "010" ""))
    with (if is_space c then trimStart (s +:+ String "010" "")
          else String c s +:+ String "010" "").
  by rewrite Hc.
Qed.

(** ** The record normalizer *)

Lemma optional_index0_total (v : Untyped.value) :
  is_Some (Untyped.optional_index0 v).
Proof. destruct v; simpl; eauto. Qed.

(** The normalizer throws exactly when [new Date] does. *)
Lemma untyped_normalize_total (fields : list (string * Untyped.value)) :
  is_Some (Untyped.normalize fields)
  ↔ Untyped.inconvertible (Untyped.property "Created" fields) = false.
Proof.
  unfold Untyped.normalize, Untyped.newDate.
  destruct (optional_index0_total (Untyped.property "About" fields)) as [? ->].
  destruct (optional_index0_total (Untyped.property "Showcase" fields)) as [? ->].
  destruct (optional_index0_total (Untyped.property "Archive file" fields))
    as [? ->].
  destruct (optional_index0_total
              (Untyped.property "KSA Sampler transparent" fields)) as [? ->].
  simpl.
  destruct (Untyped.inconvertible (Untyped.property "Created" fields)); simpl.
  - split; [by intros [? ?] | done].
  - split; [done | eauto].
Qed.

(** Whatever the other fields hold, a [Created] field that is missing or
    holds a primitive value is accepted. *)
Lemma primitive_convertible (v : Untyped.value) :
  match v with
  | Untyped.Array _ | Untyped.Object _ => True
  | _ => Untyped.inconvertible v = false
  end.
Proof. by destruct v. Qed.

(** On a typed raw record the two embeddings of the normalizer agree. *)
Lemma untyped_normalize_typed (fields : Fields.t) :
  Untyped.normalize (Untyped.of_fields fields)
  = Some (Untyped.of_normalized (normalize fields)).
Proof.
  destruct fields as [n a y ab sh af n2 ks cr].
  destruct n, a, y, n2, cr, ab as [[|? ?]|], sh as [[|? ?]|], af as [[|? ?]|],
           ks as [[|? ?]|]; reflexivity.
Qed.

(** C10, as amended.  The normalizer is a total function of the typed raw
    records: it returns one normalized record per raw record, position by
    position, whatever fields are missing; a missing field (or an empty
    attachment list) becomes an absent value.  On untyped raw records,
    whatever JSON values the fields hold, it throws exactly when the
    [Created] field of a record is a value that [new Date] cannot convert
    to a primitive: no other field makes it fail, nor does a [Created]
    field that is missing or holds a primitive value.  When it does not
    throw it returns as many records as it was given, and on typed records
    it computes the same records as the typed embedding. *)
Theorem normalizedRecords_total (records : list Fields.t) :
  List.length (normalizedRecords records) = List.length records
  ∧ (∀ i : nat, normalizedRecords records !! i = normalize <$> records !! i)
  ∧ normalize (Fields.mk None None None None None None None None None)
    = NormalizedRecord.mk None None None None None None None None (NewDate None)
  ∧ (∀ name authors year name2 created,
       normalize (Fields.mk name authors year (Some []) (Some []) (Some [])
                            name2 (Some []) created)
       = NormalizedRecord.mk name authors year None None None name2 None
                             (NewDate created))
  ∧ (∀ raw : list (list (string * Untyped.value)),
       (is_Some (Untyped.normalizedRecords raw)
        ↔ Forall (λ fields,
             Untyped.inconvertible (Untyped.property "Created" fields) = false)
             raw)
       ∧ (∀ out, Untyped.normalizedRecords raw = Some out →
                 List.length out = List.length raw))
  ∧ (∀ fields : list (string * Untyped.value),
       match Untyped.property "Created" fields with
       | Untyped.Array _ | Untyped.Object _ => True
       | _ => is_Some (Untyped.normalize fields)
       end)
  ∧ Untyped.normalizedRecords (map Untyped.of_fields records)
    = Some (map Untyped.of_normalized (normalizedRecords records)).
Proof.
  unfold normalizedRecords. split_and!.
  - apply length_map.
  - intros i. apply list_lookup_fmap.
  - reflexivity.
  - reflexivity.
  - intros raw. unfold Untyped.normalizedRecords.
    induction raw as [|fields raw [IHsome IHlen]].
    + split; [| by intros out [= <-]]. split; [constructor | by eexists].
    + simpl. pose proof (untyped_normalize_total fields) as Hfields.
      destruct (Untyped.normalize fields) as [r|]; simpl.
      * destruct (mapM Untyped.normalize raw) as [out|]; simpl.
        -- split.
           ++ split; [| by eexists]. intros _. constructor.
              ** apply Hfields. by eexists.
              ** apply IHsome. by eexists.
           ++ intros ? [= <-]. simpl. f_equal. by apply IHlen.
        -- split; [| done]. split; [by intros [? ?] |].
           intros [_ Hraw]%Forall_cons. by apply IHsome in Hraw as [? ?].
      * split; [| done]. split; [by intros [? ?] |].
        intros [Hhead _]%Forall_cons. by apply Hfields in Hhead as [? ?].
  - intros fields. pose proof (untyped_normalize_total fields) as Hfields.
    pose proof (primitive_convertible (Untyped.property "Created" fields))
      as Hprimitive.
    destruct (Untyped.property "Created" fields); by try apply Hfields.
  - unfold Untyped.normalizedRecords.
    induction records as [|fields records IH]; [done |].
    simpl. rewrite untyped_normalize_typed, IH. done.
Qed.

(** C10, counterexample: a [Created] field that holds an object with an own
    [toString] property makes [new Date] throw, and the normalizer with
    it, although every other field of the record is well formed. *)
Lemma normalizedRecords_throws :
  Untyped.normalizedRecords
    [ [ ("Name", Untyped.Str "Aqua");
        ("Created", Untyped.Str "2024-01-01T00:00:00.000Z") ];
      [ ("Name", Untyped.Str "Broken");
        ("Created", Untyped.Object [("toString", Untyped.Number 1)]) ] ]
  = None
  ∧ Untyped.normalizedRecords
      [ [ ("Name", Untyped.Str "Broken");
          ("Created", Untyped.Array
                        [Untyped.Object [("toString", Untyped.Null)]]) ] ]
    = None.
Proof. split; reflexivity. Qed.

(** ** Archive name derivation *)

(** C5.  The resolved [archiveFilename] is [archiveFile.filename] when that
    file name ends in [.sit]; otherwise it is [archiveFileName2] when that is
    a non-empty string; otherwise it is absent. *)
Theorem archiveFilename_derivation (paths : list DownloadedFile.t)
    (record : NormalizedRecord.t) :
  let resolved := ResolvedRecord.archiveFilename (resolve paths record) in
  let sit := from_option (λ a, endsWith (Attachment.filename a) ".sit") false
                         (NormalizedRecord.archiveFile record) in
  (∀ a, NormalizedRecord.archiveFile record = Some a → sit = true →
        resolved = Some (Attachment.filename a))
  ∧ (∀ s, sit = false → NormalizedRecord.archiveFileName2 record = Some s →
          s ≠ "" → resolved = Some s)
  ∧ (sit = false → truthy (NormalizedRecord.archiveFileName2 record) = false →
     resolved = None)
  ∧ archiveName (NormalizedRecord.mk None None None None None
      (Some (Attachment.mk "att1" "https://example.org/1" "Theme.sit"))
      (Some "theme-v2.zip") None (NewDate None)) = Some "Theme.sit"
  ∧ archiveName (NormalizedRecord.mk None None None None None
      (Some (Attachment.mk "att1" "https://example.org/1" "Theme.zip"))
      (Some "theme-v2.zip") None (NewDate None)) = Some "theme-v2.zip".
Proof.
  simpl. unfold archiveName.
  destruct record as [n a y ab sh [af|] n2 ks cr]; simpl; split_and!; try done.
  - intros a' [= <-] Hsit. rewrite Hsit. simpl.
    destruct (String.eqb_spec (Attachment.filename af) "") as [He|]; [| done].
    by destruct (endsWith_nonempty _ _ Hsit).
  - intros s -> -> Hs. simpl.
    by destruct (String.eqb_spec s "").
  - intros -> ->. done.
  - intros s _ -> Hs. simpl. by destruct (String.eqb_spec s "").
  - intros _ ->. done.
Qed.

(** ** Attachment paths *)

(** C2, as amended.  The local path of an attachment is a function of the
    script, the role prefix, the id and the file name alone: the attachments
    directory of the script followed by the lower-cased
    [<prefix><id>-<filename>], the prefix and the id being case-folded like
    the file name; [downloadAttachment] returns that path unless its fetch
    rejects.  For id [rec123], file name [Foo.PNG] and prefix [about-] it is
    [attachments/about-rec123-foo.png] in [dump-airtable.ts] and
    [public/themes/attachments/about-rec123-foo.png] in the sibling script. *)
Theorem filepath_of_deterministic (remote : string → option string)
    (script : Script) (prefix : string) (attachment : Attachment.t) (w : World) :
  filepath_of script prefix attachment
  = attachmentsDir script +:+ toLowerCase prefix +:+
    toLowerCase (Attachment.id attachment) +:+ "-" +:+
    toLowerCase (Attachment.filename attachment)
  ∧ match downloadAttachment remote script (Some attachment) prefix w with
    | Ok (Some d) _ =>
        DownloadedFile.filepath d = filepath_of script prefix attachment
    | Ok None _ => False
    | Throw _ _ => remote (Attachment.url attachment) = None
    end
  ∧ filepath_of dump_airtable "about-"
      (Attachment.mk "rec123" (Attachment.url attachment) "Foo.PNG")
    = "attachments/about-rec123-foo.png"
  ∧ filepath_of part_000 "about-"
      (Attachment.mk "rec123" (Attachment.url attachment) "Foo.PNG")
    = "public/themes/attachments/about-rec123-foo.png".
Proof.
  split_and!; try reflexivity.
  - unfold filepath_of, filename_of. by rewrite !toLowerCase_app.
  - unfold downloadAttachment, fs_exists, fetch. simpl.
    unfold mbind, M_bind, bind, ret.
    destruct (bool_decide _); [done |].
    by destruct (remote (Attachment.url attachment)).
Qed.

(** C2, counterexample: an id with capital letters is case-folded too, so
    the path is not [<prefix><id>-<lowercased filename>]. *)
Lemma filepath_of_folds_id :
  let attachment := Attachment.mk "recABC" "https://example.org/a" "Foo.PNG" in
  filepath_of dump_airtable "about-" attachment
  = "attachments/about-recabc-foo.png"
  ∧ filepath_of dump_airtable "about-" attachment
    ≠ attachmentsDir dump_airtable +:+ "about-" +:+ Attachment.id attachment +:+
      "-" +:+ toLowerCase (Attachment.filename attachment).
Proof. split; [reflexivity | discriminate]. Qed.

(** ** The checksum manifest *)

Lemma token_no_space (s : string) :
  all_chars is_token_char s = true →
  all_chars (λ c, negb (is_space c)) s = true.
Proof.
  induction s as [|c s IH]; simpl; [done |].
  intros [[_ Hc]%andb_true_iff Hs]%andb_true_iff. by rewrite Hc, IH.
Qed.

Lemma all_chars_app (p : ascii → bool) (s t : string) :
  all_chars p (s +:+ t) = all_chars p s && all_chars p t.
Proof.
  induction s as [|c s IH]; [done |].
  change (String c s +:+ t) with (String c (s +:+ t)). simpl.
  by rewrite IH, andb_assoc.
Qed.

Lemma trimEnd_app (s t : string) :
  trimEnd t ≠ "" → trimEnd (s +:+ t) = s +:+ trimEnd t.
Proof.
  intros Ht. induction s as [|c s IH]; [done |].
  change (String c s +:+ t) with (String c (s +:+ t)).
  change (String c s +:+ trimEnd t) with (String c (s +:+ trimEnd t)).
  simpl. rewrite IH.
  destruct (s +:+ trimEnd t) as [|d r] eqn:Hr; [| done].
  destruct s; [by simpl in Hr | discriminate Hr].
Qed.

(** A text that begins and ends with a token is left as it is by [trim]. *)
Lemma trim_between_tokens (s middle t : string) :
  s ≠ "" → t ≠ "" →
  all_chars (λ c, negb (is_space c)) s = true →
  all_chars (λ c, negb (is_space c)) t = true →
  trim (s +:+ middle +:+ t) = s +:+ middle +:+ t.
Proof.
  intros Hs Ht Hsp Htp. unfold trim.
  assert (trimStart (s +:+ middle +:+ t) = s +:+ middle +:+ t) as ->.
  { destruct s as [|c s]; [done |]. simpl in Hsp.
    apply andb_true_iff in Hsp as [Hc _]. apply negb_true_iff in Hc.
    change (String c s +:+ middle +:+ t) with (String c (s +:+ middle +:+ t)).
    simpl. by rewrite Hc. }
  assert (trimEnd t = t) as Hend by by apply trimEnd_no_space.
  assert (trimEnd (middle +:+ t) = middle +:+ t) as Hmiddle.
  { by rewrite trimEnd_app, Hend by by rewrite Hend. }
  rewrite trimEnd_app; rewrite Hmiddle; [done |].
  intros Hempty. apply (f_equal String.length) in Hempty.
  rewrite length_append in Hempty. destruct t; [done | simpl in Hempty; lia].
Qed.

(** C9, as amended.  The checksum compared is the text of the manifest
    before its first space character, trimmed: whatever follows the space,
    and likewise when the manifest holds no space at all.  Hence for a
    checksum that is a token (no white space in it) the value is the
    checksum when a space follows it, when nothing follows it and when only
    a line feed follows it.  A white space character other than the space
    is not a delimiter: when a TAB, a line feed or another such character
    and then a further token follow the checksum, the value is the whole
    text up to the first space, not the checksum.  The texts are taken
    among the characters below U+0080, where the white space of [trim] is
    the one of the embedding. *)
Theorem md5Remote_first_space (before rest : string)
    (Hascii : all_chars is_ascii before = true)
    (Hbefore : all_chars (λ c, negb (Ascii.eqb c " ")) before = true) :
  md5Remote (before +:+ " " +:+ rest) = Some (trim before)
  ∧ md5Remote before = Some (trim before)
  ∧ (all_chars is_token_char before = true →
     md5Remote (before +:+ " " +:+ rest) = Some before
     ∧ md5Remote before = Some before
     ∧ md5Remote (before +:+ String "010" "") = Some before
     ∧ ∀ (sep : ascii) (more : string),
         before ≠ "" → more ≠ "" →
         is_space sep = true → sep ≠ " "%char →
         all_chars is_token_char more = true →
         let text := before +:+ String sep more in
         md5Remote text = Some text
         ∧ md5Remote (text +:+ " " +:+ rest) = Some text
         ∧ md5Remote text ≠ Some before).
Proof.
  assert (∀ s, all_chars (λ c, negb (is_space c)) s = true →
               all_chars (λ c, negb (Ascii.eqb c " ")) s = true) as Hblank.
  { exact no_space_no_blank. }
  assert (∀ s more, all_chars (λ c, negb (Ascii.eqb c " ")) s = true →
            md5Remote (s +:+ " " +:+ more) = Some (trim s)) as Hcut.
  { intros s more Hs. unfold md5Remote.
    change (s +:+ " " +:+ more) with (s +:+ String " " more).
    by rewrite split_before_separator. }
  assert (∀ s, all_chars (λ c, negb (Ascii.eqb c " ")) s = true →
            md5Remote s = Some (trim s)) as Hwhole.
  { intros s Hs. unfold md5Remote. by rewrite split_without_separator. }
  split_and!; [by apply Hcut | by apply Hwhole |].
  intros Htoken%token_no_space.
  split_and!.
  - by rewrite Hcut, trim_no_space.
  - by rewrite Hwhole, trim_no_space.
  - rewrite Hwhole.
    + by rewrite trim_trailing_newline.
    + rewrite all_chars_app, Hbefore. reflexivity.
  - intros sep more Hne Hmore Hsep Hnotspace Hmoretoken%token_no_space text.
    assert (all_chars (λ c, negb (Ascii.eqb c " ")) text = true) as Htext.
    { unfold text. rewrite all_chars_app, Hbefore. simpl.
      rewrite (Hblank more Hmoretoken), andb_true_r.
      apply negb_true_iff. by destruct (Ascii.eqb_spec sep " "). }
    assert (trim text = text) as Htrim.
    { unfold text.
      change (before +:+ String sep more)
        with (before +:+ String sep "" +:+ more).
      by apply trim_between_tokens. }
    split_and!.
    + by rewrite Hwhole, Htrim.
    + by rewrite Hcut, Htrim.
    + rewrite Hwhole, Htrim by done. intros [= Heq].
      apply (f_equal String.length) in Heq. unfold text in Heq.
      rewrite length_append in Heq. simpl in Heq. lia.
Qed.

(** C9, an instance: a manifest in the format of [md5sum], and the same
    checksum followed by a line feed and a file name. *)
Lemma md5Remote_first_space_witness :
  md5Remote ("d41d8cd98f00b204e9800998ecf8427e" +:+ " " +:+ " Theme.sit")
  = Some "d41d8cd98f00b204e9800998ecf8427e"
  ∧ md5Remote "d41d8cd98f00b204e9800998ecf8427e"
    = Some "d41d8cd98f00b204e9800998ecf8427e"
  ∧ md5Remote ("d41d8cd98f00b204e9800998ecf8427e" +:+ String "010" "")
    = Some "d41d8cd98f00b204e9800998ecf8427e"
  ∧ md5Remote ("d41d8cd98f00b204e9800998ecf8427e" +:+ String "010" "Theme.sit")
    ≠ Some "d41d8cd98f00b204e9800998ecf8427e".
Proof.
  destruct (md5Remote_first_space "d41d8cd98f00b204e9800998ecf8427e"
              " Theme.sit" eq_refl eq_refl)
    as (_ & _ & Htoken).
  destruct (Htoken eq_refl) as (Hspace & Hnothing & Hfeed & Hother).
  split_and!; [exact Hspace | exact Hnothing | exact Hfeed |].
  destruct (Hother "010"%char "Theme.sit") as (_ & _ & Hne); done.
Defined.

(** C9, counterexample: a checksum followed by a TAB is not cut at the TAB. *)
Lemma md5Remote_tab_separated :
  let manifest := "d41d8cd9" +:+ String "009" "Theme.sit" in
  md5Remote manifest = Some manifest
  ∧ md5Remote manifest ≠ Some "d41d8cd9".
Proof. split; [reflexivity | discriminate]. Qed.

(** ** The filesystem reconciler *)

Lemma includes_spec (paths : list (option string)) (file : string) :
  includes paths file = true ↔ Some file ∈ paths.
Proof.
  unfold includes. rewrite existsb_exists. split.
  - intros (o & Hin & Ho). apply bool_decide_eq_true in Ho as ->.
    by apply list_elem_of_In.
  - intros Hin. exists (Some file). split; [by apply list_elem_of_In |].
    by apply bool_decide_eq_true.
Qed.

Lemma elem_of_filesToDelete (existing : list string)
    (paths : list (option string)) (file : string) :
  file ∈ filesToDelete existing paths
  ↔ file ∈ existing ∧ file ≠ "" ∧ Some file ∉ paths.
Proof.
  unfold filesToDelete.
  rewrite !list_elem_of_In, !filter_In, <- !list_elem_of_In.
  rewrite negb_true_iff, <- not_true_iff_false, includes_spec.
  simpl. rewrite negb_true_iff, String.eqb_neq. tauto.
Qed.

Lemma forEach_fs_remove (doomed : list string) (w : World) :
  ∃ w', forEach fs_remove doomed w = Ok tt w'
        ∧ (∀ p, files w' !! p
                = if bool_decide (p ∈ doomed) then None else files w !! p)
        ∧ requests w' = requests w
        ∧ console w' = console w.
Proof.
  revert w. induction doomed as [|file doomed IH]; intros w.
  - exists w. by split_and!.
  - destruct (IH (mkWorld (delete file (files w)) (requests w) (console w)))
      as (w' & Hrun & Hfiles & Hreq & Hcon).
    exists w'. split_and!; try done.
    intros p. rewrite Hfiles. simpl.
    destruct (decide (p = file)) as [-> | Hne].
    + rewrite lookup_delete_eq.
      rewrite (bool_decide_eq_true_2 (file ∈ file :: doomed)) by left.
      by case_bool_decide.
    + rewrite lookup_delete_ne by done.
      rewrite (bool_decide_ext (p ∈ file :: doomed) (p ∈ doomed)); [done |].
      rewrite elem_of_cons. tauto.
Qed.

(** C3.  For a listing of existing files (no listed path is empty) and the
    asset paths of the resolved records, the reconciler removes exactly the
    listed files that no record references, and no other file: for the
    listing [A.png, B.png, C.png] and the references [A.png, C.png] it
    removes [B.png] alone. *)
Theorem filesToDelete_difference (existing : list string)
    (resolved : list ResolvedRecord.t) (w : World)
    (Hlisting : "" ∉ existing) :
  let doomed := filesToDelete existing (allFiles resolved) in
  (∀ file, file ∈ doomed ↔ file ∈ existing ∧ Some file ∉ allFiles resolved)
  ∧ (∃ w', forEach fs_remove doomed w = Ok tt w'
           ∧ ∀ p, files w' !! p
                  = if bool_decide (p ∈ existing ∧ Some p ∉ allFiles resolved)
                    then None else files w !! p)
  ∧ filesToDelete ["A.png"; "B.png"; "C.png"] [Some "A.png"; Some "C.png"]
    = ["B.png"].
Proof.
  intros doomed.
  assert (∀ file, file ∈ doomed
                  ↔ file ∈ existing ∧ Some file ∉ allFiles resolved) as Hmem.
  { intros file. unfold doomed. rewrite elem_of_filesToDelete.
    split; [tauto |]. intros [Hin Hout]. split_and!; try done.
    by intros ->. }
  split_and!; [done | | reflexivity].
  destruct (forEach_fs_remove doomed w) as (w' & Hrun & Hfiles & _).
  exists w'. split; [done |]. intros p. rewrite Hfiles.
  by rewrite (bool_decide_ext _ _ (Hmem p)).
Qed.

(** ** The resolver *)

Lemma filter_all {A} (f : A → bool) (l : list A) :
  (∀ x, x ∈ l → f x = true) → List.filter f l = l.
Proof.
  induction l as [|x l IH]; intros Hall; [done |]. simpl.
  rewrite (Hall x) by left. f_equal. apply IH. intros y Hy. apply Hall. by right.
Qed.

(** The first filter drops nothing: the [Date] of a record is truthy. *)
Lemma nonEmpty_always (f : ResolvedRecord.t) : nonEmpty f = true.
Proof.
  unfold nonEmpty, truthyValues. apply negb_true_iff, Nat.eqb_neq.
  match goal with
  | |- List.length (List.filter ?p ?l) ≠ 0%nat =>
      assert (In true (List.filter p l)) as Hin
  end.
  { apply filter_In. split; [| done]. simpl. tauto. }
  intros Hlen. apply length_zero_iff_nil in Hlen. by rewrite Hlen in Hin.
Qed.

Lemma normalizedRecordsWithFilePaths_filter (paths : list DownloadedFile.t)
    (records : list NormalizedRecord.t) :
  normalizedRecordsWithFilePaths paths records
  = List.filter valid (map (resolve paths) records).
Proof.
  unfold normalizedRecordsWithFilePaths. f_equal.
  apply filter_all. intros f _. apply nonEmpty_always.
Qed.

Lemma valid_spec (f : ResolvedRecord.t) :
  valid f = true
  ↔ truthy (ResolvedRecord.name f) = true
    ∧ (truthy (ResolvedRecord.year f) = true
       ∨ truthy (ResolvedRecord.authors f) = true)
    ∧ truthy (ResolvedRecord.about f) = true
    ∧ truthy (ResolvedRecord.showcase f) = true
    ∧ truthy (ResolvedRecord.ksaSampler f) = true
    ∧ truthy (ResolvedRecord.archiveFilename f) = true.
Proof. unfold valid. rewrite !andb_true_iff, orb_true_iff. tauto. Qed.

Lemma findFilepath_elem (paths : list DownloadedFile.t)
    (a : option Attachment.t) (p : string) :
  findFilepath paths a = Some p →
  ∃ d, d ∈ paths ∧ DownloadedFile.filepath d = p.
Proof.
  unfold findFilepath. destruct (List.find _ paths) as [d|] eqn:Hfind; [| done].
  intros [= <-]. apply find_some in Hfind as [Hin _].
  exists d. by rewrite list_elem_of_In.
Qed.

(** Every path a resolved record references is the path of a descriptor. *)
Lemma allFiles_elem (paths : list DownloadedFile.t)
    (records : list NormalizedRecord.t) (p : string) :
  Some p ∈ allFiles (normalizedRecordsWithFilePaths paths records) →
  ∃ d, d ∈ paths ∧ DownloadedFile.filepath d = p.
Proof.
  unfold allFiles. rewrite list_elem_of_In, in_flat_map.
  intros (f & Hf & Hp).
  rewrite normalizedRecordsWithFilePaths_filter in Hf.
  apply filter_In in Hf as [Hf _]. apply in_map_iff in Hf as (record & <- & _).
  simpl in Hp.
  destruct Hp as [Hp | [Hp | [Hp | []]]]; by eapply findFilepath_elem.
Qed.

Lemma expectedPaths_elem (script : Script) (records : list NormalizedRecord.t)
    (d : DownloadedFile.t) :
  d ∈ expectedPaths script records →
  ∃ prefix a, d = descriptor script prefix a.
Proof.
  unfold expectedPaths. rewrite list_elem_of_In, in_flat_map.
  intros (record & _ & Hd). unfold recordPaths in Hd.
  destruct (NormalizedRecord.about record), (NormalizedRecord.ksaSampler record),
           (NormalizedRecord.showcase record); simpl in Hd;
    repeat destruct Hd as [<- | Hd]; try done; eauto.
Qed.

(** The referenced paths all lie in the attachments directory of the script. *)
Lemma referenced_in_attachmentsDir (script : Script) (records : list Fields.t)
    (p : string) :
  Some p ∈ allFiles (snapshot script records) →
  ∃ x, p = attachmentsDir script +:+ x.
Proof.
  intros (d & (prefix & a & ->)%expectedPaths_elem & <-)%allFiles_elem.
  by eexists.
Qed.




(** ** Effects *)

Lemma bind_Ok {A B} (m : M A) (k : A → M B) (w w1 : World) (a : A) :
  m w = Ok a w1 → (m ≫= k) w = k a w1.
Proof. unfold mbind, M_bind, bind. by intros ->. Qed.

Lemma bind_Throw {A B} (m : M A) (k : A → M B) (w w1 : World) (e : Error) :
  m w = Throw e w1 → (m ≫= k) w = Throw e w1.
Proof. unfold mbind, M_bind, bind. by intros ->. Qed.

Lemma bind_Ok_inv {A B} (m : M A) (k : A → M B) (w w' : World) (b : B) :
  (m ≫= k) w = Ok b w' → ∃ a w1, m w = Ok a w1 ∧ k a w1 = Ok b w'.
Proof.
  unfold mbind, M_bind, bind. destruct (m w) as [a w1 | e w1]; [| done].
  intros Hk. by exists a, w1.
Qed.

Lemma is_Some_mono (fs fs' : gmap string string) (p : string) :
  dom fs ⊆ dom fs' → is_Some (fs !! p) → is_Some (fs' !! p).
Proof. intros Hsub Hp. by apply elem_of_dom, Hsub, elem_of_dom. Qed.

Lemma warm_mono (script : Script) (records : list NormalizedRecord.t)
    (fs fs' : gmap string string) :
  dom fs ⊆ dom fs' → warm script records fs → warm script records fs'.
Proof.
  intros Hsub Hwarm. unfold warm in *.
  eapply Forall_impl; [exact Hwarm |]. intros record Hrecord. simpl in *.
  eapply Forall_impl; [exact Hrecord |]. intros pa Hpa. simpl in *.
  by eapply is_Some_mono.
Qed.

Section Correctness.

Context (remote : string → option string) (md5 : string → string).
Context (stringify : list ResolvedRecord.t → string).
Context (globSync : gmap string string → list string).

Lemma downloadAttachment_present (script : Script) (attachment : Attachment.t)
    (prefix : string) (w : World) :
  is_Some (files w !! filepath_of script prefix attachment) →
  downloadAttachment remote script (Some attachment) prefix w
  = Ok (Some (descriptor script prefix attachment)) w.
Proof.
  intros Hfile. unfold downloadAttachment.
  erewrite bind_Ok; [| reflexivity].
  by rewrite bool_decide_eq_true_2.
Qed.

Lemma downloadAttachment_absent (script : Script) (attachment : Attachment.t)
    (prefix : string) (w : World) :
  files w !! filepath_of script prefix attachment = None →
  downloadAttachment remote script (Some attachment) prefix w
  = match remote (Attachment.url attachment) with
    | Some buffer =>
        Ok (Some (descriptor script prefix attachment))
           (mkWorld (<[filepath_of script prefix attachment := buffer]> (files w))
                    (requests w ++ [Attachment.url attachment])
                    (console w ++ [Log ("Downloaded " +:+
                                        filename_of prefix attachment)]))
    | None =>
        Throw (FetchFailed (Attachment.url attachment))
              (mkWorld (files w) (requests w ++ [Attachment.url attachment])
                       (console w))
    end.
Proof.
  intros Hfile. unfold downloadAttachment.
  erewrite bind_Ok; [| reflexivity].
  rewrite bool_decide_eq_false_2 by (rewrite Hfile; by intros [? ?]).
  unfold mbind, M_bind, bind, fetch.
  by destruct (remote (Attachment.url attachment)).
Qed.

(** Whenever [downloadAttachment] returns, it returns the descriptor of
    its argument, the file is on disk, and no file was lost. *)
Lemma downloadAttachment_inv (script : Script)
    (attachment : option Attachment.t) (prefix : string) (w w' : World)
    (r : option DownloadedFile.t) :
  downloadAttachment remote script attachment prefix w = Ok r w' →
  r = descriptor script prefix <$> attachment
  ∧ dom (files w) ⊆ dom (files w')
  ∧ from_option (λ a, is_Some (files w' !! filepath_of script prefix a)) True
                attachment.
Proof.
  destruct attachment as [a|].
  - destruct (files w !! filepath_of script prefix a) as [content|] eqn:Hfile.
    + rewrite downloadAttachment_present by (rewrite Hfile; eauto).
      intros [= <- <-]. simpl. rewrite Hfile. eauto.
    + rewrite downloadAttachment_absent by done.
      destruct (remote (Attachment.url a)) as [buffer|]; [| done].
      intros [= <- <-]. simpl. split_and!; [done | |].
      * rewrite dom_insert. set_solver.
      * rewrite lookup_insert_eq. eauto.
  - intros [= <- <-]. done.
Qed.

Lemma downloadRecord_inv (script : Script) (record : NormalizedRecord.t)
    (w w' : World) (paths : list DownloadedFile.t) :
  downloadRecord remote script record w = Ok paths w' →
  paths = recordPaths script record
  ∧ dom (files w) ⊆ dom (files w')
  ∧ Forall (λ pa, is_Some (files w' !! filepath_of script pa.1 pa.2))
           (attachmentsOf record).
Proof.
  unfold downloadRecord. intros Hrun.
  apply bind_Ok_inv in Hrun as (r1 & w1 & H1 & Hrun).
  apply bind_Ok_inv in Hrun as (r2 & w2 & H2 & Hrun).
  apply bind_Ok_inv in Hrun as (r3 & w3 & H3 & Hrun).
  injection Hrun as <- <-.
  apply downloadAttachment_inv in H1 as (-> & Hd1 & Hf1).
  apply downloadAttachment_inv in H2 as (-> & Hd2 & Hf2).
  apply downloadAttachment_inv in H3 as (-> & Hd3 & Hf3).
  split_and!; [done | etrans; [exact Hd1 | by etrans] |].
  unfold attachmentsOf.
  destruct (NormalizedRecord.about record) as [a1|],
           (NormalizedRecord.ksaSampler record) as [a2|],
           (NormalizedRecord.showcase record) as [a3|];
    simpl in *;
    repeat (apply Forall_cons; split); try apply Forall_nil; simpl;
    eauto using is_Some_mono.
Qed.

Lemma downloadRecord_warm (script : Script) (record : NormalizedRecord.t)
    (w : World) :
  Forall (λ pa, is_Some (files w !! filepath_of script pa.1 pa.2))
         (attachmentsOf record) →
  downloadRecord remote script record w = Ok (recordPaths script record) w.
Proof.
  unfold downloadRecord, attachmentsOf, recordPaths.
  destruct (NormalizedRecord.about record) as [a1|],
           (NormalizedRecord.ksaSampler record) as [a2|],
           (NormalizedRecord.showcase record) as [a3|];
    simpl; intros Hwarm;
    repeat match goal with
           | H : Forall _ (_ :: _) |- _ =>
               apply Forall_cons in H as [? H]; simpl in *
           end;
    repeat (erewrite bind_Ok;
            [| first [ by apply downloadAttachment_present | reflexivity ] ]);
    reflexivity.
Qed.

(** Whenever the download stage returns, it returns [expectedPaths], no
    file was lost and the directory is warm. *)
Lemma filePaths_inv (script : Script) (records : list NormalizedRecord.t)
    (w w' : World) (paths : list DownloadedFile.t) :
  filePaths remote script records w = Ok paths w' →
  paths = expectedPaths script records
  ∧ dom (files w) ⊆ dom (files w')
  ∧ warm script records (files w').
Proof.
  unfold filePaths. revert w paths.
  induction records as [|record records IH]; intros w paths Hrun.
  - injection Hrun as <- <-. split_and!; [done | done | constructor].
  - simpl in Hrun.
    apply bind_Ok_inv in Hrun as (ps & w1 & Hrecord & Hrun).
    apply bind_Ok_inv in Hrun as (rest & w2 & Hrest & Hrun).
    injection Hrun as <- <-.
    apply downloadRecord_inv in Hrecord as (-> & Hd1 & Hf1).
    apply IH in Hrest as (-> & Hd2 & Hwarm).
    split_and!; [done | by etrans |].
    constructor; [| done].
    eapply Forall_impl; [exact Hf1 |]. intros pa Hpa. simpl in *.
    by eapply is_Some_mono.
Qed.

(** In a warm directory the download stage fetches and writes nothing. *)
Lemma filePaths_warm (script : Script) (records : list NormalizedRecord.t)
    (w : World) :
  warm script records (files w) →
  filePaths remote script records w = Ok (expectedPaths script records) w.
Proof.
  unfold filePaths, warm.
  induction records as [|record records IH]; intros Hwarm; [done |].
  apply Forall_cons in Hwarm as [Hrecord Hwarm]. simpl.
  erewrite bind_Ok; [| by apply downloadRecord_warm].
  erewrite bind_Ok; [| by apply IH].
  reflexivity.
Qed.

(** ** The archive mirror *)

(** The three ways one mirror operation ends: the manifest cannot be
    fetched; the local copy carries the remote checksum; the archive is
    fetched (and written, unless that fetch rejects). *)
Lemma downloadArchive_cases (archiveFilename : string) (w : World) :
  let manifestUrl := files_host +:+ archiveFilename +:+ ".md5" in
  let archiveUrl := files_host +:+ archiveFilename in
  let filepath := "archives/" +:+ archiveFilename in
  let failed url := [Log ("[ERROR] could not download " +:+ archiveFilename);
                     LogError (FetchFailed url)] in
  downloadArchive remote md5 archiveFilename w
  = match remote manifestUrl with
    | None =>
        Ok tt (mkWorld (files w) (requests w ++ [manifestUrl])
                       (console w ++ failed manifestUrl))
    | Some manifest =>
        if from_option
             (λ content, bool_decide (Some (md5 content) = md5Remote manifest))
             false (files w !! filepath)
        then Ok tt (mkWorld (files w) (requests w ++ [manifestUrl])
                     (console w ++ [Log ("[INFO] skipped " +:+ archiveFilename)]))
        else match remote archiveUrl with
             | None =>
                 Ok tt (mkWorld (files w)
                          ((requests w ++ [manifestUrl]) ++ [archiveUrl])
                          (console w ++ failed archiveUrl))
             | Some response =>
                 Ok tt (mkWorld
                          (<[filepath +:+ ".md5" := manifest]>
                             (<[filepath := response]> (files w)))
                          ((requests w ++ [manifestUrl]) ++ [archiveUrl])
                          (console w ++
                           [Log ("[INFO] downloaded " +:+ archiveFilename)]))
             end
    end.
Proof.
  simpl.
  unfold downloadArchive, downloadArchive_try, try_catch, mbind, M_bind, bind,
    fetch, fs_exists, getMd5HashOfFile, fs_writeFile, console_log,
    console_error, ret.
  simpl.
  destruct (remote (files_host +:+ archiveFilename +:+ ".md5")) as [manifest|];
    simpl; [| by rewrite <- app_assoc].
  destruct (files w !! ("archives/" +:+ archiveFilename)) as [content|] eqn:Hfile;
    simpl.
  - try rewrite Hfile.
    destruct (bool_decide _); simpl; [done |].
    destruct (remote (files_host +:+ archiveFilename)); simpl;
      [done | by rewrite <- !app_assoc].
  - destruct (remote (files_host +:+ archiveFilename)); simpl;
      [done | by rewrite <- !app_assoc].
Qed.

Lemma downloadArchive_skips (archiveFilename manifest : string) (w : World) :
  remote (files_host +:+ archiveFilename +:+ ".md5") = Some manifest →
  upToDate md5 archiveFilename manifest w = true →
  downloadArchive remote md5 archiveFilename w
  = Ok tt (mkWorld (files w)
             (requests w ++ [files_host +:+ archiveFilename +:+ ".md5"])
             (console w ++ [Log ("[INFO] skipped " +:+ archiveFilename)])).
Proof.
  intros Hmanifest Hsame. rewrite downloadArchive_cases. cbv zeta.
  rewrite Hmanifest. unfold upToDate in Hsame. by rewrite Hsame.
Qed.

Lemma downloadArchive_downloads (archiveFilename manifest response : string)
    (w : World) :
  remote (files_host +:+ archiveFilename +:+ ".md5") = Some manifest →
  upToDate md5 archiveFilename manifest w = false →
  remote (files_host +:+ archiveFilename) = Some response →
  downloadArchive remote md5 archiveFilename w
  = Ok tt (mkWorld
             (<[("archives/" +:+ archiveFilename) +:+ ".md5" := manifest]>
                (<["archives/" +:+ archiveFilename := response]> (files w)))
             ((requests w ++ [files_host +:+ archiveFilename +:+ ".md5"])
              ++ [files_host +:+ archiveFilename])
             (console w ++ [Log ("[INFO] downloaded " +:+ archiveFilename)])).
Proof.
  intros Hmanifest Hstale Hresponse. rewrite downloadArchive_cases. cbv zeta.
  rewrite Hmanifest. unfold upToDate in Hstale. by rewrite Hstale, Hresponse.
Qed.

(** One mirror operation always returns; it loses no file, touches no path
    outside [archives/] and only adds lines to the console. *)
Lemma downloadArchive_frame (archiveFilename : string) (w : World) :
  ∃ w', downloadArchive remote md5 archiveFilename w = Ok tt w'
    ∧ dom (files w) ⊆ dom (files w')
    ∧ (∀ p, startsWith p "archives/" = false → files w' !! p = files w !! p)
    ∧ (∃ lines, console w' = console w ++ lines)
    ∧ (remote (files_host +:+ archiveFilename +:+ ".md5") = None →
       files w' = files w
       ∧ Log ("[ERROR] could not download " +:+ archiveFilename) ∈ console w').
Proof.
  pose proof (downloadArchive_cases archiveFilename w) as Hcases.
  cbv zeta in Hcases. rewrite Hcases. clear Hcases.
  destruct (remote (files_host +:+ archiveFilename +:+ ".md5")) as [manifest|].
  - destruct (from_option _ _ _);
      [| destruct (remote (files_host +:+ archiveFilename)) as [response|]];
      eexists; (split; [reflexivity |]); simpl;
      (split_and!; [| | by eexists | done]); try done.
    + rewrite !dom_insert. set_solver.
    + intros p Hp.
      rewrite !lookup_insert_ne; [done | |]; intros <-; by vm_compute in Hp.
  - eexists. split; [reflexivity |]. simpl.
    split_and!; [done | done | by eexists |].
    intros _. split; [done |]. apply elem_of_app. right. left.
Qed.

Lemma mapLimit_downloadArchive_frame (names : list string) (w : World) :
  ∃ w', mapLimit (downloadArchive remote md5) names w = Ok tt w'
    ∧ dom (files w) ⊆ dom (files w')
    ∧ (∀ p, startsWith p "archives/" = false → files w' !! p = files w !! p)
    ∧ (∃ lines, console w' = console w ++ lines)
    ∧ (∀ name, name ∈ names →
         remote (files_host +:+ name +:+ ".md5") = None →
         Log ("[ERROR] could not download " +:+ name) ∈ console w').
Proof.
  unfold mapLimit. revert w.
  induction names as [|name names IH]; intros w.
  - exists w. split_and!; try done.
    + exists []. by rewrite app_nil_r.
    + by intros ? ?%elem_of_nil.
  - destruct (downloadArchive_frame name w)
      as (w1 & Hrun1 & Hdom1 & Hframe1 & [lines1 Hlines1] & Hfail1).
    destruct (IH w1) as (w' & Hrun & Hdom & Hframe & [lines Hlines] & Hfail).
    exists w'. simpl. erewrite bind_Ok by exact Hrun1.
    split_and!; [done | by etrans | | |].
    + intros p Hp. by rewrite Hframe, Hframe1.
    + exists (lines1 ++ lines). by rewrite Hlines, Hlines1, app_assoc.
    + intros name' [-> | Hin]%elem_of_cons Hremote; [| by apply Hfail].
      rewrite Hlines. apply elem_of_app. left. by apply Hfail1.
Qed.

(** C6.  When the manifest of an archive can be fetched: if a local copy
    exists and its MD5 digest is the checksum of the manifest, nothing but
    the manifest is fetched and no file changes; if there is no local copy
    or the digests differ, the archive is fetched, written to its local
    path, and the manifest text is written next to it. *)
Theorem downloadArchive_mirror (archiveFilename manifest : string) (w : World)
    (Hmanifest : remote (files_host +:+ archiveFilename +:+ ".md5")
                 = Some manifest) :
  let manifestUrl := files_host +:+ archiveFilename +:+ ".md5" in
  let archiveUrl := files_host +:+ archiveFilename in
  let filepath := "archives/" +:+ archiveFilename in
  ∃ w', downloadArchive remote md5 archiveFilename w = Ok tt w'
    ∧ (∀ content,
         files w !! filepath = Some content →
         Some (md5 content) = md5Remote manifest →
         files w' = files w
         ∧ requests w' = requests w ++ [manifestUrl])
    ∧ (∀ response,
         files w !! filepath = None
         ∨ (∃ content, files w !! filepath = Some content
                       ∧ Some (md5 content) ≠ md5Remote manifest) →
         remote archiveUrl = Some response →
         files w' = <[filepath +:+ ".md5" := manifest]>
                      (<[filepath := response]> (files w))
         ∧ requests w' = requests w ++ [manifestUrl; archiveUrl]).
Proof.
  intros manifestUrl archiveUrl filepath.
  destruct (upToDate md5 archiveFilename manifest w) eqn:Hsame.
  - eexists. split; [by apply (downloadArchive_skips _ manifest) |].
    simpl. split; [done |].
    intros response Hstale _. exfalso. unfold upToDate in Hsame.
    fold filepath in Hsame.
    destruct Hstale as [Hnone | (content & Hfile & Hne)].
    + by rewrite Hnone in Hsame.
    + rewrite Hfile in Hsame. simpl in Hsame.
      by apply bool_decide_eq_true in Hsame.
  - assert (∀ content, files w !! filepath = Some content →
                       Some (md5 content) = md5Remote manifest → False)
      as Hdiffer.
    { intros content Hfile Heq. unfold upToDate in Hsame.
      fold filepath in Hsame. rewrite Hfile in Hsame. simpl in Hsame.
      by apply bool_decide_eq_false in Hsame. }
    destruct (downloadArchive_frame archiveFilename w) as (w' & Hrun & _).
    exists w'. split; [done |]. split.
    + intros content Hfile Heq. by destruct (Hdiffer content).
    + intros response _ Hresponse.
      rewrite (downloadArchive_downloads _ _ _ _ Hmanifest Hsame Hresponse)
        in Hrun.
      injection Hrun as <-. simpl. split; [done |]. by rewrite <- app_assoc.
Qed.

(** ** The whole script *)

Lemma run_inv (script : Script) (records : list Fields.t) (w w' : World) :
  run remote md5 stringify globSync script records w = Ok tt w' →
  ∃ w1 w2,
    filePaths remote script (normalizedRecords records) (started records w)
    = Ok (expectedPaths script (normalizedRecords records)) w1
    ∧ forEach fs_remove
        (filesToDelete (globSync (files w))
                       (allFiles (snapshot script records))) w1
      = Ok tt w2
    ∧ (if mirrorsArchives script
       then mapLimit (downloadArchive remote md5)
                     (archives (snapshot script records))
       else ret tt) (written stringify script records w2) = Ok tt w'.
Proof.
  unfold run. intros Hrun.
  apply bind_Ok_inv in Hrun as (existing & w0 & [= <- <-] & Hrun).
  apply bind_Ok_inv in Hrun as ([] & wa & [= <-] & Hrun).
  apply bind_Ok_inv in Hrun as ([] & wb & [= <-] & Hrun).
  apply bind_Ok_inv in Hrun as (paths & w1 & Hstage & Hrun).
  apply bind_Ok_inv in Hrun as ([] & w2 & Hremove & Hrun).
  apply bind_Ok_inv in Hrun as ([] & w3 & [= <-] & Hrun).
  pose proof Hstage as (-> & _)%filePaths_inv.
  by exists w1, w2.
Qed.

(** The script returns as soon as its download stage does: neither the
    reconciler, nor the snapshot writer, nor the archive mirror aborts. *)
Lemma run_complete (script : Script) (records : list Fields.t)
    (w w1 : World) (paths : list DownloadedFile.t) :
  filePaths remote script (normalizedRecords records) (started records w)
  = Ok paths w1 →
  ∃ w', run remote md5 stringify globSync script records w = Ok tt w'.
Proof.
  intros Hstage. unfold run.
  erewrite bind_Ok; [| reflexivity].
  erewrite bind_Ok; [| reflexivity].
  erewrite bind_Ok; [| reflexivity].
  erewrite bind_Ok; [| exact Hstage].
  destruct (forEach_fs_remove
              (filesToDelete (globSync (files w))
                 (allFiles (normalizedRecordsWithFilePaths paths
                              (normalizedRecords records)))) w1)
    as (w2 & Hremove & _).
  erewrite bind_Ok; [| exact Hremove].
  erewrite bind_Ok; [| reflexivity].
  destruct (mirrorsArchives script); [| by eexists].
  edestruct mapLimit_downloadArchive_frame as (w' & Hmirror & _).
  exists w'. exact Hmirror.
Qed.

(** A run that returns has written its snapshot. *)
Lemma run_snapshot (script : Script) (records : list Fields.t) (w w' : World) :
  (mirrorsArchives script = true →
   startsWith (snapshotPath script) "archives/" = false) →
  run remote md5 stringify globSync script records w = Ok tt w' →
  files w' !! snapshotPath script = Some (stringify (snapshot script records)).
Proof.
  intros Hpath (w1 & w2 & _ & _ & Hmirror)%run_inv.
  destruct (mirrorsArchives script).
  - destruct (mapLimit_downloadArchive_frame
                (archives (snapshot script records))
                (written stringify script records w2))
      as (w'' & Hrun & _ & Hframe & _).
    rewrite Hrun in Hmirror. injection Hmirror as <-.
    rewrite Hframe by auto. simpl. apply lookup_insert_eq.
  - injection Hmirror as <-. simpl. apply lookup_insert_eq.
Qed.

(** ** The snapshot *)


(** ** The reconciler of [dump-airtable.ts] *)

(** What the pattern [public/themes/attachments/*.png] guarantees of a
    listed path. *)
Hypothesis globSync_listing : ∀ fs p,
  p ∈ globSync fs → startsWith p "public/themes/attachments/" = true.

Lemma listed_path (p : string) :
  startsWith p "public/themes/attachments/" = true →
  p ≠ "" ∧ p ≠ "airtable.json" ∧ startsWith p "archives/" = false
  ∧ ∀ x, p ≠ attachmentsDir dump_airtable +:+ x.
Proof.
  destruct p as [|c p]; simpl; [done |].
  destruct (Ascii.eqb_spec c "p") as [-> |]; [| done]. intros _.
  by split_and!.
Qed.

Lemma listed_unreferenced (records : list Fields.t) (fs : gmap string string)
    (p : string) :
  p ∈ globSync fs → Some p ∉ allFiles (snapshot dump_airtable records).
Proof.
  intros (_ & _ & _ & Hp)%globSync_listing%listed_path
         [x ->]%referenced_in_attachmentsDir.
  by apply (Hp x).
Qed.

(** C4.  In [dump-airtable.ts] the attachments are written under
    [attachments/] while the listing holds paths under
    [public/themes/attachments/]: no listed path is referenced by a
    record, the files to delete are the whole listing, and a run that
    returns has removed every listed file. *)
Theorem reconciler_deletes_listing (records : list Fields.t) (w w' : World)
    (Hrun : run remote md5 stringify globSync dump_airtable records w
            = Ok tt w') :
  let existing := globSync (files w) in
  let referenced := allFiles (snapshot dump_airtable records) in
  (∀ p, p ∈ existing → Some p ∉ referenced)
  ∧ filesToDelete existing referenced = existing
  ∧ (∀ p, p ∈ existing → files w' !! p = None).
Proof.
  intros existing referenced.
  assert (filesToDelete existing referenced = existing) as Hall.
  { unfold filesToDelete.
    rewrite (filter_all (λ f, truthy (Some f))).
    - apply filter_all. intros p Hp.
      apply negb_true_iff, not_true_iff_false.
      rewrite includes_spec. by eapply listed_unreferenced.
    - intros p Hp. simpl. apply negb_true_iff, String.eqb_neq.
      by apply globSync_listing, listed_path in Hp as (? & _). }
  split_and!; [by eapply listed_unreferenced | done |].
  intros p Hp.
  apply run_inv in Hrun as (w1 & w2 & _ & Hremove & Hmirror).
  fold existing referenced in Hremove. rewrite Hall in Hremove.
  destruct (forEach_fs_remove existing w1) as (w2' & Hremove' & Hfiles & _).
  rewrite Hremove in Hremove'. injection Hremove' as <-.
  pose proof Hp as (_ & Hsnapshot & Harchives & _)%globSync_listing%listed_path.
  destruct (mapLimit_downloadArchive_frame
              (archives (snapshot dump_airtable records))
              (written stringify dump_airtable records w2))
    as (w'' & Hrun' & _ & Hframe & _).
  simpl in Hmirror. rewrite Hrun' in Hmirror. injection Hmirror as <-.
  rewrite Hframe by done. simpl. rewrite lookup_insert_ne by done.
  rewrite Hfiles. by rewrite bool_decide_eq_true_2.
Qed.

(** ** Idempotence *)

(** After a run of [dump-airtable.ts] that returns, every attachment of
    every record is on disk. *)
Lemma run_leaves_warm (records : list Fields.t) (w w' : World) :
  run remote md5 stringify globSync dump_airtable records w = Ok tt w' →
  warm dump_airtable (normalizedRecords records) (files w').
Proof.
  intros (w1 & w2 & Hstage & Hremove & Hmirror)%run_inv.
  apply filePaths_inv in Hstage as (_ & _ & Hwarm).
  destruct (forEach_fs_remove
              (filesToDelete (globSync (files w))
                 (allFiles (snapshot dump_airtable records))) w1)
    as (w2' & Hremove' & Hfiles & _).
  rewrite Hremove in Hremove'. injection Hremove' as <-.
  assert (warm dump_airtable (normalizedRecords records) (files w2)) as Hwarm2.
  { unfold warm in *.
    eapply Forall_impl; [exact Hwarm |]. intros record Hrecord. simpl in *.
    eapply Forall_impl; [exact Hrecord |]. intros [prefix a] Hpa. simpl in *.
    rewrite Hfiles. rewrite bool_decide_eq_false_2; [done |].
    intros (Hlisted & _)%elem_of_filesToDelete.
    apply globSync_listing, listed_path in Hlisted as (_ & _ & _ & Hp).
    by apply (Hp (filename_of prefix a)). }
  destruct (mapLimit_downloadArchive_frame
              (archives (snapshot dump_airtable records))
              (written stringify dump_airtable records w2))
    as (w'' & Hrun' & Hdom & _).
  simpl in Hmirror. rewrite Hrun' in Hmirror. injection Hmirror as <-.
  eapply warm_mono; [| exact Hwarm2].
  etrans; [| exact Hdom]. simpl. rewrite dom_insert. set_solver.
Qed.

(** C8, as amended.  When the file of an attachment is already at its path,
    [downloadAttachment] returns the descriptor [{id, filepath, filename}]
    and leaves the world as it is: nothing is fetched, written or printed.
    Hence in a warm directory the download stage of either script does
    nothing, the run returns and the snapshot it writes depends on the
    records alone.  A run of [dump-airtable.ts] that returns leaves the
    directory warm: run again on the same records, the script downloads no
    attachment and writes the same snapshot. *)
Theorem downloadAttachment_idempotent (script : Script) (prefix : string)
    (attachment : Attachment.t) (records : list Fields.t) (w : World)
    (Hexists : is_Some (files w !! filepath_of script prefix attachment))
    (Hwarm : warm script (normalizedRecords records) (files w)) :
  let normalized := normalizedRecords records in
  downloadAttachment remote script (Some attachment) prefix w
  = Ok (Some (DownloadedFile.mk (Attachment.id attachment)
                                (filepath_of script prefix attachment)
                                (Attachment.filename attachment))) w
  ∧ filePaths remote script normalized w
    = Ok (expectedPaths script normalized) w
  ∧ (∃ w1, run remote md5 stringify globSync script records w = Ok tt w1
           ∧ filePaths remote script normalized (started records w)
             = Ok (expectedPaths script normalized) (started records w)
           ∧ (script = dump_airtable ∨ script = part_000 →
              files w1 !! snapshotPath script
              = Some (stringify (snapshot script records))))
  ∧ (∀ w0 w1,
       run remote md5 stringify globSync dump_airtable records w0 = Ok tt w1 →
       ∃ w2, run remote md5 stringify globSync dump_airtable records w1
             = Ok tt w2
             ∧ filePaths remote dump_airtable normalized (started records w1)
               = Ok (expectedPaths dump_airtable normalized)
                    (started records w1)
             ∧ files w2 !! "airtable.json" = files w1 !! "airtable.json"
             ∧ files w1 !! "airtable.json"
               = Some (stringify (snapshot dump_airtable records))).
Proof.
  intros normalized. split_and!.
  - by apply downloadAttachment_present.
  - by apply filePaths_warm.
  - pose proof (filePaths_warm script normalized (started records w) Hwarm)
      as Hstage.
    destruct (run_complete script records w _ _ Hstage) as [w1 Hrun].
    exists w1. split_and!; [done | done |].
    intros Hscript. eapply run_snapshot; [| exact Hrun].
    by destruct Hscript as [-> | ->].
  - intros w0 w1 Hrun1.
    pose proof (run_leaves_warm records w0 w1 Hrun1) as Hwarm1.
    pose proof (filePaths_warm dump_airtable normalized (started records w1)
                  Hwarm1) as Hstage.
    destruct (run_complete dump_airtable records w1 _ _ Hstage) as [w2 Hrun2].
    assert (∀ v v', run remote md5 stringify globSync dump_airtable records v
                    = Ok tt v' →
                    files v' !! "airtable.json"
                    = Some (stringify (snapshot dump_airtable records)))
      as Hsnapshot.
    { intros v v' Hrun. by apply (run_snapshot dump_airtable records v v'). }
    exists w2. split_and!; [done | done | | by eapply Hsnapshot].
    by rewrite (Hsnapshot _ _ Hrun1), (Hsnapshot _ _ Hrun2).
Qed.

End Correctness.

(** * A concrete run

    One table, one remote host and one local directory on which the
    hypotheses of the theorems above hold. *)

Lemma example_globSync_listing (fs : gmap string string) (p : string) :
  p ∈ example_globSync fs → startsWith p "public/themes/attachments/" = true.
Proof.
  unfold example_globSync. rewrite list_elem_of_In, filter_In.
  by intros [_ [? _]%andb_true_iff].
Qed.

Lemma example_run :
  run example_remote example_md5 example_stringify example_globSync
      dump_airtable example_records example_world
  = Ok tt example_after.
Proof. vm_compute. reflexivity. Qed.

(** The first run downloads the four attachments and the archive, removes
    the stale file and keeps the complete record only. *)
Example example_after_files :
  files example_after !! "public/themes/attachments/old.png" = None
  ∧ files example_after !! "airtable.json" = Some "Aqua"
  ∧ files example_after !! "attachments/about-attorphan1-orphan.png"
    = Some "orphan bytes"
  ∧ files example_after !! "archives/Theme.sit" = Some "archive bytes"
  ∧ requests example_after
    = [ "https://dl.airtable.com/about"; "https://dl.airtable.com/sampler";
        "https://dl.airtable.com/showcase"; "https://dl.airtable.com/orphan";
        "https://files.macthemes.garden/Theme.sit.md5";
        "https://files.macthemes.garden/Theme.sit" ].
Proof. by vm_compute. Qed.

(** ** Instances of the theorems *)

(** C3, an instance: the listing [A.png, B.png, C.png] and a record that
    references [A.png] and [C.png]. *)
Lemma filesToDelete_difference_witness :
  ("" ∉ ["A.png"; "B.png"; "C.png"])
  ∧ ∃ w', forEach fs_remove ["B.png"]
            (mkWorld {[ "A.png" := "a"; "B.png" := "b"; "C.png" := "c" ]} [] [])
          = Ok tt w'
          ∧ files w' !! "A.png" = Some "a"
          ∧ files w' !! "B.png" = None
          ∧ files w' !! "C.png" = Some "c".
Proof.
  assert ("" ∉ ["A.png"; "B.png"; "C.png"]) as Hlisting.
  { apply (bool_decide_unpack _). vm_compute. exact I. }
  split; [exact Hlisting |].
  destruct (filesToDelete_difference
              ["A.png"; "B.png"; "C.png"]
              [ ResolvedRecord.mk (Some "Aqua") None (Some "1999") (Some "A.png")
                  (Some "C.png") None None (Some "A.png") (NewDate None)
                  (Some "Theme.sit") ]
              (mkWorld {[ "A.png" := "a"; "B.png" := "b"; "C.png" := "c" ]} [] [])
              Hlisting)
    as (_ & (w' & Hrun & Hfiles) & _).
  exists w'. split; [exact Hrun |].
  rewrite !Hfiles. vm_compute. auto.
Defined.

(** C6, an instance: after the first run the local archive is up to date. *)
Lemma downloadArchive_mirror_witness :
  ∃ w', downloadArchive example_remote example_md5 "Theme.sit" example_after
        = Ok tt w'
        ∧ files w' = files example_after
        ∧ requests w'
          = requests example_after
            ++ ["https://files.macthemes.garden/Theme.sit.md5"].
Proof.
  destruct (downloadArchive_mirror example_remote example_md5 "Theme.sit"
              "d41d8cd9  Theme.sit" example_after eq_refl)
    as (w' & Hrun & Hskip & _).
  exists w'. split; [exact Hrun |].
  apply (Hskip "archive bytes"); vm_compute; reflexivity.
Defined.

(** C4, an instance: the first run removes the one listed file. *)
Lemma reconciler_deletes_listing_witness :
  filesToDelete (example_globSync (files example_world))
                (allFiles (snapshot dump_airtable example_records))
  = ["public/themes/attachments/old.png"]
  ∧ files example_after !! "public/themes/attachments/old.png" = None.
Proof.
  destruct (reconciler_deletes_listing example_remote example_md5
              example_stringify example_globSync example_globSync_listing
              example_records example_world example_after example_run)
    as (_ & Hall & Hremoved).
  split.
  - rewrite Hall. vm_compute. reflexivity.
  - apply Hremoved. vm_compute. left.
Defined.

(** C8, an instance: the directory the first run leaves is warm, and a second
    run writes the same snapshot. *)
Lemma downloadAttachment_idempotent_witness :
  downloadAttachment example_remote dump_airtable (Some example_about) "about-"
                     example_after
  = Ok (Some (DownloadedFile.mk "attAbout1"
                "attachments/about-attabout1-about.png" "About.PNG"))
       example_after
  ∧ ∃ w2, run example_remote example_md5 example_stringify example_globSync
              dump_airtable example_records example_after
          = Ok tt w2
          ∧ files w2 !! "airtable.json" = files example_after !! "airtable.json".
Proof.
  assert (is_Some (files example_after
                   !! filepath_of dump_airtable "about-" example_about))
    as Hexists.
  { apply (bool_decide_unpack _). vm_compute. exact I. }
  assert (warm dump_airtable (normalizedRecords example_records)
               (files example_after)) as Hwarm.
  { apply (bool_decide_unpack _). vm_compute. exact I. }
  destruct (downloadAttachment_idempotent example_remote example_md5
              example_stringify example_globSync example_globSync_listing
              dump_airtable "about-" example_about example_records
              example_after Hexists Hwarm)
    as (Hcall & _ & _ & Hagain).
  split; [exact Hcall |].
  destruct (Hagain example_world example_after example_run)
    as (w2 & Hrun2 & _ & Hsame & _).
  exists w2. split; [exact Hrun2 | exact Hsame].
Defined.

(** ** The sibling script run twice *)

(** C8, counterexample: in the sibling script the reconciler removes the
    attachment of the record that the snapshot drops, so the second of two
    runs in a warm directory fetches that attachment again. *)
Lemma part_000_fetches_again :
  warm part_000 (normalizedRecords example_records) (files example_warm_world)
  ∧ run example_remote example_md5 example_stringify example_globSync
        part_000 example_records example_warm_world
    = Ok tt part_000_once
  ∧ requests part_000_once = []
  ∧ files part_000_once
    !! "public/themes/attachments/about-attorphan1-orphan.png" = None
  ∧ run example_remote example_md5 example_stringify example_globSync
        part_000 example_records part_000_once
    = Ok tt part_000_twice
  ∧ requests part_000_twice = ["https://dl.airtable.com/orphan"]
  ∧ requests part_000_twice ≠ requests part_000_once.
Proof.
  split; [apply (bool_decide_unpack _); vm_compute; exact I |].
  split_and!; try (vm_compute; reflexivity). by vm_compute.
Qed.

(** * Further properties of the scripts *)

Section Downloads.

Context (remote : string → option string).

(** ** [downloadAttachment] *)


(** ** The download stage *)

Lemma world_of_bind {A B} (m : M A) (k : A → M B) (w : World) :
  world_of ((m ≫= k) w)
  = match m w with
    | Ok a w1 => world_of (k a w1)
    | Throw _ w1 => w1
    end.
Proof. unfold mbind, M_bind, bind. by destruct (m w). Qed.

Lemma bind_Throw_inv {A B} (m : M A) (k : A → M B) (w w' : World) (e : Error) :
  (m ≫= k) w = Throw e w' →
  m w = Throw e w' ∨ ∃ a w1, m w = Ok a w1 ∧ k a w1 = Throw e w'.
Proof.
  unfold mbind, M_bind, bind. destruct (m w) as [a w1 | e1 w1].
  - intros Hk. right. by exists a, w1.
  - intros [= <- <-]. by left.
Qed.

Lemma console_grows_refl (w : World) : console_grows w w.
Proof. exists []. by rewrite app_nil_r. Qed.

Lemma console_grows_trans (w w1 w2 : World) :
  console_grows w w1 → console_grows w1 w2 → console_grows w w2.
Proof.
  intros [l1 H1] [l2 H2]. exists (l1 ++ l2). by rewrite H2, H1, app_assoc.
Qed.

Lemma downloaded_refl (script : Script) (targets : list (string * Attachment.t))
    (w : World) :
  downloaded script targets w w.
Proof.
  split_and!; [done | done | apply console_grows_refl |].
  exists []. rewrite app_nil_r. split_and!; [done | simpl; lia |].
  by intros u ?%elem_of_nil.
Qed.

Lemma downloaded_app (script : Script) (t1 t2 : list (string * Attachment.t))
    (w w1 w2 : World) :
  downloaded script t1 w w1 → downloaded script t2 w1 w2 →
  downloaded script (t1 ++ t2) w w2.
Proof.
  intros (Hkeep1 & Hnew1 & Hcon1 & new1 & Hreq1 & Hlen1 & Hurl1)
         (Hkeep2 & Hnew2 & Hcon2 & new2 & Hreq2 & Hlen2 & Hurl2).
  split_and!.
  - intros p Hp. rewrite Hkeep2; [by apply Hkeep1 |]. by rewrite Hkeep1.
  - intros p Hp.
    destruct (decide (files w1 !! p = files w !! p)) as [Heq | Hne].
    + destruct (Hnew2 p) as (pa & Hpa & ->); [congruence |].
      exists pa. split; [| done]. apply elem_of_app. by right.
    + destruct (Hnew1 p Hne) as (pa & Hpa & ->).
      exists pa. split; [| done]. apply elem_of_app. by left.
  - by eapply console_grows_trans.
  - exists (new1 ++ new2). split_and!.
    + by rewrite Hreq2, Hreq1, app_assoc.
    + rewrite !length_app. lia.
    + intros u [Hu | Hu]%elem_of_app.
      * destruct (Hurl1 u Hu) as (pa & Hpa & ->).
        exists pa. split; [| done]. apply elem_of_app. by left.
      * destruct (Hurl2 u Hu) as (pa & Hpa & ->).
        exists pa. split; [| done]. apply elem_of_app. by right.
Qed.

Lemma downloaded_bind {A B} (script : Script)
    (t1 t2 : list (string * Attachment.t)) (m : M A) (k : A → M B) (w : World) :
  downloaded script t1 w (world_of (m w)) →
  (∀ a w1, m w = Ok a w1 → downloaded script t2 w1 (world_of (k a w1))) →
  downloaded script (t1 ++ t2) w (world_of ((m ≫= k) w)).
Proof.
  intros Hm Hk. rewrite world_of_bind.
  destruct (m w) as [a w1 | e w1] eqn:Hmw; simpl in Hm.
  - eapply downloaded_app; [exact Hm | by apply Hk].
  - eapply downloaded_app; [exact Hm | apply downloaded_refl].
Qed.

Lemma downloadAttachment_downloaded (script : Script)
    (attachment : option Attachment.t) (prefix : string) (w : World) :
  downloaded script (option_list (pair prefix <$> attachment)) w
    (world_of (downloadAttachment remote script attachment prefix w)).
Proof.
  destruct attachment as [a|]; [| apply downloaded_refl].
  destruct (files w !! filepath_of script prefix a) as [content|] eqn:Hfile.
  - rewrite downloadAttachment_present by (rewrite Hfile; eauto).
    apply downloaded_refl.
  - rewrite downloadAttachment_absent by done.
    assert (∀ u, u ∈ [Attachment.url a] →
              ∃ pa, pa ∈ [(prefix, a)] ∧ u = Attachment.url pa.2) as Hurl.
    { intros u ->%list_elem_of_singleton. exists (prefix, a).
      split; [by left | done]. }
    destruct (remote (Attachment.url a)) as [buffer|]; simpl.
    + split_and!.
      * intros p Hp. apply lookup_insert_ne. intros <-.
        rewrite Hfile in Hp. by destruct Hp.
      * intros p Hp. exists (prefix, a). split; [by left |].
        destruct (decide (filepath_of script prefix a = p)) as [<- | Hne];
          [done |]. simpl in Hp. by rewrite lookup_insert_ne in Hp.
      * by eexists.
      * exists [Attachment.url a]. by split_and!.
    + split_and!; [done | done | exists []; simpl; by rewrite app_nil_r |].
      exists [Attachment.url a]. by split_and!.
Qed.

Lemma attachmentsOf_app (record : NormalizedRecord.t) :
  attachmentsOf record
  = option_list (pair "about-" <$> NormalizedRecord.about record)
    ++ option_list (pair "ksa-sampler-" <$> NormalizedRecord.ksaSampler record)
    ++ option_list (pair "showcase-" <$> NormalizedRecord.showcase record)
    ++ [].
Proof.
  unfold attachmentsOf.
  by destruct (NormalizedRecord.about record),
              (NormalizedRecord.ksaSampler record),
              (NormalizedRecord.showcase record).
Qed.

Lemma downloadRecord_downloaded (script : Script) (record : NormalizedRecord.t)
    (w : World) :
  downloaded script (attachmentsOf record) w
    (world_of (downloadRecord remote script record w)).
Proof.
  rewrite attachmentsOf_app. unfold downloadRecord.
  apply downloaded_bind; [apply downloadAttachment_downloaded |].
  intros r1 w1 _.
  apply downloaded_bind; [apply downloadAttachment_downloaded |].
  intros r2 w2 _.
  apply downloaded_bind; [apply downloadAttachment_downloaded |].
  intros r3 w3 _. apply downloaded_refl.
Qed.

Lemma filePaths_downloaded (script : Script) (records : list NormalizedRecord.t)
    (w : World) :
  downloaded script (targetsOf records) w
    (world_of (filePaths remote script records w)).
Proof.
  unfold filePaths, targetsOf. revert w.
  induction records as [|record records IH]; intros w; [apply downloaded_refl |].
  simpl. apply downloaded_bind; [apply downloadRecord_downloaded |].
  intros ps w1 _.
  rewrite <- (app_nil_r (flat_map attachmentsOf records)).
  apply downloaded_bind; [apply IH |].
  intros rest w2 _. apply downloaded_refl.
Qed.

Lemma targetsOf_length (records : list NormalizedRecord.t) :
  (List.length (targetsOf records) ≤ 3 * List.length records)%nat.
Proof.
  unfold targetsOf. induction records as [|record records IH]; [simpl; lia |].
  simpl. rewrite length_app.
  assert (List.length (attachmentsOf record) ≤ 3)%nat; [| lia].
  unfold attachmentsOf.
  destruct (NormalizedRecord.about record),
           (NormalizedRecord.ksaSampler record),
           (NormalizedRecord.showcase record); simpl; lia.
Qed.

Lemma elem_of_targetsOf (records : list NormalizedRecord.t)
    (pa : string * Attachment.t) :
  pa ∈ targetsOf records
  ↔ ∃ record, record ∈ records ∧ pa ∈ attachmentsOf record.
Proof.
  unfold targetsOf. rewrite list_elem_of_In, in_flat_map.
  by setoid_rewrite <- list_elem_of_In.
Qed.

Lemma warm_targets (script : Script) (records : list NormalizedRecord.t)
    (fs : gmap string string) :
  warm script records fs
  ↔ ∀ pa, pa ∈ targetsOf records →
          is_Some (fs !! filepath_of script pa.1 pa.2).
Proof.
  unfold warm. rewrite Forall_forall. setoid_rewrite Forall_forall. split.
  - intros Hwarm pa (record & Hrecord & Hpa)%elem_of_targetsOf.
    by apply (Hwarm record).
  - intros Hall record Hrecord pa Hpa. apply Hall, elem_of_targetsOf.
    by exists record.
Qed.

Lemma expectedPaths_targets (script : Script)
    (records : list NormalizedRecord.t) :
  expectedPaths script records
  = map (λ pa, descriptor script pa.1 pa.2) (targetsOf records).
Proof.
  unfold expectedPaths, targetsOf.
  induction records as [|record records IH]; [done |].
  simpl. rewrite map_app, <- IH. f_equal.
  unfold recordPaths, attachmentsOf.
  by destruct (NormalizedRecord.about record),
              (NormalizedRecord.ksaSampler record),
              (NormalizedRecord.showcase record).
Qed.

Lemma expectedPaths_target (script : Script) (records : list NormalizedRecord.t)
    (d : DownloadedFile.t) :
  d ∈ expectedPaths script records
  ↔ ∃ pa, pa ∈ targetsOf records ∧ d = descriptor script pa.1 pa.2.
Proof.
  rewrite expectedPaths_targets, list_elem_of_fmap.
  split; intros (pa & H1 & H2); by exists pa.
Qed.

(** X3.  The download stage makes at most three requests for each record,
    however it ends, and every request it makes is the URL of an attachment
    of one of the records. *)
Theorem filePaths_requests (script : Script) (records : list NormalizedRecord.t)
    (w : World) :
  let w1 := world_of (filePaths remote script records w) in
  ∃ new, requests w1 = requests w ++ new
         ∧ (List.length new ≤ 3 * List.length records)%nat
         ∧ ∀ u, u ∈ new →
                ∃ record prefix a,
                  record ∈ records ∧ (prefix, a) ∈ attachmentsOf record
                  ∧ u = Attachment.url a.
Proof.
  destruct (filePaths_downloaded script records w)
    as (_ & _ & _ & new & Hreq & Hlen & Hurl).
  exists new. split_and!; [done | |].
  - pose proof (targetsOf_length records). lia.
  - intros u Hu. destruct (Hurl u Hu) as ([prefix a] & Hpa & ->).
    apply elem_of_targetsOf in Hpa as (record & Hrecord & Hpa).
    by exists record, prefix, a.
Qed.

End Downloads.

(** ** The resolver, the two filters and the list of archives *)

Lemma findFilepath_absent (paths : list DownloadedFile.t) :
  findFilepath paths None = None.
Proof.
  unfold findFilepath.
  induction paths as [|d paths IH]; [done | by simpl].
Qed.

(** In a list without two descriptors of the same id, the join by id finds
    the descriptor of the attachment itself. *)
Lemma findFilepath_own (script : Script) (paths : list DownloadedFile.t)
    (prefix : string) (a : Attachment.t) :
  NoDup (map DownloadedFile.id paths) →
  descriptor script prefix a ∈ paths →
  findFilepath paths (Some a) = Some (filepath_of script prefix a).
Proof.
  unfold findFilepath. simpl.
  induction paths as [|d paths IH]; intros Hids Hin;
    [by apply elem_of_nil in Hin |].
  simpl in *. apply NoDup_cons in Hids as [Hfresh Hids].
  case_bool_decide as Hid.
  - apply elem_of_cons in Hin as [<- | Hin]; [done |]. exfalso.
    apply Hfresh. injection Hid as ->.
    change (Attachment.id a)
      with (DownloadedFile.id (descriptor script prefix a)).
    by apply list_elem_of_fmap_2.
  - apply elem_of_cons in Hin as [<- | Hin]; [done |]. by apply IH.
Qed.

Lemma attachmentsOf_roles (record : NormalizedRecord.t) (prefix : string)
    (a : Attachment.t) :
  (prefix, a) ∈ attachmentsOf record
  ↔ (prefix = "about-" ∧ NormalizedRecord.about record = Some a)
    ∨ (prefix = "ksa-sampler-" ∧ NormalizedRecord.ksaSampler record = Some a)
    ∨ (prefix = "showcase-" ∧ NormalizedRecord.showcase record = Some a).
Proof.
  rewrite attachmentsOf_app, !elem_of_app.
  destruct (NormalizedRecord.about record),
           (NormalizedRecord.ksaSampler record),
           (NormalizedRecord.showcase record); simpl;
    rewrite ?elem_of_cons, ?elem_of_nil; split;
    intros H; repeat destruct H as [H | H]; try done;
    try (injection H as <- <-); try destruct H as [-> [= <-]]; tauto.
Qed.

(** X5.  When no two attachments of the table share an id, a resolved record
    references, for each of its three roles, the very path at which
    [downloadAttachment] stored the attachment of that role; a role without
    attachment resolves to an absent path. *)
Theorem resolve_own_paths (script : Script) (records : list NormalizedRecord.t)
    (record : NormalizedRecord.t)
    (Hrecord : record ∈ records)
    (Hids : NoDup (map DownloadedFile.id (expectedPaths script records))) :
  let f := resolve (expectedPaths script records) record in
  ResolvedRecord.about f
  = filepath_of script "about-" <$> NormalizedRecord.about record
  ∧ ResolvedRecord.ksaSampler f
    = filepath_of script "ksa-sampler-" <$> NormalizedRecord.ksaSampler record
  ∧ ResolvedRecord.showcase f
    = filepath_of script "showcase-" <$> NormalizedRecord.showcase record.
Proof.
  assert (∀ prefix a, (prefix, a) ∈ attachmentsOf record →
            findFilepath (expectedPaths script records) (Some a)
            = Some (filepath_of script prefix a)) as Hown.
  { intros prefix a Hpa. apply findFilepath_own; [done |].
    apply expectedPaths_target. exists (prefix, a). split; [| done].
    apply elem_of_targetsOf. by exists record. }
  simpl. split_and!.
  - destruct (NormalizedRecord.about record) as [a|] eqn:Ha;
      [| apply findFilepath_absent].
    apply Hown, attachmentsOf_roles. auto.
  - destruct (NormalizedRecord.ksaSampler record) as [a|] eqn:Ha;
      [| apply findFilepath_absent].
    apply Hown, attachmentsOf_roles. auto.
  - destruct (NormalizedRecord.showcase record) as [a|] eqn:Ha;
      [| apply findFilepath_absent].
    apply Hown, attachmentsOf_roles. auto.
Qed.

(** X6.  The join is by id alone, whatever the role: when the [about] and
    the [showcase] attachments of the first record carry the same id, the
    resolved [showcase] is the path of the [about] file, not the path at
    which the [showcase] file was stored. *)
Theorem resolve_shared_id (script : Script) (record : NormalizedRecord.t)
    (rest : list NormalizedRecord.t) (a b : Attachment.t)
    (Habout : NormalizedRecord.about record = Some a)
    (Hshowcase : NormalizedRecord.showcase record = Some b)
    (Hid : Attachment.id a = Attachment.id b) :
  let f := resolve (expectedPaths script (record :: rest)) record in
  ResolvedRecord.showcase f = Some (filepath_of script "about-" a)
  ∧ ResolvedRecord.showcase f ≠ Some (filepath_of script "showcase-" b).
Proof.
  assert (ResolvedRecord.showcase
            (resolve (expectedPaths script (record :: rest)) record)
          = Some (filepath_of script "about-" a)) as Hfound.
  { simpl. rewrite Hshowcase. unfold findFilepath, recordPaths.
    rewrite Habout. simpl. by rewrite Hid, bool_decide_eq_true_2. }
  simpl in *. split; [done |]. rewrite Hfound. intros [= Hsame].
  unfold filepath_of in Hsame. apply (inj _) in Hsame.
  unfold filename_of in Hsame. rewrite !toLowerCase_app in Hsame.
  discriminate Hsame.
Qed.

(** X7.  The first filter of the resolver never drops a record: a resolved
    record always has a truthy value, its [created] date.  It has at most
    nine, since [archiveFile] is always [undefined], and a record that
    passes the validity test has at least seven. *)
Theorem nonEmpty_keeps_all (resolved : list ResolvedRecord.t) :
  List.filter nonEmpty resolved = resolved
  ∧ (∀ f, (1 ≤ truthyValues f ≤ 9)%nat)
  ∧ (∀ f, valid f = true → (7 ≤ truthyValues f)%nat).
Proof.
  split_and!.
  - apply filter_all. intros f _. apply nonEmpty_always.
  - intros f. unfold truthyValues.
    destruct (ResolvedRecord.archiveFile f) as [[]|].
    destruct (truthy (ResolvedRecord.name f)),
             (truthy (ResolvedRecord.authors f)),
             (truthy (ResolvedRecord.year f)),
             (truthy (ResolvedRecord.about f)),
             (truthy (ResolvedRecord.showcase f)),
             (truthy (ResolvedRecord.archiveFileName2 f)),
             (truthy (ResolvedRecord.ksaSampler f)),
             (truthy (ResolvedRecord.archiveFilename f)); simpl; lia.
  - intros f. unfold valid, truthyValues.
    destruct (ResolvedRecord.archiveFile f) as [[]|].
    destruct (truthy (ResolvedRecord.name f)),
             (truthy (ResolvedRecord.authors f)),
             (truthy (ResolvedRecord.year f)),
             (truthy (ResolvedRecord.about f)),
             (truthy (ResolvedRecord.showcase f)),
             (truthy (ResolvedRecord.archiveFileName2 f)),
             (truthy (ResolvedRecord.ksaSampler f)),
             (truthy (ResolvedRecord.archiveFilename f)); simpl;
      intros; try discriminate; lia.
Qed.

Lemma elem_of_compact (l : list (option string)) (x : string) :
  x ∈ compact l ↔ Some x ∈ l ∧ x ≠ "".
Proof.
  unfold compact. rewrite list_elem_of_omap. split.
  - intros (o & Ho & Hx). destruct (truthy o) eqn:Htruthy; [| done].
    subst o. split; [done |]. intros ->. done.
  - intros [Hin Hx]. exists (Some x). split; [done |].
    simpl. by destruct (String.eqb_spec x "").
Qed.

Lemma elem_of_uniq_from (seen l : list string) (x : string) :
  x ∈ uniq_from seen l ↔ x ∈ l ∧ x ∉ seen.
Proof.
  revert seen. induction l as [|y l IH]; intros seen; simpl.
  - rewrite elem_of_nil. tauto.
  - case_bool_decide as Hseen.
    + rewrite IH, elem_of_cons. split; [tauto |].
      intros [[-> | Hin] Hx]; [done | tauto].
    + rewrite !elem_of_cons, IH, elem_of_cons.
      destruct (decide (x = y)) as [-> | Hne]; tauto.
Qed.

Lemma NoDup_uniq_from (seen l : list string) : NoDup (uniq_from seen l).
Proof.
  revert seen. induction l as [|y l IH]; intros seen; simpl; [constructor |].
  case_bool_decide as Hseen; [apply IH |].
  apply NoDup_cons. split; [| apply IH].
  rewrite elem_of_uniq_from, elem_of_cons. tauto.
Qed.

(** X8.  The archives to mirror are the distinct non-empty archive names of
    the resolved records, each listed once: a record of the snapshot always
    has its archive among them. *)
Theorem archives_spec (resolved : list ResolvedRecord.t) :
  NoDup (archives resolved)
  ∧ (∀ name, name ∈ archives resolved
             ↔ name ≠ ""
               ∧ ∃ r, r ∈ resolved ∧ ResolvedRecord.archiveFilename r = Some name)
  ∧ (∀ script records r,
       r ∈ snapshot script records →
       ∃ name, ResolvedRecord.archiveFilename r = Some name
               ∧ name ∈ archives (snapshot script records)).
Proof.
  assert (∀ l name, name ∈ archives l
            ↔ name ≠ ""
              ∧ ∃ r, r ∈ l ∧ ResolvedRecord.archiveFilename r = Some name)
    as Hmem.
  { intros l name. unfold archives, uniq.
    rewrite elem_of_uniq_from, elem_of_compact, list_elem_of_fmap.
    rewrite elem_of_nil. split.
    - intros [[(r & Hr & Hin) Hname] _]. split; [done |]. by exists r.
    - intros [Hname (r & Hin & Hr)]. split_and!; [by exists r | done | tauto]. }
  split_and!; [apply NoDup_uniq_from | apply Hmem |].
  intros script records r Hr.
  assert (valid r = true) as Hvalid.
  { unfold snapshot in Hr. rewrite normalizedRecordsWithFilePaths_filter in Hr.
    apply list_elem_of_In, filter_In in Hr. tauto. }
  apply valid_spec in Hvalid as (_ & _ & _ & _ & _ & Harchive).
  destruct (ResolvedRecord.archiveFilename r) as [name|] eqn:Hname; [| done].
  exists name. split; [done |]. apply Hmem. split; [| by exists r].
  intros ->. done.
Qed.

(** ** The checksum of a manifest *)

Lemma split_head (sep : ascii) (s : string) :
  ∃ h t, split sep s = h :: t
         ∧ all_chars (λ c, negb (Ascii.eqb c sep)) h = true.
Proof.
  induction s as [|c s (h & t & Hsplit & Hh)]; simpl; [by exists "", [] |].
  destruct (Ascii.eqb c sep) eqn:Hc; [by exists "", (split sep s) |].
  rewrite Hsplit. exists (String c h), t. split; [done |].
  simpl. by rewrite Hc, Hh.
Qed.

Lemma all_chars_trimStart (P : ascii → bool) (s : string) :
  all_chars P s = true → all_chars P (trimStart s) = true.
Proof.
  induction s as [|c s IH]; simpl; [done |].
  intros [Hc Hs]%andb_true_iff.
  destruct (is_space c); [by apply IH |]. simpl. by rewrite Hc, Hs.
Qed.

Lemma all_chars_trimEnd (P : ascii → bool) (s : string) :
  all_chars P s = true → all_chars P (trimEnd s) = true.
Proof.
  induction s as [|c s IH]; simpl; [done |].
  intros [Hc Hs]%andb_true_iff. specialize (IH Hs).
  destruct (trimEnd s) as [|d r].
  - destruct (is_space c); [done |]. simpl. by rewrite Hc.
  - simpl in *. by rewrite Hc, IH.
Qed.

Lemma trimEnd_idempotent (s : string) : trimEnd (trimEnd s) = trimEnd s.
Proof.
  induction s as [|c s IH]; simpl; [done |].
  destruct (trimEnd s) as [|d r] eqn:Hend.
  - destruct (is_space c) eqn:Hc; [done |]. simpl. by rewrite Hc.
  - change (trimEnd (String c (String d r)))
      with (match trimEnd (String d r) with
            | EmptyString =>
                if is_space c then EmptyString else String c EmptyString
            | r' => String c r'
            end).
    by rewrite IH.
Qed.

Lemma trimEnd_keeps_head (c : ascii) (s : string) :
  is_space c = false → ∃ r, trimEnd (String c s) = String c r.
Proof.
  intros Hc. simpl. destruct (trimEnd s) as [|d r]; [| by eexists].
  rewrite Hc. by eexists.
Qed.

Lemma trimStart_head (s : string) :
  trimStart s = "" ∨ ∃ c r, trimStart s = String c r ∧ is_space c = false.
Proof.
  induction s as [|c s IH]; simpl; [by left |].
  destruct (is_space c) eqn:Hc; [done |]. right. by exists c, s.
Qed.

Lemma trim_idempotent (s : string) : trim (trim s) = trim s.
Proof.
  unfold trim. destruct (trimStart_head s) as [-> | (c & r & -> & Hc)]; [done |].
  destruct (trimEnd_keeps_head c r Hc) as [r' Hr'].
  assert (trimStart (trimEnd (String c r)) = trimEnd (String c r)) as ->.
  { rewrite Hr'. simpl. by rewrite Hc. }
  apply trimEnd_idempotent.
Qed.

(** X9.  The checksum read off a manifest is always defined, whatever the
    manifest holds: the optional chaining never yields [undefined].  It
    contains no space, carries no white space at either end, and is the
    checksum of itself taken as a manifest. *)
Theorem md5Remote_normal_form (md5FileContent : string) :
  ∃ checksum,
    md5Remote md5FileContent = Some checksum
    ∧ all_chars (λ c, negb (Ascii.eqb c " ")) checksum = true
    ∧ trim checksum = checksum
    ∧ md5Remote checksum = Some checksum.
Proof.
  unfold md5Remote.
  destruct (split_head " " md5FileContent) as (h & t & Hsplit & Hh).
  rewrite Hsplit. simpl. exists (trim h).
  assert (all_chars (λ c, negb (Ascii.eqb c " ")) (trim h) = true) as Htrim.
  { by apply all_chars_trimEnd, all_chars_trimStart. }
  split_and!; [done | done | apply trim_idempotent |].
  rewrite (split_without_separator " " (trim h) Htrim). simpl.
  by rewrite trim_idempotent.
Qed.

(** ** The archive mirror, call after call and as a stage *)

Section Mirror.

Context (remote : string → option string) (md5 : string → string).

Lemma manifest_path_ne (filepath : string) : filepath +:+ ".md5" ≠ filepath.
Proof.
  intros Heq. apply (f_equal String.length) in Heq.
  rewrite length_append in Heq. simpl in Heq. lia.
Qed.




(** What one mirror operation may change, in the form the stage needs. *)
Lemma downloadArchive_step (archiveFilename : string) (w : World) :
  ∃ w1 new,
    downloadArchive remote md5 archiveFilename w = Ok tt w1
    ∧ (∀ p, files w1 !! p ≠ files w !! p →
            p = "archives/" +:+ archiveFilename
            ∨ p = ("archives/" +:+ archiveFilename) +:+ ".md5")
    ∧ requests w1 = requests w ++ new
    ∧ (1 ≤ List.length new ≤ 2)%nat
    ∧ head new = Some (files_host +:+ archiveFilename +:+ ".md5")
    ∧ ∀ u, u ∈ new →
           u = files_host +:+ archiveFilename
           ∨ u = files_host +:+ archiveFilename +:+ ".md5".
Proof.
  pose proof (downloadArchive_cases remote md5 archiveFilename w) as Hcases.
  cbv zeta in Hcases. rewrite Hcases. clear Hcases.
  destruct (remote (files_host +:+ archiveFilename +:+ ".md5")) as [manifest|].
  - destruct (from_option _ _ _);
      [| destruct (remote (files_host +:+ archiveFilename)) as [response|]].
    + eexists _, [_]. split; [reflexivity |]. simpl.
      split_and!; [done | done | lia | lia | done |].
      intros u ->%list_elem_of_singleton. by right.
    + eexists _, [_; _]. split; [reflexivity |]. simpl.
      split_and!; [| by rewrite <- app_assoc | lia | lia | done |].
      * intros p Hp.
        destruct (decide (p = ("archives/" +:+ archiveFilename) +:+ ".md5"))
          as [-> | Hne1]; [by right |].
        destruct (decide (p = "archives/" +:+ archiveFilename))
          as [-> | Hne2]; [by left |].
        by rewrite !lookup_insert_ne in Hp.
      * intros u. rewrite !elem_of_cons, elem_of_nil. tauto.
    + eexists _, [_; _]. split; [reflexivity |]. simpl.
      split_and!; [done | by rewrite <- app_assoc | lia | lia | done |].
      intros u. rewrite !elem_of_cons, elem_of_nil. tauto.
  - eexists _, [_]. split; [reflexivity |]. simpl.
    split_and!; [done | done | lia | lia | done |].
    intros u ->%list_elem_of_singleton. by right.
Qed.

(** X13.  The mirror stage always returns.  It makes one or two requests
    for each archive of its list, each for the archive or for its manifest
    on the files host, and a path whose content it changes is the local path
    of one of the archives or of its manifest. *)
Theorem mirror_stage_confined (names : list string) (w : World) :
  ∃ w1 new,
    mapLimit (downloadArchive remote md5) names w = Ok tt w1
    ∧ (∀ p, files w1 !! p ≠ files w !! p →
            ∃ name, name ∈ names
                    ∧ (p = "archives/" +:+ name
                       ∨ p = ("archives/" +:+ name) +:+ ".md5"))
    ∧ requests w1 = requests w ++ new
    ∧ (List.length names ≤ List.length new ≤ 2 * List.length names)%nat
    ∧ ∀ u, u ∈ new →
           ∃ name, name ∈ names
                   ∧ (u = files_host +:+ name
                      ∨ u = files_host +:+ name +:+ ".md5").
Proof.
  unfold mapLimit. revert w.
  induction names as [|name names IH]; intros w.
  - exists w, []. simpl. split_and!; [done | done | by rewrite app_nil_r | lia | lia |].
    by intros u ?%elem_of_nil.
  - destruct (downloadArchive_step name w)
      as (w1 & new1 & Hrun1 & Hfiles1 & Hreq1 & Hlen1 & _ & Hurl1).
    destruct (IH w1) as (w2 & new2 & Hrun2 & Hfiles2 & Hreq2 & Hlen2 & Hurl2).
    exists w2, (new1 ++ new2). simpl. erewrite bind_Ok by exact Hrun1.
    split_and!; [done | | by rewrite Hreq2, Hreq1, app_assoc | | |].
    + intros p Hp.
      destruct (decide (files w1 !! p = files w !! p)) as [Heq | Hne].
      * destruct (Hfiles2 p) as (name' & Hin & Hpath); [congruence |].
        exists name'. split; [by right | done].
      * exists name. split; [by left | by apply Hfiles1].
    + rewrite length_app. lia.
    + rewrite length_app. lia.
    + intros u [Hu | Hu]%elem_of_app.
      * exists name. split; [by left | by apply Hurl1].
      * destruct (Hurl2 u Hu) as (name' & Hin & Hpath).
        exists name'. split; [by right | done].
Qed.

End Mirror.

Lemma startsWith_app (d x : string) : startsWith (d +:+ x) d = true.
Proof.
  induction d as [|c d IH]; [done |].
  change (String c d +:+ x) with (String c (d +:+ x)). simpl.
  by rewrite Ascii.eqb_refl, IH.
Qed.

Lemma elem_of_allFiles (resolved : list ResolvedRecord.t) (o : option string) :
  o ∈ allFiles resolved
  ↔ ∃ r, r ∈ resolved
         ∧ (o = ResolvedRecord.about r ∨ o = ResolvedRecord.ksaSampler r
            ∨ o = ResolvedRecord.showcase r).
Proof.
  unfold allFiles. rewrite list_elem_of_In, in_flat_map. split.
  - intros (r & Hr & Ho). exists r. rewrite list_elem_of_In.
    split; [done |]. simpl in Ho. intuition congruence.
  - intros (r & Hr & Ho). exists r. rewrite <- list_elem_of_In.
    split; [done |]. simpl. intuition congruence.
Qed.

Lemma listed_path_part_000 (p : string) :
  startsWith p "public/themes/attachments/" = true →
  p ≠ "" ∧ p ≠ snapshotPath part_000.
Proof.
  destruct p as [|c p]; simpl; [done |].
  destruct (Ascii.eqb_spec c "p") as [-> |]; [| done]. intros _.
  by split.
Qed.

(** ** The scripts as a whole *)

Section Scripts.

Context (remote : string → option string) (md5 : string → string).
Context (stringify : list ResolvedRecord.t → string).
Context (globSync : gmap string string → list string).

(** X16.  Every path that a record of the snapshot references exists when
    the script returns: the file was on disk or has been downloaded, the
    reconciler spares it, and neither the snapshot writer nor the mirror
    removes a file. *)
Theorem snapshot_files_exist (script : Script) (records : list Fields.t)
    (w w' : World)
    (Hrun : run remote md5 stringify globSync script records w = Ok tt w') :
  ∀ r p,
    r ∈ snapshot script records →
    ResolvedRecord.about r = Some p ∨ ResolvedRecord.ksaSampler r = Some p
    ∨ ResolvedRecord.showcase r = Some p →
    is_Some (files w' !! p).
Proof.
  intros r p Hr Hp.
  assert (Some p ∈ allFiles (snapshot script records)) as Hreferenced.
  { apply elem_of_allFiles. exists r. split; [done |]. intuition congruence. }
  apply run_inv in Hrun as (w1 & w2 & Hstage & Hremove & Hmirror).
  apply (filePaths_inv remote id) in Hstage as (_ & _ & Hwarm).
  assert (is_Some (files w1 !! p)) as Hw1.
  { pose proof Hreferenced as (d & Hd & <-)%allFiles_elem.
    apply expectedPaths_target in Hd as (pa & Hpa & ->).
    by apply (proj1 (warm_targets _ _ _) Hwarm pa). }
  destruct (forEach_fs_remove
              (filesToDelete (globSync (files w))
                 (allFiles (snapshot script records))) w1)
    as (w2' & Hremove' & Hfiles & _).
  rewrite Hremove in Hremove'. injection Hremove' as <-.
  assert (is_Some (files w2 !! p)) as Hw2.
  { rewrite Hfiles. rewrite bool_decide_eq_false_2; [done |].
    intros Hdoomed%elem_of_filesToDelete. tauto. }
  assert (is_Some (files (written stringify script records w2) !! p)) as Hw3.
  { simpl. eapply is_Some_mono; [| exact Hw2]. apply dom_insert_subseteq. }
  destruct (mirrorsArchives script).
  - destruct (mapLimit_downloadArchive_frame remote md5
                (archives (snapshot script records))
                (written stringify script records w2))
      as (w'' & Hrun' & Hdom & _).
    rewrite Hrun' in Hmirror. injection Hmirror as <-.
    by eapply is_Some_mono.
  - by injection Hmirror as <-.
Qed.

(** What the pattern [public/themes/attachments/*.png] guarantees of a
    listed path. *)
Hypothesis globSync_listing : ∀ fs p,
  p ∈ globSync fs → startsWith p "public/themes/attachments/" = true.

(** X17.  The reconciler of the sibling script, which lists the directory
    its attachments are written to.  When the script returns, a listed file
    that the snapshot references is in place, with the content it had if it
    existed; a listed file that the snapshot does not reference is gone; a
    file that was not listed is untouched, the snapshot apart; and a file
    that appears is the snapshot or the file of an attachment of a record. *)
Theorem part_000_reconciles (records : list Fields.t) (w w' : World)
    (Hrun : run remote md5 stringify globSync part_000 records w = Ok tt w') :
  let listing := globSync (files w) in
  let referenced := allFiles (snapshot part_000 records) in
  (∀ p, p ∈ listing → Some p ∈ referenced →
        is_Some (files w' !! p)
        ∧ (is_Some (files w !! p) → files w' !! p = files w !! p))
  ∧ (∀ p, p ∈ listing → Some p ∉ referenced → files w' !! p = None)
  ∧ (∀ p, p ∉ listing → is_Some (files w !! p) →
          p ≠ snapshotPath part_000 → files w' !! p = files w !! p)
  ∧ (∀ p, files w !! p = None → is_Some (files w' !! p) →
          p = snapshotPath part_000
          ∨ ∃ record prefix a,
              record ∈ normalizedRecords records
              ∧ (prefix, a) ∈ attachmentsOf record
              ∧ p = filepath_of part_000 prefix a).
Proof.
  intros listing referenced.
  apply run_inv in Hrun as (w1 & w2 & Hstage & Hremove & Hmirror).
  simpl in Hmirror. injection Hmirror as <-.
  pose proof (filePaths_downloaded remote part_000 (normalizedRecords records)
                (started records w)) as (Hkeep & Hnew & _).
  rewrite Hstage in Hkeep, Hnew. simpl in Hkeep, Hnew.
  apply (filePaths_inv remote id) in Hstage as (_ & _ & Hwarm).
  destruct (forEach_fs_remove (filesToDelete listing referenced) w1)
    as (w2' & Hremove' & Hfiles & _).
  fold listing referenced in Hremove.
  rewrite Hremove in Hremove'. injection Hremove' as <-.
  assert (∀ p, p ≠ snapshotPath part_000 →
               files (written stringify part_000 records w2) !! p
               = if bool_decide (p ∈ filesToDelete listing referenced)
                 then None else files w1 !! p) as Hafter.
  { intros p Hp. simpl. rewrite lookup_insert_ne by done. apply Hfiles. }
  split_and!.
  - intros p Hlisted Hreferenced.
    pose proof Hlisted as [_ Hp]%globSync_listing%listed_path_part_000.
    rewrite (Hafter p Hp).
    rewrite bool_decide_eq_false_2
      by (intros Hdoomed%elem_of_filesToDelete; tauto).
    split; [| by apply Hkeep].
    pose proof Hreferenced as (d & Hd & <-)%allFiles_elem.
    apply expectedPaths_target in Hd as (pa & Hpa & ->).
    by apply (proj1 (warm_targets _ _ _) Hwarm pa).
  - intros p Hlisted Hunreferenced.
    pose proof Hlisted as [Hne Hp]%globSync_listing%listed_path_part_000.
    rewrite (Hafter p Hp).
    rewrite bool_decide_eq_true_2; [done |].
    apply elem_of_filesToDelete. by split_and!.
  - intros p Hunlisted Hexists Hp.
    rewrite (Hafter p Hp).
    rewrite bool_decide_eq_false_2
      by (intros Hdoomed%elem_of_filesToDelete; tauto).
    by apply Hkeep.
  - intros p Habsent Hpresent.
    destruct (decide (p = snapshotPath part_000)) as [-> | Hp]; [by left |].
    right. rewrite (Hafter p Hp) in Hpresent.
    case_bool_decide; [by destruct Hpresent |].
    destruct (Hnew p) as ([prefix a] & Hpa & ->).
    { rewrite Habsent. intros Heq. rewrite Heq in Hpresent.
      by destruct Hpresent. }
    apply elem_of_targetsOf in Hpa as (record & Hrecord & Hpa).
    by exists record, prefix, a.
Qed.

End Scripts.

(** * The scripts on a file system whose calls may reject *)

(** On the file system that raises no error the two embeddings of the
    scripts are the same. *)
Lemma reliable_run (remote : string → option string) (md5 : string → string)
    (stringify : list ResolvedRecord.t → string)
    (globSync : gmap string string → list string)
    (script : Script) (records : list Fields.t) (w : World) :
  Faulty.run remote md5 stringify globSync reliable script records w
  = run remote md5 stringify globSync script records w
  ∧ (∀ attachment prefix,
       Faulty.downloadAttachment remote reliable script attachment prefix w
       = downloadAttachment remote script attachment prefix w)
  ∧ (∀ archiveFilename,
       Faulty.downloadArchive remote md5 reliable archiveFilename w
       = downloadArchive remote md5 archiveFilename w).
Proof. split_and!; reflexivity. Qed.

Section FaultyDownloads.

Context (remote : string → option string) (disk : Disk).

(** ** [downloadAttachment] *)

Lemma faulty_downloadAttachment_present (script : Script)
    (attachment : Attachment.t) (prefix : string) (w : World) :
  is_Some (files w !! filepath_of script prefix attachment) →
  Faulty.downloadAttachment remote disk script (Some attachment) prefix w
  = Ok (Some (descriptor script prefix attachment)) w.
Proof.
  intros Hfile. unfold Faulty.downloadAttachment.
  erewrite bind_Ok; [| reflexivity].
  by rewrite bool_decide_eq_true_2.
Qed.

(** The three ways a download ends when the file is not on disk. *)
Lemma faulty_downloadAttachment_absent (script : Script)
    (attachment : Attachment.t) (prefix : string) (w : World) :
  files w !! filepath_of script prefix attachment = None →
  Faulty.downloadAttachment remote disk script (Some attachment) prefix w
  = match remote (Attachment.url attachment) with
    | None =>
        Throw (FetchFailed (Attachment.url attachment))
              (mkWorld (files w) (requests w ++ [Attachment.url attachment])
                       (console w))
    | Some buffer =>
        let filepath := filepath_of script prefix attachment in
        let printed :=
          mkWorld (files w) (requests w ++ [Attachment.url attachment])
                  (console w ++ [Log ("Downloaded " +:+
                                      filename_of prefix attachment)]) in
        match writes disk printed filepath buffer with
        | Written =>
            Ok (Some (descriptor script prefix attachment))
               (mkWorld (<[filepath := buffer]> (files w)) (requests printed)
                        (console printed))
        | WriteRejected remains =>
            Throw (WriteFailed filepath)
                  (mkWorld (from_option (λ partial, <[filepath := partial]> (files w))
                                        (files w) remains)
                           (requests printed) (console printed))
        end
    end.
Proof.
  intros Hfile. unfold Faulty.downloadAttachment.
  erewrite bind_Ok; [| reflexivity].
  rewrite bool_decide_eq_false_2 by (rewrite Hfile; by intros [? ?]).
  unfold mbind, M_bind, bind, fetch, console_log, Faulty.fs_writeFile, ret.
  destruct (remote (Attachment.url attachment)) as [buffer|]; [| done].
  simpl. by destruct (writes disk _ _ buffer).
Qed.

(** X1.  Two calls in a row fetch at most once: whenever
    [downloadAttachment] returns, calling it again in the world it left
    returns the same result and changes nothing.  It throws only for an
    attachment whose file is not on disk, after one request: either the
    fetch was rejected, and then no file changed and nothing was printed;
    or the host served the attachment and the write of the file was
    rejected, after the line [Downloaded <filename>] was printed, and then
    no other file changed. *)
Theorem downloadAttachment_twice (script : Script)
    (attachment : option Attachment.t) (prefix : string) (w : World) :
  match Faulty.downloadAttachment remote disk script attachment prefix w with
  | Ok r w1 =>
      Faulty.downloadAttachment remote disk script attachment prefix w1 = Ok r w1
  | Throw e w1 =>
      ∃ a, attachment = Some a
           ∧ files w !! filepath_of script prefix a = None
           ∧ requests w1 = requests w ++ [Attachment.url a]
           ∧ ((e = FetchFailed (Attachment.url a)
               ∧ remote (Attachment.url a) = None
               ∧ files w1 = files w
               ∧ console w1 = console w)
              ∨ (e = WriteFailed (filepath_of script prefix a)
                 ∧ is_Some (remote (Attachment.url a))
                 ∧ console w1
                   = console w ++ [Log ("Downloaded " +:+ filename_of prefix a)]
                 ∧ ∀ p, p ≠ filepath_of script prefix a →
                        files w1 !! p = files w !! p))
  end.
Proof.
  destruct attachment as [a|]; [| reflexivity].
  destruct (files w !! filepath_of script prefix a) as [content|] eqn:Hfile.
  - rewrite faulty_downloadAttachment_present by (rewrite Hfile; eauto).
    apply faulty_downloadAttachment_present. rewrite Hfile. eauto.
  - rewrite faulty_downloadAttachment_absent by done.
    destruct (remote (Attachment.url a)) as [buffer|] eqn:Hremote.
    + cbv zeta. destruct (writes disk _ _ buffer) as [|remains].
      * apply faulty_downloadAttachment_present. simpl.
        rewrite lookup_insert_eq. eauto.
      * exists a. split_and!; [done | done | done |]. right.
        split_and!; [done | by eexists | done |].
        intros p Hp. simpl. destruct remains as [partial|]; simpl; [| done].
        by rewrite lookup_insert_ne.
    + exists a. split_and!; [done | done | done |]. left. by split_and!.
Qed.

(** ** The download stage *)

Lemma faulty_downloadAttachment_downloaded (script : Script)
    (attachment : option Attachment.t) (prefix : string) (w : World) :
  downloaded script (option_list (pair prefix <$> attachment)) w
    (world_of (Faulty.downloadAttachment remote disk script attachment prefix w)).
Proof.
  destruct attachment as [a|]; [| apply downloaded_refl].
  destruct (files w !! filepath_of script prefix a) as [content|] eqn:Hfile.
  - rewrite faulty_downloadAttachment_present by (rewrite Hfile; eauto).
    apply downloaded_refl.
  - rewrite faulty_downloadAttachment_absent by done.
    assert (∀ u, u ∈ [Attachment.url a] →
              ∃ pa, pa ∈ [(prefix, a)] ∧ u = Attachment.url pa.2) as Hurl.
    { intros u ->%list_elem_of_singleton. exists (prefix, a).
      split; [by left | done]. }
    assert (∀ (fs : gmap string string) p, fs !! p ≠ files w !! p →
              (∀ q, q ≠ filepath_of script prefix a → fs !! q = files w !! q) →
              ∃ pa, pa ∈ [(prefix, a)] ∧ p = filepath_of script pa.1 pa.2)
      as Htarget.
    { intros fs p Hp Hother. exists (prefix, a). split; [by left |].
      destruct (decide (p = filepath_of script prefix a)) as [-> | Hne];
        [done |]. by rewrite Hother in Hp. }
    destruct (remote (Attachment.url a)) as [buffer|]; cbv zeta;
      [destruct (writes disk _ _ buffer) as [|[partial|]] |]; simpl.
    + split_and!.
      * intros p Hp. apply lookup_insert_ne. intros <-.
        rewrite Hfile in Hp. by destruct Hp.
      * intros p Hp. apply (Htarget _ p Hp). intros q Hq.
        by apply lookup_insert_ne.
      * by eexists.
      * exists [Attachment.url a]. by split_and!.
    + split_and!.
      * intros p Hp. apply lookup_insert_ne. intros <-.
        rewrite Hfile in Hp. by destruct Hp.
      * intros p Hp. apply (Htarget _ p Hp). intros q Hq.
        by apply lookup_insert_ne.
      * by eexists.
      * exists [Attachment.url a]. by split_and!.
    + split_and!; [done | done | by eexists |].
      exists [Attachment.url a]. by split_and!.
    + split_and!; [done | done | exists []; simpl; by rewrite app_nil_r |].
      exists [Attachment.url a]. by split_and!.
Qed.

Lemma faulty_downloadRecord_downloaded (script : Script)
    (record : NormalizedRecord.t) (w : World) :
  downloaded script (attachmentsOf record) w
    (world_of (Faulty.downloadRecord remote disk script record w)).
Proof.
  rewrite attachmentsOf_app. unfold Faulty.downloadRecord.
  apply downloaded_bind; [apply faulty_downloadAttachment_downloaded |].
  intros r1 w1 _.
  apply downloaded_bind; [apply faulty_downloadAttachment_downloaded |].
  intros r2 w2 _.
  apply downloaded_bind; [apply faulty_downloadAttachment_downloaded |].
  intros r3 w3 _. apply downloaded_refl.
Qed.

Lemma faulty_filePaths_downloaded (script : Script)
    (records : list NormalizedRecord.t) (w : World) :
  downloaded script (targetsOf records) w
    (world_of (Faulty.filePaths remote disk script records w)).
Proof.
  unfold Faulty.filePaths, targetsOf. revert w.
  induction records as [|record records IH]; intros w; [apply downloaded_refl |].
  simpl. apply downloaded_bind; [apply faulty_downloadRecord_downloaded |].
  intros ps w1 _.
  rewrite <- (app_nil_r (flat_map attachmentsOf records)).
  apply downloaded_bind; [apply IH |].
  intros rest w2 _. apply downloaded_refl.
Qed.

Lemma downloaded_is_Some (script : Script)
    (targets : list (string * Attachment.t)) (w w1 : World) (p : string) :
  downloaded script targets w w1 →
  is_Some (files w !! p) → is_Some (files w1 !! p).
Proof. intros (Hkeep & _) Hp. by rewrite Hkeep. Qed.

Lemma faulty_downloadAttachment_inv (script : Script)
    (attachment : option Attachment.t) (prefix : string) (w w' : World)
    (r : option DownloadedFile.t) :
  Faulty.downloadAttachment remote disk script attachment prefix w = Ok r w' →
  r = descriptor script prefix <$> attachment
  ∧ Forall (λ pa, is_Some (files w' !! filepath_of script pa.1 pa.2))
           (option_list (pair prefix <$> attachment)).
Proof.
  destruct attachment as [a|]; [| by intros [= <- <-]].
  destruct (files w !! filepath_of script prefix a) as [content|] eqn:Hfile.
  - rewrite faulty_downloadAttachment_present by (rewrite Hfile; eauto).
    intros [= <- <-]. split; [done |]. repeat constructor. simpl.
    rewrite Hfile. eauto.
  - rewrite faulty_downloadAttachment_absent by done.
    destruct (remote (Attachment.url a)) as [buffer|]; [| done]. cbv zeta.
    destruct (writes disk _ _ buffer); [| done].
    intros [= <- <-]. split; [done |]. repeat constructor. simpl.
    rewrite lookup_insert_eq. eauto.
Qed.

Lemma faulty_downloadRecord_inv (script : Script) (record : NormalizedRecord.t)
    (w w' : World) (ps : list DownloadedFile.t) :
  Faulty.downloadRecord remote disk script record w = Ok ps w' →
  ps = recordPaths script record
  ∧ Forall (λ pa, is_Some (files w' !! filepath_of script pa.1 pa.2))
           (attachmentsOf record).
Proof.
  unfold Faulty.downloadRecord. intros Hrun.
  apply bind_Ok_inv in Hrun as (r1 & w1 & H1 & Hrun).
  apply bind_Ok_inv in Hrun as (r2 & w2 & H2 & Hrun).
  apply bind_Ok_inv in Hrun as (r3 & w3 & H3 & Hrun).
  injection Hrun as <- <-.
  pose proof (faulty_downloadAttachment_downloaded script
                (NormalizedRecord.ksaSampler record) "ksa-sampler-" w1) as Hd2.
  pose proof (faulty_downloadAttachment_downloaded script
                (NormalizedRecord.showcase record) "showcase-" w2) as Hd3.
  rewrite H2 in Hd2. rewrite H3 in Hd3. simpl in Hd2, Hd3.
  apply faulty_downloadAttachment_inv in H1 as (-> & Hf1).
  apply faulty_downloadAttachment_inv in H2 as (-> & Hf2).
  apply faulty_downloadAttachment_inv in H3 as (-> & Hf3).
  split; [done |]. rewrite attachmentsOf_app.
  rewrite !Forall_app. split_and!; [| | done | constructor].
  - eapply Forall_impl; [exact Hf1 |]. intros pa Hpa. simpl in *.
    by eapply downloaded_is_Some, downloaded_is_Some.
  - eapply Forall_impl; [exact Hf2 |]. intros pa Hpa. simpl in *.
    by eapply downloaded_is_Some.
Qed.

(** Whenever the download stage returns, it returns the expected
    descriptors and every attachment of every record is on disk. *)
Lemma faulty_filePaths_inv (script : Script) (records : list NormalizedRecord.t)
    (w w' : World) (paths : list DownloadedFile.t) :
  Faulty.filePaths remote disk script records w = Ok paths w' →
  paths = expectedPaths script records ∧ warm script records (files w').
Proof.
  unfold Faulty.filePaths. revert w paths.
  induction records as [|record records IH]; intros w paths Hrun.
  - injection Hrun as <- <-. split; [done | constructor].
  - simpl in Hrun.
    apply bind_Ok_inv in Hrun as (ps & w1 & Hrecord & Hrun).
    apply bind_Ok_inv in Hrun as (rest & w2 & Hrest & Hrun).
    injection Hrun as <- <-.
    pose proof (faulty_filePaths_downloaded script records w1) as Hd.
    unfold Faulty.filePaths in Hd. rewrite Hrest in Hd. simpl in Hd.
    apply faulty_downloadRecord_inv in Hrecord as (-> & Hf1).
    apply IH in Hrest as (-> & Hwarm).
    split; [done |]. constructor; [| done].
    eapply Forall_impl; [exact Hf1 |]. intros pa Hpa. simpl in *.
    by eapply downloaded_is_Some.
Qed.

Lemma downloadError_bind {A B} (script : Script)
    (t1 t2 : list (string * Attachment.t)) (m : M A) (k : A → M B) (w : World) :
  downloaded script t1 w (world_of (m w)) →
  (∀ e w', m w = Throw e w' → downloadError remote disk script t1 w e) →
  (∀ a w1 e w', m w = Ok a w1 → k a w1 = Throw e w' →
                downloadError remote disk script t2 w1 e) →
  ∀ e w', (m ≫= k) w = Throw e w' →
          downloadError remote disk script (t1 ++ t2) w e.
Proof.
  intros Hd Hm Hk e w' [Hrun | (a & w1 & Hok & Hrun)]%bind_Throw_inv.
  - destruct (Hm e w' Hrun) as (pa & Hpa & Hfile & Hcause).
    exists pa. split_and!; [| done | done]. apply elem_of_app. by left.
  - destruct (Hk a w1 e w' Hok Hrun) as (pa & Hpa & Hfile & Hcause).
    exists pa. split_and!; [| | done]; [apply elem_of_app; by right |].
    rewrite Hok in Hd. simpl in Hd.
    destruct (files w !! filepath_of script pa.1 pa.2) as [content|] eqn:Hw;
      [| done].
    assert (is_Some (files w1 !! filepath_of script pa.1 pa.2)) as [? Hw1].
    { eapply downloaded_is_Some; [exact Hd |]. rewrite Hw. eauto. }
    congruence.
Qed.

Lemma faulty_downloadAttachment_error (script : Script)
    (attachment : option Attachment.t) (prefix : string) (w w' : World)
    (e : Error) :
  Faulty.downloadAttachment remote disk script attachment prefix w = Throw e w' →
  downloadError remote disk script (option_list (pair prefix <$> attachment)) w e.
Proof.
  destruct attachment as [a|]; [| done].
  destruct (files w !! filepath_of script prefix a) as [content|] eqn:Hfile.
  - by rewrite faulty_downloadAttachment_present by (rewrite Hfile; eauto).
  - rewrite faulty_downloadAttachment_absent by done.
    destruct (remote (Attachment.url a)) as [buffer|] eqn:Hremote; cbv zeta.
    + destruct (writes disk _ _ buffer) as [|remains] eqn:Hwrite; [done |].
      intros [= <- <-]. exists (prefix, a).
      split_and!; [by left | done |]. right. by eexists _, buffer, remains.
    + intros [= <- <-]. exists (prefix, a).
      split_and!; [by left | done |]. by left.
Qed.

Lemma faulty_downloadRecord_error (script : Script) (record : NormalizedRecord.t)
    (w w' : World) (e : Error) :
  Faulty.downloadRecord remote disk script record w = Throw e w' →
  downloadError remote disk script (attachmentsOf record) w e.
Proof.
  rewrite attachmentsOf_app. unfold Faulty.downloadRecord. revert e w'.
  apply downloadError_bind;
    [apply faulty_downloadAttachment_downloaded
    | intros e w'; apply faulty_downloadAttachment_error |].
  intros r1 w1 e w' _. revert e w'.
  apply downloadError_bind;
    [apply faulty_downloadAttachment_downloaded
    | intros e w'; apply faulty_downloadAttachment_error |].
  intros r2 w2 e w' _. revert e w'.
  apply downloadError_bind;
    [apply faulty_downloadAttachment_downloaded
    | intros e w'; apply faulty_downloadAttachment_error |].
  by intros r3 w3 e w' _.
Qed.

Lemma faulty_filePaths_error (script : Script) (records : list NormalizedRecord.t)
    (w w' : World) (e : Error) :
  Faulty.filePaths remote disk script records w = Throw e w' →
  downloadError remote disk script (targetsOf records) w e.
Proof.
  unfold Faulty.filePaths, targetsOf. revert w e w'.
  induction records as [|record records IH]; intros w e w'; [done |].
  simpl. revert e w'.
  apply downloadError_bind;
    [apply faulty_downloadRecord_downloaded
    | intros e w'; apply faulty_downloadRecord_error |].
  intros ps w1 e w' _.
  rewrite <- (app_nil_r (flat_map attachmentsOf records)). revert e w'.
  apply downloadError_bind;
    [apply faulty_filePaths_downloaded | intros e w'; apply IH |].
  by intros rest w2 e w' _.
Qed.

(** X4.  When the download stage returns, its result holds, record after
    record, the descriptors of the [about], [ksaSampler] and [showcase]
    attachments that the record has; every attachment of every record is
    then on disk.  When it throws, the error was raised for an attachment of
    a record whose file was not on disk: the fetch of its URL was rejected,
    or the host served it and the write of its file was rejected.  In both
    cases the files that existed are intact, and a path whose content
    changed is the target of an attachment. *)
Theorem filePaths_outcome (script : Script) (records : list NormalizedRecord.t)
    (w : World) :
  let outcome := Faulty.filePaths remote disk script records w in
  match outcome with
  | Ok paths w1 =>
      paths
      = flat_map (λ record,
          omap id
            [ descriptor script "about-" <$> NormalizedRecord.about record;
              descriptor script "ksa-sampler-"
                <$> NormalizedRecord.ksaSampler record;
              descriptor script "showcase-" <$> NormalizedRecord.showcase record ])
          records
      ∧ ∀ record prefix a,
          record ∈ records → (prefix, a) ∈ attachmentsOf record →
          is_Some (files w1 !! filepath_of script prefix a)
  | Throw e w1 =>
      ∃ record prefix a,
        record ∈ records ∧ (prefix, a) ∈ attachmentsOf record
        ∧ files w !! filepath_of script prefix a = None
        ∧ ((e = FetchFailed (Attachment.url a)
            ∧ remote (Attachment.url a) = None)
           ∨ (∃ v buffer remains,
                e = WriteFailed (filepath_of script prefix a)
                ∧ remote (Attachment.url a) = Some buffer
                ∧ writes disk v (filepath_of script prefix a) buffer
                  = WriteRejected remains))
  end
  ∧ (∀ p, is_Some (files w !! p) →
          files (world_of outcome) !! p = files w !! p)
  ∧ (∀ p, files (world_of outcome) !! p ≠ files w !! p →
          ∃ record prefix a,
            record ∈ records ∧ (prefix, a) ∈ attachmentsOf record
            ∧ p = filepath_of script prefix a).
Proof.
  intros outcome.
  destruct (faulty_filePaths_downloaded script records w) as (Hkeep & Hnew & _).
  fold outcome in Hkeep, Hnew. split_and!; [| done |].
  - unfold outcome.
    destruct (Faulty.filePaths remote disk script records w)
      as [paths w1 | e w1] eqn:Hrun.
    + apply faulty_filePaths_inv in Hrun as (-> & Hwarm).
      split; [done |].
      intros record prefix a Hrecord Hpa.
      apply (proj1 (warm_targets _ _ _) Hwarm (prefix, a)), elem_of_targetsOf.
      by exists record.
    + apply faulty_filePaths_error in Hrun as ([prefix a] & Hpa & Hfile & Hcause).
      apply elem_of_targetsOf in Hpa as (record & Hrecord & Hpa).
      by exists record, prefix, a.
  - intros p Hp. destruct (Hnew p Hp) as ([prefix a] & Hpa & ->).
    apply elem_of_targetsOf in Hpa as (record & Hrecord & Hpa).
    by exists record, prefix, a.
Qed.

(** ** The trace of the download of one record *)

Lemma fetchedTrace_app (r1 p1 r2 p2 : list (string * Attachment.t))
    (w w1 w2 : World) :
  fetchedTrace r1 p1 w w1 → fetchedTrace r2 p2 w1 w2 →
  fetchedTrace (r1 ++ r2) (p1 ++ p2) w w2.
Proof.
  intros [Hreq1 Hcon1] [Hreq2 Hcon2]. split.
  - by rewrite Hreq2, Hreq1, map_app, app_assoc.
  - by rewrite Hcon2, Hcon1, map_app, app_assoc.
Qed.

Lemma traced_nil {A} (script : Script) (a : A) (w : World) :
  traced script [] w (Ok a w).
Proof.
  exists []. split; [done |]. split; simpl; by rewrite app_nil_r.
Qed.

Lemma traced_bind {A B} (script : Script)
    (t1 t2 : list (string * Attachment.t))
    (m : M A) (k : A → M B) (w : World) :
  traced script t1 w (m w) →
  (∀ a w1, m w = Ok a w1 → traced script t2 w1 (k a w1)) →
  traced script (t1 ++ t2) w ((m ≫= k) w).
Proof.
  intros Hm Hk. unfold mbind, M_bind, bind.
  destruct (m w) as [a w1 | e w1] eqn:Hmw; simpl in Hm.
  - destruct Hm as (fetched1 & Hsub1 & Htrace1).
    specialize (Hk a w1 eq_refl).
    destruct (k a w1) as [b w2 | e w2]; simpl in *.
    + destruct Hk as (fetched2 & Hsub2 & Htrace2).
      exists (fetched1 ++ fetched2). split; [by apply sublist_app |].
      by eapply fetchedTrace_app.
    + destruct Hk as (fetched2 & last & Hsub2 & Hcause).
      exists (fetched1 ++ fetched2), last.
      split; [rewrite <- app_assoc; by apply sublist_app |].
      rewrite <- !app_assoc.
      destruct Hcause as [[-> Htrace2] | [-> Htrace2]]; [left | right];
        (split; [done |]); by eapply fetchedTrace_app.
  - destruct Hm as (fetched1 & last & Hsub1 & Hcause).
    exists fetched1, last. split; [| done]. by apply sublist_inserts_r.
Qed.

Lemma faulty_downloadAttachment_traced (script : Script)
    (attachment : option Attachment.t) (prefix : string) (w : World) :
  traced script (option_list (pair prefix <$> attachment)) w
    (Faulty.downloadAttachment remote disk script attachment prefix w).
Proof.
  destruct attachment as [a|]; [| apply traced_nil].
  destruct (files w !! filepath_of script prefix a) as [content|] eqn:Hfile.
  - rewrite faulty_downloadAttachment_present by (rewrite Hfile; eauto).
    exists []. split; [apply sublist_nil_l |].
    split; simpl; by rewrite app_nil_r.
  - rewrite faulty_downloadAttachment_absent by done.
    destruct (remote (Attachment.url a)) as [buffer|]; cbv zeta;
      [destruct (writes disk _ _ buffer) |]; simpl.
    + exists [(prefix, a)]. by split_and!.
    + exists [], (prefix, a). split; [done |]. right. by split_and!.
    + exists [], (prefix, a). split; [done |]. left. split; [done |].
      split; simpl; [done | by rewrite app_nil_r].
Qed.

Lemma faulty_downloadRecord_traced (script : Script)
    (record : NormalizedRecord.t) (w : World) :
  traced script (attachmentsOf record) w
    (Faulty.downloadRecord remote disk script record w).
Proof.
  rewrite attachmentsOf_app. unfold Faulty.downloadRecord.
  apply traced_bind; [apply faulty_downloadAttachment_traced |].
  intros r1 w1 _.
  apply traced_bind; [apply faulty_downloadAttachment_traced |].
  intros r2 w2 _.
  apply traced_bind; [apply faulty_downloadAttachment_traced |].
  intros r3 w3 _. apply traced_nil.
Qed.

(** X18.  The callback of the download stage handles the attachments of a
    record in the order [about], [ksaSampler], [showcase], and fetches some
    of them in that order.  When it returns, each request it made is
    followed by the line [Downloaded <filename>] of the same attachment,
    one line for each request.  When it throws, no attachment after the
    last one requested was handled: either the fetch of the last one was
    rejected, and it has no line; or the host served it, its line was
    printed, and the write of its file was rejected. *)
Theorem downloadRecord_trace (script : Script) (record : NormalizedRecord.t)
    (w : World) :
  let url (pa : string * Attachment.t) := Attachment.url pa.2 in
  let line (pa : string * Attachment.t) :=
    Log ("Downloaded " +:+ filename_of pa.1 pa.2) in
  match Faulty.downloadRecord remote disk script record w with
  | Ok _ w1 =>
      ∃ fetched,
        fetched `sublist_of` attachmentsOf record
        ∧ requests w1 = requests w ++ map url fetched
        ∧ console w1 = console w ++ map line fetched
  | Throw e w1 =>
      ∃ fetched last,
        (fetched ++ [last]) `sublist_of` attachmentsOf record
        ∧ requests w1 = requests w ++ map url fetched ++ [url last]
        ∧ ((e = FetchFailed (url last)
            ∧ console w1 = console w ++ map line fetched)
           ∨ (e = WriteFailed (filepath_of script last.1 last.2)
              ∧ console w1 = console w ++ map line fetched ++ [line last]))
  end.
Proof.
  intros url line.
  pose proof (faulty_downloadRecord_traced script record w) as Htraced.
  destruct (Faulty.downloadRecord remote disk script record w)
    as [paths w1 | e w1]; simpl in Htraced.
  - destruct Htraced as (fetched & Hsub & Hreq & Hcon). by exists fetched.
  - destruct Htraced as (fetched & last & Hsub & Hcause).
    exists fetched, last. split; [done |].
    destruct Hcause as [[-> [Hreq Hcon]] | [-> [Hreq Hcon]]];
      rewrite map_app in Hreq; (split; [done |]); [by left | right].
    split; [done |]. by rewrite map_app in Hcon.
Qed.

End FaultyDownloads.

(** ** The archive mirror *)

Lemma append_cancel_r (s t u : string) : s +:+ u = t +:+ u → s = t.
Proof.
  revert t. induction s as [|c s IH]; intros [|d t] Heq.
  - done.
  - apply (f_equal String.length) in Heq.
    rewrite !length_append in Heq. simpl in Heq. lia.
  - apply (f_equal String.length) in Heq.
    rewrite !length_append in Heq. simpl in Heq. lia.
  - change (String c s +:+ u) with (String c (s +:+ u)) in Heq.
    change (String d t +:+ u) with (String d (t +:+ u)) in Heq.
    injection Heq as -> Heq. f_equal. by apply IH.
Qed.

Section FaultyMirror.

Context (remote : string → option string) (md5 : string → string).
Context (disk : Disk).

(** The ways one mirror operation ends. *)
Lemma faulty_downloadArchive_try_cases (archiveFilename : string) (w : World) :
  let manifestUrl := files_host +:+ archiveFilename +:+ ".md5" in
  let archiveUrl := files_host +:+ archiveFilename in
  let filepath := "archives/" +:+ archiveFilename in
  let asked := requested manifestUrl w in
  Faulty.downloadArchive_try remote md5 disk archiveFilename w
  = match remote manifestUrl with
    | None => Throw (FetchFailed manifestUrl) asked
    | Some manifest =>
        if bool_decide (is_Some (files w !! filepath))
           && negb (reads disk asked filepath)
        then Throw (ReadFailed filepath) asked
        else if upToDate md5 archiveFilename manifest w
        then Ok tt (printed ("[INFO] skipped " +:+ archiveFilename) asked)
        else
          let asked2 := requested archiveUrl asked in
          match remote archiveUrl with
          | None => Throw (FetchFailed archiveUrl) asked2
          | Some response =>
              match writes disk asked2 filepath response with
              | WriteRejected remains =>
                  Throw (WriteFailed filepath) (spoiled filepath remains asked2)
              | Written =>
                  let kept := stored filepath response asked2 in
                  match writes disk kept (filepath +:+ ".md5") manifest with
                  | WriteRejected remains =>
                      Throw (WriteFailed (filepath +:+ ".md5"))
                            (spoiled (filepath +:+ ".md5") remains kept)
                  | Written =>
                      Ok tt (printed ("[INFO] downloaded " +:+ archiveFilename)
                               (stored (filepath +:+ ".md5") manifest kept))
                  end
              end
          end
    end.
Proof.
  cbv zeta.
  unfold Faulty.downloadArchive_try, mbind, M_bind, bind, fetch, fs_exists,
    Faulty.getMd5HashOfFile, Faulty.fs_writeFile, console_log, ret, upToDate,
    requested, printed, stored, spoiled.
  simpl.
  destruct (remote (files_host +:+ archiveFilename +:+ ".md5")) as [manifest|];
    simpl; [| done].
  destruct (files w !! ("archives/" +:+ archiveFilename)) as [content|] eqn:Hfile;
    simpl.
  - rewrite ?Hfile. simpl.
    destruct (reads disk _ _); simpl; [| done].
    destruct (bool_decide _); simpl; [done |].
    destruct (remote (files_host +:+ archiveFilename)) as [response|]; simpl;
      [| done].
    destruct (writes disk _ _ response); simpl; [| done].
    by destruct (writes disk _ _ manifest).
  - rewrite ?Hfile. simpl.
    destruct (remote (files_host +:+ archiveFilename)) as [response|]; simpl;
      [| done].
    destruct (writes disk _ _ response); simpl; [| done].
    by destruct (writes disk _ _ manifest).
Qed.

(** Whatever the body of the operation throws is caught and printed. *)
Lemma faulty_downloadArchive_catch (archiveFilename : string) (w : World) :
  Faulty.downloadArchive remote md5 disk archiveFilename w
  = match Faulty.downloadArchive_try remote md5 disk archiveFilename w with
    | Ok _ w1 => Ok tt w1
    | Throw e v => Ok tt (caught archiveFilename e v)
    end.
Proof.
  unfold Faulty.downloadArchive, try_catch.
  by destruct (Faulty.downloadArchive_try remote md5 disk archiveFilename w)
    as [[] w1 | e v].
Qed.

(** One mirror operation always returns; it touches no path but the local
    paths of the archive and of its manifest, and the console only grows. *)
Lemma faulty_downloadArchive_frame (archiveFilename : string) (w : World) :
  ∃ w', Faulty.downloadArchive remote md5 disk archiveFilename w = Ok tt w'
    ∧ (∀ p, p ≠ "archives/" +:+ archiveFilename →
            p ≠ ("archives/" +:+ archiveFilename) +:+ ".md5" →
            files w' !! p = files w !! p)
    ∧ console_grows w w'.
Proof.
  rewrite faulty_downloadArchive_catch.
  pose proof (faulty_downloadArchive_try_cases archiveFilename w) as Hcases.
  cbv zeta in Hcases. rewrite Hcases. clear Hcases.
  assert (∀ path (remains : option string) (fs : gmap string string) p,
            p ≠ path →
            from_option (λ partial, <[path := partial]> fs) fs remains !! p
            = fs !! p) as Hspoiled.
  { intros path [partial|] fs p Hp; simpl; [| done].
    by rewrite lookup_insert_ne. }
  unfold console_grows.
  destruct (remote (files_host +:+ archiveFilename +:+ ".md5")) as [manifest|];
    [destruct (_ && _);
     [| destruct (upToDate _ _ _ _);
        [| destruct (remote (files_host +:+ archiveFilename)) as [response|];
           [destruct (writes disk _ _ response) as [|remains1];
            [destruct (writes disk _ _ manifest) as [|remains2] |] |]]] |];
    (eexists; split; [reflexivity |]);
    unfold caught, printed, stored, spoiled, requested; simpl;
    rewrite <- ?app_assoc;
    (split; [| by eexists]); intros p Hp1 Hp2;
    rewrite ?Hspoiled by done; by rewrite ?lookup_insert_ne by done.
Qed.

Lemma archive_path_outside (archiveFilename p : string) :
  startsWith p "archives/" = false →
  p ≠ "archives/" +:+ archiveFilename
  ∧ p ≠ ("archives/" +:+ archiveFilename) +:+ ".md5".
Proof. intros Hp. split; intros ->; by vm_compute in Hp. Qed.

(** The mirror stage always returns; it touches no path outside
    [archives/], and the console only grows. *)
Lemma faulty_mirror_frame (names : list string) (w : World) :
  ∃ w', mapLimit (Faulty.downloadArchive remote md5 disk) names w = Ok tt w'
    ∧ (∀ p, (∀ name, name ∈ names →
                     p ≠ "archives/" +:+ name
                     ∧ p ≠ ("archives/" +:+ name) +:+ ".md5") →
            files w' !! p = files w !! p)
    ∧ console_grows w w'.
Proof.
  unfold mapLimit. revert w.
  induction names as [|name names IH]; intros w.
  - exists w. split_and!; [done | done | apply console_grows_refl].
  - destruct (faulty_downloadArchive_frame name w)
      as (w1 & Hrun1 & Hframe1 & Hcon1).
    destruct (IH w1) as (w' & Hrun & Hframe & Hcon).
    exists w'. simpl. erewrite bind_Ok by exact Hrun1.
    split_and!; [done | | by eapply console_grows_trans].
    intros p Hp. rewrite Hframe.
    + apply Hframe1; apply Hp; by left.
    + intros name' Hin. apply Hp. by right.
Qed.

Lemma spoiled_lookup_ne (path : string) (remains : option string)
    (fs : gmap string string) (p : string) :
  p ≠ path →
  from_option (λ partial, <[path := partial]> fs) fs remains !! p = fs !! p.
Proof.
  intros Hp. destruct remains as [partial|]; simpl; [| done].
  by rewrite lookup_insert_ne.
Qed.

(** X12.  One mirror operation always returns, after one request, for the
    manifest, or two, and touches no path but the local paths of the
    archive and of its manifest.  It ends in one of three ways.  The
    archive and its manifest are stored with the contents the host served,
    and one line tells so.  Or the archive is skipped and no file changes.
    Or an error is caught and printed after a line that names the archive:
    a rejected fetch of one of the two URLs or a failed read of the local
    copy, and then no file changed; a rejected write of the archive, and
    then the stored manifest is as it was; or a rejected write of the
    manifest, after the archive was stored. *)
Theorem downloadArchive_outcomes (archiveFilename : string) (w : World) :
  let manifestUrl := files_host +:+ archiveFilename +:+ ".md5" in
  let archiveUrl := files_host +:+ archiveFilename in
  let filepath := "archives/" +:+ archiveFilename in
  ∃ w1,
    Faulty.downloadArchive remote md5 disk archiveFilename w = Ok tt w1
    ∧ (requests w1 = requests w ++ [manifestUrl]
       ∨ requests w1 = requests w ++ [manifestUrl; archiveUrl])
    ∧ (∀ p, p ≠ filepath → p ≠ filepath +:+ ".md5" →
            files w1 !! p = files w !! p)
    ∧ ((∃ manifest response,
          remote manifestUrl = Some manifest
          ∧ remote archiveUrl = Some response
          ∧ files w1 = <[filepath +:+ ".md5" := manifest]>
                         (<[filepath := response]> (files w))
          ∧ console w1
            = console w ++ [Log ("[INFO] downloaded " +:+ archiveFilename)])
       ∨ (files w1 = files w
          ∧ console w1
            = console w ++ [Log ("[INFO] skipped " +:+ archiveFilename)])
       ∨ (∃ e,
            console w1
            = console w
              ++ [Log ("[ERROR] could not download " +:+ archiveFilename);
                  LogError e]
            ∧ ((files w1 = files w
                ∧ ((e = FetchFailed manifestUrl ∧ remote manifestUrl = None)
                   ∨ (e = ReadFailed filepath
                      ∧ is_Some (files w !! filepath)
                      ∧ reads disk (requested manifestUrl w) filepath = false)
                   ∨ (e = FetchFailed archiveUrl ∧ remote archiveUrl = None)))
               ∨ (e = WriteFailed filepath
                  ∧ files w1 !! (filepath +:+ ".md5")
                    = files w !! (filepath +:+ ".md5"))
               ∨ (∃ response,
                    e = WriteFailed (filepath +:+ ".md5")
                    ∧ remote archiveUrl = Some response
                    ∧ files w1 !! filepath = Some response)))).
Proof.
  intros manifestUrl archiveUrl filepath.
  destruct (faulty_downloadArchive_frame archiveFilename w)
    as (w1 & Hrun & Hframe & _).
  exists w1. split; [done |]. fold filepath in Hframe.
  rewrite faulty_downloadArchive_catch in Hrun.
  pose proof (faulty_downloadArchive_try_cases archiveFilename w) as Hcases.
  cbv zeta in Hcases. fold manifestUrl archiveUrl filepath in Hcases.
  rewrite Hcases in Hrun. clear Hcases.
  destruct (remote manifestUrl) as [manifest|] eqn:Hmanifest.
  2: { injection Hrun as <-. simpl. split_and!; [by left | done |].
       right. right. exists (FetchFailed manifestUrl).
       split; [by rewrite <- app_assoc |]. left. split; [done |]. by left. }
  destruct (bool_decide (is_Some (files w !! filepath))
            && negb (reads disk (requested manifestUrl w) filepath))
    eqn:Hunreadable.
  { injection Hrun as <-. simpl. split_and!; [by left | done |].
    apply andb_true_iff in Hunreadable as [Hexists Hreads].
    apply bool_decide_eq_true in Hexists. apply negb_true_iff in Hreads.
    right. right. exists (ReadFailed filepath).
    split; [by rewrite <- app_assoc |]. left. split; [done |].
    right. left. by split_and!. }
  destruct (upToDate md5 archiveFilename manifest w).
  { injection Hrun as <-. simpl. split_and!; [by left | done |].
    right. left. by split. }
  destruct (remote archiveUrl) as [response|] eqn:Hresponse.
  2: { injection Hrun as <-. simpl.
       split_and!; [right; by rewrite <- app_assoc | done |].
       right. right. exists (FetchFailed archiveUrl).
       split; [by rewrite <- app_assoc |]. left. split; [done |].
       right. right. by split. }
  destruct (writes disk _ filepath response) as [|remains1].
  - destruct (writes disk _ (filepath +:+ ".md5") manifest) as [|remains2];
      injection Hrun as <-; simpl;
      (split_and!; [right; by rewrite <- app_assoc | done |]).
    + left. by exists manifest, response.
    + right. right. exists (WriteFailed (filepath +:+ ".md5")).
      split; [by rewrite <- app_assoc |]. right. right.
      exists response. split_and!; [done | done |].
      rewrite spoiled_lookup_ne by (intros Heq; by apply (manifest_path_ne filepath)).
      apply lookup_insert_eq.
  - injection Hrun as <-. simpl.
    split_and!; [right; by rewrite <- app_assoc | done |].
    right. right. exists (WriteFailed filepath).
    split; [by rewrite <- app_assoc |]. right. left. split; [done |].
    apply spoiled_lookup_ne, manifest_path_ne.
Qed.

(** An archive without a local copy is mirrored when the host serves it
    and the file system accepts the two writes. *)
Lemma faulty_downloadArchive_absent (archiveFilename manifest response : string)
    (u : World) :
  remote (files_host +:+ archiveFilename +:+ ".md5") = Some manifest →
  remote (files_host +:+ archiveFilename) = Some response →
  (∀ v content,
     writes disk v ("archives/" +:+ archiveFilename) content = Written
     ∧ writes disk v (("archives/" +:+ archiveFilename) +:+ ".md5") content
       = Written) →
  files u !! ("archives/" +:+ archiveFilename) = None →
  ∃ u', Faulty.downloadArchive remote md5 disk archiveFilename u = Ok tt u'
        ∧ files u' = <[("archives/" +:+ archiveFilename) +:+ ".md5" := manifest]>
                       (<["archives/" +:+ archiveFilename := response]> (files u))
        ∧ console u'
          = console u ++ [Log ("[INFO] downloaded " +:+ archiveFilename)].
Proof.
  intros Hmanifest Hresponse Hwrites Habsent.
  rewrite faulty_downloadArchive_catch.
  pose proof (faulty_downloadArchive_try_cases archiveFilename u) as Hcases.
  cbv zeta in Hcases. rewrite Hcases. clear Hcases.
  rewrite Hmanifest, Habsent.
  rewrite bool_decide_eq_false_2 by (by intros [? ?]). simpl.
  unfold upToDate. rewrite Habsent. simpl. rewrite Hresponse.
  rewrite (proj1 (Hwrites _ _)), (proj2 (Hwrites _ _)).
  by eexists.
Qed.

Lemma archive_paths_independent (a b : string) :
  a ≠ b → a ≠ b +:+ ".md5" → b ≠ a +:+ ".md5" →
  let path name := "archives/" +:+ name in
  path a ≠ path b
  ∧ path a ≠ path b +:+ ".md5"
  ∧ path a +:+ ".md5" ≠ path b
  ∧ path a +:+ ".md5" ≠ path b +:+ ".md5".
Proof.
  intros Hab Ha Hb path. split_and!.
  - intros Heq. by apply (inj (String.app "archives/")) in Heq.
  - intros Heq.
    change (path b +:+ ".md5") with ("archives/" +:+ (b +:+ ".md5")) in Heq.
    by apply (inj (String.app "archives/")) in Heq.
  - intros Heq.
    change (path a +:+ ".md5") with ("archives/" +:+ (a +:+ ".md5")) in Heq.
    by apply (inj (String.app "archives/")) in Heq.
  - intros Heq%append_cancel_r.
    by apply (inj (String.app "archives/")) in Heq.
Qed.

End FaultyMirror.

(** ** The scripts as a whole *)

Section FaultyScripts.

Context (remote : string → option string) (md5 : string → string).
Context (stringify : list ResolvedRecord.t → string).
Context (globSync : gmap string string → list string).
Context (disk : Disk).

(** The removal loop stops at the first removal that is rejected; a file
    that is not to be removed is left as it is. *)
Lemma faulty_forEach_fs_remove (doomed : list string) (w : World) :
  let outcome := forEach (Faulty.fs_remove disk) doomed w in
  match outcome with
  | Ok _ w' =>
      ∀ p, files w' !! p
           = if bool_decide (p ∈ doomed) then None else files w !! p
  | Throw e w' =>
      ∃ p v, e = RemoveFailed p ∧ p ∈ doomed ∧ removes disk v p = false
  end
  ∧ (∀ q, q ∉ doomed → files (world_of outcome) !! q = files w !! q)
  ∧ requests (world_of outcome) = requests w
  ∧ console (world_of outcome) = console w.
Proof.
  cbv zeta. revert w. induction doomed as [|file doomed IH]; intros w.
  - simpl. by split_and!.
  - change (forEach (Faulty.fs_remove disk) (file :: doomed) w)
      with (match Faulty.fs_remove disk file w with
            | Ok _ w1 => forEach (Faulty.fs_remove disk) doomed w1
            | Throw e w1 => Throw e w1
            end).
    unfold Faulty.fs_remove. destruct (removes disk w file) eqn:Hremoves.
    + destruct (IH (mkWorld (delete file (files w)) (requests w) (console w)))
        as (Hout & Hkeep & Hreq & Hcon).
      split_and!; [| | done | done].
      * destruct (forEach _ doomed _) as [[] w' | e w'].
        -- intros p. rewrite Hout. simpl.
           destruct (decide (p = file)) as [-> | Hne].
           ++ rewrite lookup_delete_eq.
              rewrite (bool_decide_eq_true_2 (file ∈ file :: doomed)) by left.
              by case_bool_decide.
           ++ rewrite lookup_delete_ne by done.
              rewrite (bool_decide_ext (p ∈ file :: doomed) (p ∈ doomed));
                [done |]. rewrite elem_of_cons. tauto.
        -- destruct Hout as (p & v & -> & Hp & Hv).
           exists p, v. split_and!; [done | by right | done].
      * intros q Hq. rewrite Hkeep by (intros ?; apply Hq; by right).
        simpl. apply lookup_delete_ne. intros <-. apply Hq. by left.
    + split_and!; try done. exists file, w. split_and!; [done | by left | done].
Qed.

(** The script, stage after stage. *)
Lemma faulty_run_stages (script : Script) (records : list Fields.t) (w : World) :
  Faulty.run remote md5 stringify globSync disk script records w
  = (paths ← Faulty.filePaths remote disk script (normalizedRecords records);
     forEach (Faulty.fs_remove disk)
       (filesToDelete (globSync (files w))
          (allFiles (normalizedRecordsWithFilePaths paths
                       (normalizedRecords records))));;
     Faulty.fs_writeFile disk (snapshotPath script)
       (stringify (normalizedRecordsWithFilePaths paths
                     (normalizedRecords records)));;
     if mirrorsArchives script
     then mapLimit (Faulty.downloadArchive remote md5 disk)
            (archives (normalizedRecordsWithFilePaths paths
                         (normalizedRecords records)))
     else ret tt) (started records w).
Proof. reflexivity. Qed.

(** How the script ends: the first stage that throws ends it, and the
    mirror never does. *)
Lemma faulty_run_cases (script : Script) (records : list Fields.t) (w : World) :
  let doomed := filesToDelete (globSync (files w))
                  (allFiles (snapshot script records)) in
  Faulty.run remote md5 stringify globSync disk script records w
  = match Faulty.filePaths remote disk script (normalizedRecords records)
            (started records w) with
    | Throw e w1 => Throw e w1
    | Ok _ w1 =>
        match forEach (Faulty.fs_remove disk) doomed w1 with
        | Throw e w2 => Throw e w2
        | Ok _ w2 =>
            match Faulty.fs_writeFile disk (snapshotPath script)
                    (stringify (snapshot script records)) w2 with
            | Throw e w3 => Throw e w3
            | Ok _ w3 =>
                if mirrorsArchives script
                then mapLimit (Faulty.downloadArchive remote md5 disk)
                       (archives (snapshot script records)) w3
                else Ok tt w3
            end
        end
    end.
Proof.
  cbv zeta. rewrite faulty_run_stages. unfold mbind at 1, M_bind at 1, bind at 1.
  destruct (Faulty.filePaths remote disk script (normalizedRecords records)
              (started records w)) as [paths w1 | e w1] eqn:Hstage; [| done].
  apply faulty_filePaths_inv in Hstage as (-> & _). fold (snapshot script records).
  unfold mbind at 1, M_bind at 1, bind at 1.
  destruct (forEach _ _ w1) as [[] w2 | e w2]; [| done].
  unfold mbind at 1, M_bind at 1, bind at 1.
  destruct (Faulty.fs_writeFile _ _ _ w2) as [[] w3 | e w3]; [| done].
  by destruct (mirrorsArchives script).
Qed.

(** X14.  The script throws only in one of its first three stages, never
    in the archive mirror: in the download stage, on the rejected fetch or
    the rejected write of an attachment that was not on disk, and then no
    file that existed has changed and nothing outside the attachments
    directory has; in the reconciler, on the rejected removal of a listed
    file that no record of the snapshot references; or in the snapshot
    writer, on the rejected write of the snapshot.  However it throws, a
    file that existed, is not to be removed and is not the snapshot has
    kept its content. *)
Theorem run_throws_cleanly (script : Script) (records : list Fields.t)
    (w w' : World) (e : Error)
    (Hrun : Faulty.run remote md5 stringify globSync disk script records w
            = Throw e w') :
  let doomed := filesToDelete (globSync (files w))
                  (allFiles (snapshot script records)) in
  ((∃ record prefix a,
      record ∈ normalizedRecords records
      ∧ (prefix, a) ∈ attachmentsOf record
      ∧ files w !! filepath_of script prefix a = None
      ∧ ((e = FetchFailed (Attachment.url a)
          ∧ remote (Attachment.url a) = None)
         ∨ (∃ v buffer remains,
              e = WriteFailed (filepath_of script prefix a)
              ∧ remote (Attachment.url a) = Some buffer
              ∧ writes disk v (filepath_of script prefix a) buffer
                = WriteRejected remains))
      ∧ (∀ p, is_Some (files w !! p) → files w' !! p = files w !! p)
      ∧ (∀ p, startsWith p (attachmentsDir script) = false →
              files w' !! p = files w !! p))
   ∨ (∃ p v, e = RemoveFailed p ∧ p ∈ doomed ∧ removes disk v p = false)
   ∨ (∃ v remains,
        e = WriteFailed (snapshotPath script)
        ∧ writes disk v (snapshotPath script)
            (stringify (snapshot script records))
          = WriteRejected remains))
  ∧ (∀ p, is_Some (files w !! p) → p ∉ doomed → p ≠ snapshotPath script →
          files w' !! p = files w !! p).
Proof.
  intros doomed. rewrite faulty_run_cases in Hrun. cbv zeta in Hrun.
  fold doomed in Hrun.
  pose proof (faulty_filePaths_downloaded remote disk script
                (normalizedRecords records) (started records w))
    as (Hkeep & Hnew & _).
  destruct (Faulty.filePaths remote disk script (normalizedRecords records)
              (started records w)) as [paths w1 | e1 w1] eqn:Hstage;
    simpl in Hkeep, Hnew.
  - pose proof (faulty_forEach_fs_remove doomed w1) as (Hout & Hspared & _).
    cbv zeta in Hout, Hspared.
    destruct (forEach (Faulty.fs_remove disk) doomed w1) as [[] w2 | e2 w2];
      simpl in Hspared.
    + unfold Faulty.fs_writeFile in Hrun.
      destruct (writes disk w2 (snapshotPath script)
                  (stringify (snapshot script records)))
        as [|remains] eqn:Hwrite.
      * destruct (mirrorsArchives script); [| done].
        edestruct faulty_mirror_frame as (w3 & Hmirror & _).
        erewrite Hmirror in Hrun. done.
      * injection Hrun as <- <-. split.
        -- right. right. by exists w2, remains.
        -- intros p Hp Hdoomed Hsnapshot. simpl.
           rewrite spoiled_lookup_ne by done.
           rewrite Hspared by done. by apply Hkeep.
    + injection Hrun as <- <-. split.
      * right. left. exact Hout.
      * intros p Hp Hdoomed _. rewrite Hspared by done. by apply Hkeep.
  - injection Hrun as <- <-. split; [| by intros p Hp _ _; apply Hkeep].
    left. apply faulty_filePaths_error in Hstage
      as ([prefix a] & Hpa & Hfile & Hcause).
    apply elem_of_targetsOf in Hpa as (record & Hrecord & Hpa).
    exists record, prefix, a. split_and!; try done.
    intros p Hp.
    destruct (decide (files w1 !! p = files w !! p)) as [Heq | Hne]; [done |].
    destruct (Hnew p Hne) as ([prefix' a'] & _ & ->).
    unfold filepath_of in Hp. by rewrite startsWith_app in Hp.
Qed.

(** X15.  The script returns whenever, for every attachment of every
    record, the file is on disk or the host serves its URL, and the file
    system rejects neither the write of an attachment, nor the removal of a
    listed file, nor the write of the snapshot: whatever the host and the
    file system answer in the archive mirror. *)
Theorem run_returns (script : Script) (records : list Fields.t) (w : World)
    (Hserved : ∀ record prefix a,
       record ∈ normalizedRecords records →
       (prefix, a) ∈ attachmentsOf record →
       is_Some (files w !! filepath_of script prefix a)
       ∨ is_Some (remote (Attachment.url a)))
    (Hwrites : ∀ v record prefix a content,
       record ∈ normalizedRecords records →
       (prefix, a) ∈ attachmentsOf record →
       writes disk v (filepath_of script prefix a) content = Written)
    (Hremoves : ∀ v p, p ∈ globSync (files w) → removes disk v p = true)
    (Hsnapshot : ∀ v content,
       writes disk v (snapshotPath script) content = Written) :
  ∃ w', Faulty.run remote md5 stringify globSync disk script records w
        = Ok tt w'.
Proof.
  rewrite faulty_run_cases. cbv zeta.
  destruct (Faulty.filePaths remote disk script (normalizedRecords records)
              (started records w)) as [paths w1 | e w1] eqn:Hstage.
  - pose proof (faulty_forEach_fs_remove
                  (filesToDelete (globSync (files w))
                     (allFiles (snapshot script records))) w1) as (Hout & _).
    cbv zeta in Hout.
    destruct (forEach (Faulty.fs_remove disk) _ w1) as [[] w2 | e w2].
    + unfold Faulty.fs_writeFile. rewrite Hsnapshot.
      destruct (mirrorsArchives script); [| by eexists].
      edestruct faulty_mirror_frame as (w3 & Hmirror & _).
      exists w3. exact Hmirror.
    + destruct Hout as (p & v & _ & (Hlisted & _)%elem_of_filesToDelete & Hv).
      by rewrite Hremoves in Hv.
  - apply faulty_filePaths_error in Hstage
      as ([prefix a] & Hpa & Hfile & Hcause).
    apply elem_of_targetsOf in Hpa as (record & Hrecord & Hpa).
    simpl in *.
    destruct Hcause as [[_ Hremote] | (v & buffer & remains & _ & _ & Hwrite)].
    + destruct (Hserved record prefix a Hrecord Hpa) as [Hdisk | [? Hbuffer]];
        [rewrite Hfile in Hdisk; by destruct Hdisk | congruence].
    + by rewrite (Hwrites v record prefix a buffer) in Hwrite.
Qed.

(** The script with the archive mirror ends as the script without it: the
    mirror adds no failure. *)
Lemma faulty_run_with_mirror (dir snap : string) (records : list Fields.t)
    (u : World) :
  match Faulty.run remote md5 stringify globSync disk
          (mkScript dir snap false) records u with
  | Ok _ w1 =>
      ∃ w', Faulty.run remote md5 stringify globSync disk
              (mkScript dir snap true) records u = Ok tt w'
            ∧ ∀ p, startsWith p "archives/" = false →
                   files w' !! p = files w1 !! p
  | Throw e1 w1 =>
      Faulty.run remote md5 stringify globSync disk
        (mkScript dir snap true) records u = Throw e1 w1
  end.
Proof.
  rewrite !faulty_run_cases. cbv zeta.
  change (Faulty.filePaths remote disk (mkScript dir snap true))
    with (Faulty.filePaths remote disk (mkScript dir snap false)).
  change (snapshot (mkScript dir snap true) records)
    with (snapshot (mkScript dir snap false) records).
  destruct (Faulty.filePaths _ _ _ _ _) as [paths w1 | e1 w1]; [| done].
  destruct (forEach _ _ w1) as [[] w2 | e2 w2]; [| done].
  simpl.
  destruct (Faulty.fs_writeFile _ _ _ w2) as [[] w3 | e3 w3]; [| done].
  destruct (faulty_mirror_frame remote md5 disk
              (archives (snapshot (mkScript dir snap false) records)) w3)
    as (w' & Hmirror & Hframe & _).
  exists w'. split; [exact Hmirror |].
  intros p Hp. apply Hframe. intros name _. by apply archive_path_outside.
Qed.

(** C7, as amended.  A failure of one mirror operation is an exception
    thrown in its body: a rejected fetch of the manifest or of the archive
    (a network error), a failed read of the local copy, a rejected write.
    Whatever is thrown is caught and printed after a line that names the
    archive, and the stage goes on with the rest of its list.  The stage
    returns on every list, touches no file outside [archives/], the
    snapshot among them, and keeps the lines printed; the script with the
    mirror ends as the script without it.  A failed operation does not
    prevent mirroring a second, independent archive, whether that one comes
    after or before it. *)
Theorem downloadArchive_isolated (failing healthy manifest response : string)
    (w v : World) (e : Error)
    (Hfails : Faulty.downloadArchive_try remote md5 disk failing w = Throw e v)
    (Hmanifest : remote (files_host +:+ healthy +:+ ".md5") = Some manifest)
    (Hresponse : remote (files_host +:+ healthy) = Some response)
    (Hwrites : ∀ u content,
       writes disk u ("archives/" +:+ healthy) content = Written
       ∧ writes disk u (("archives/" +:+ healthy) +:+ ".md5") content = Written)
    (Habsent : files w !! ("archives/" +:+ healthy) = None)
    (Hindependent : healthy ≠ failing ∧ healthy ≠ failing +:+ ".md5"
                    ∧ failing ≠ healthy +:+ ".md5") :
  let mirror := mapLimit (Faulty.downloadArchive remote md5 disk) in
  let body := Faulty.downloadArchive_try remote md5 disk in
  let reported name := Log ("[ERROR] could not download " +:+ name) in
  let mirrored (w' : World) :=
    files w' !! ("archives/" +:+ healthy) = Some response
    ∧ files w' !! (("archives/" +:+ healthy) +:+ ".md5") = Some manifest in
  (∀ name u e1 v1,
     body name u = Throw e1 v1 →
     Faulty.downloadArchive remote md5 disk name u = Ok tt (caught name e1 v1)
     ∧ console (caught name e1 v1)
       = console v1 ++ [reported name; LogError e1]
     ∧ ∀ rest, mirror (name :: rest) u = mirror rest (caught name e1 v1))
  ∧ (∀ name u,
       remote (files_host +:+ name +:+ ".md5") = None →
       body name u
       = Throw (FetchFailed (files_host +:+ name +:+ ".md5"))
               (requested (files_host +:+ name +:+ ".md5") u))
  ∧ (∀ name u manifest1,
       remote (files_host +:+ name +:+ ".md5") = Some manifest1 →
       is_Some (files u !! ("archives/" +:+ name)) →
       reads disk (requested (files_host +:+ name +:+ ".md5") u)
             ("archives/" +:+ name) = false →
       body name u
       = Throw (ReadFailed ("archives/" +:+ name))
               (requested (files_host +:+ name +:+ ".md5") u))
  ∧ (∀ name u manifest1,
       remote (files_host +:+ name +:+ ".md5") = Some manifest1 →
       files u !! ("archives/" +:+ name) = None
       ∨ (∃ content,
            files u !! ("archives/" +:+ name) = Some content
            ∧ reads disk (requested (files_host +:+ name +:+ ".md5") u)
                    ("archives/" +:+ name) = true
            ∧ Some (md5 content) ≠ md5Remote manifest1) →
       remote (files_host +:+ name) = None →
       body name u
       = Throw (FetchFailed (files_host +:+ name))
               (requested (files_host +:+ name)
                  (requested (files_host +:+ name +:+ ".md5") u)))
  ∧ (∀ names u,
       ∃ w', mirror names u = Ok tt w'
             ∧ (∀ p, startsWith p "archives/" = false →
                     files w' !! p = files u !! p)
             ∧ console_grows u w')
  ∧ (∀ dir snap records u,
       match Faulty.run remote md5 stringify globSync disk
               (mkScript dir snap false) records u with
       | Ok _ w1 =>
           ∃ w', Faulty.run remote md5 stringify globSync disk
                   (mkScript dir snap true) records u = Ok tt w'
                 ∧ ∀ p, startsWith p "archives/" = false →
                        files w' !! p = files w1 !! p
       | Throw e1 w1 =>
           Faulty.run remote md5 stringify globSync disk
             (mkScript dir snap true) records u = Throw e1 w1
       end)
  ∧ (∃ w', mirror [failing; healthy] w = Ok tt w'
           ∧ mirrored w'
           ∧ reported failing ∈ console w' ∧ LogError e ∈ console w')
  ∧ (∃ w1 w', Faulty.downloadArchive remote md5 disk healthy w = Ok tt w1
              ∧ mirror [healthy; failing] w = Ok tt w'
              ∧ mirrored w'
              ∧ ∀ e1 v1, body failing w1 = Throw e1 v1 →
                         reported failing ∈ console w'
                         ∧ LogError e1 ∈ console w').
Proof.
  intros mirror body reported mirrored.
  destruct Hindependent as (Hne & Hne1 & Hne2).
  destruct (archive_paths_independent healthy failing Hne Hne1 Hne2)
    as (Hp1 & Hp2 & Hp3 & Hp4). cbv zeta in Hp1, Hp2, Hp3, Hp4.
  assert (∀ name u e1 v1,
            body name u = Throw e1 v1 →
            Faulty.downloadArchive remote md5 disk name u
            = Ok tt (caught name e1 v1)) as Hcaught.
  { intros name u e1 v1 Hbody. rewrite faulty_downloadArchive_catch.
    unfold body in Hbody. by rewrite Hbody. }
  assert (∀ name rest u u',
            Faulty.downloadArchive remote md5 disk name u = Ok tt u' →
            mirror (name :: rest) u = mirror rest u') as Hnext.
  { intros name rest u u' Hop. unfold mirror, mapLimit. simpl.
    by erewrite bind_Ok by exact Hop. }
  assert (∀ u u', files u' = <[("archives/" +:+ healthy) +:+ ".md5" := manifest]>
                               (<["archives/" +:+ healthy := response]> (files u)) →
                  mirrored u') as Hstored.
  { intros u u' Hfiles. unfold mirrored. rewrite Hfiles. split.
    - rewrite lookup_insert_ne by apply manifest_path_ne.
      apply lookup_insert_eq.
    - apply lookup_insert_eq. }
  split_and!.
  - intros name u e1 v1 Hbody. split_and!.
    + by apply Hcaught.
    + unfold caught. simpl. by rewrite <- app_assoc.
    + intros rest. by apply Hnext, Hcaught.
  - intros name u Hnone. unfold body.
    pose proof (faulty_downloadArchive_try_cases remote md5 disk name u) as Hcases.
    cbv zeta in Hcases. by rewrite Hcases, Hnone.
  - intros name u manifest1 Hsome Hexists Hreads. unfold body.
    pose proof (faulty_downloadArchive_try_cases remote md5 disk name u) as Hcases.
    cbv zeta in Hcases. rewrite Hcases, Hsome, Hreads.
    by rewrite bool_decide_eq_true_2.
  - intros name u manifest1 Hsome Hstale Harchive. unfold body.
    pose proof (faulty_downloadArchive_try_cases remote md5 disk name u) as Hcases.
    cbv zeta in Hcases. rewrite Hcases, Hsome, Harchive. unfold upToDate.
    destruct Hstale as [Hnone | (content & Hcontent & Hreads & Hdiffer)].
    + rewrite Hnone. by rewrite bool_decide_eq_false_2 by (by intros [? ?]).
    + rewrite Hcontent, Hreads, andb_false_r. simpl.
      by rewrite bool_decide_eq_false_2.
  - intros names u.
    destruct (faulty_mirror_frame remote md5 disk names u)
      as (w' & Hrun & Hframe & Hcon).
    exists w'. split_and!; [done | | done].
    intros p Hp. apply Hframe. intros name _. by apply archive_path_outside.
  - apply faulty_run_with_mirror.
  - destruct (faulty_downloadArchive_frame remote md5 disk failing w)
      as (w1 & Hop & Hframe & _).
    rewrite (Hcaught failing w e v Hfails) in Hop. injection Hop as <-.
    destruct (faulty_downloadArchive_absent remote md5 disk healthy manifest
                response (caught failing e v) Hmanifest Hresponse Hwrites)
      as (w' & Hhealthy & Hfiles & Hconsole).
    { by rewrite Hframe. }
    exists w'. split_and!.
    + rewrite (Hnext failing [healthy] w _ (Hcaught failing w e v Hfails)).
      by rewrite (Hnext healthy [] _ _ Hhealthy).
    + by eapply Hstored.
    + rewrite Hconsole. unfold caught. simpl.
      rewrite !elem_of_app, !list_elem_of_singleton. tauto.
    + rewrite Hconsole. unfold caught. simpl.
      rewrite !elem_of_app, !list_elem_of_singleton. tauto.
  - destruct (faulty_downloadArchive_absent remote md5 disk healthy manifest
                response w Hmanifest Hresponse Hwrites Habsent)
      as (w1 & Hhealthy & Hfiles & _).
    destruct (faulty_downloadArchive_frame remote md5 disk failing w1)
      as (w' & Hop & Hframe & _).
    exists w1, w'. split_and!; [done | | |].
    + rewrite (Hnext healthy [failing] w w1 Hhealthy).
      by rewrite (Hnext failing [] w1 w' Hop).
    + destruct (Hstored w w1 Hfiles) as [Harchive Hmd5].
      unfold mirrored. by rewrite !Hframe.
    + intros e1 v1 Hbody. rewrite (Hcaught failing w1 e1 v1 Hbody) in Hop.
      injection Hop as <-. unfold caught. simpl.
      rewrite !elem_of_app, !list_elem_of_singleton. tauto.
Qed.

End FaultyScripts.

(** * Instances of the further properties *)

(** X5, an instance: the three paths of the first example record. *)
Lemma resolve_own_paths_witness :
  let f := resolve (expectedPaths dump_airtable
                      (normalizedRecords example_records)) example_first in
  ResolvedRecord.about f = Some "attachments/about-attabout1-about.png"
  ∧ ResolvedRecord.ksaSampler f
    = Some "attachments/ksa-sampler-attsampler1-sampler.png"
  ∧ ResolvedRecord.showcase f
    = Some "attachments/showcase-attshowcase1-showcase.png".
Proof.
  assert (example_first ∈ normalizedRecords example_records) as Hrecord.
  { apply list_elem_of_here. }
  assert (NoDup (map DownloadedFile.id
                   (expectedPaths dump_airtable
                      (normalizedRecords example_records)))) as Hids.
  { apply (bool_decide_unpack _). vm_compute. exact I. }
  exact (resolve_own_paths dump_airtable (normalizedRecords example_records)
           example_first Hrecord Hids).
Defined.

(** X6, an instance: the [showcase] of the record with a shared id resolves
    to the path of its [about] file. *)
Lemma resolve_shared_id_witness :
  ResolvedRecord.showcase
    (resolve (expectedPaths dump_airtable [example_shared]) example_shared)
  = Some "attachments/about-attshared-a.png".
Proof.
  exact (proj1 (resolve_shared_id dump_airtable example_shared []
                  (Attachment.mk "attShared" "https://dl.airtable.com/a" "A.png")
                  (Attachment.mk "attShared" "https://dl.airtable.com/b" "B.png")
                  eq_refl eq_refl eq_refl)).
Defined.



(** X16, an instance: the [about] file of the one record of the snapshot. *)
Lemma snapshot_files_exist_witness :
  is_Some (files example_after !! "attachments/about-attabout1-about.png").
Proof.
  assert (run example_remote example_md5 example_stringify example_globSync
              dump_airtable example_records example_world
          = Ok tt example_after) as Hrun.
  { vm_compute. reflexivity. }
  eapply (snapshot_files_exist example_remote example_md5 example_stringify
            example_globSync dump_airtable example_records example_world
            example_after Hrun
            (resolve (expectedPaths dump_airtable
                        (normalizedRecords example_records)) example_first)).
  - apply list_elem_of_here.
  - left. reflexivity.
Defined.

(** X17, an instance: in the warm directory of the sibling script the file
    of the complete record stays and the file of the dropped record goes. *)
Lemma part_000_reconciles_witness :
  files part_000_once !! "public/themes/attachments/about-attabout1-about.png"
  = Some "about bytes"
  ∧ files part_000_once !! "public/themes/attachments/about-attorphan1-orphan.png"
    = None.
Proof.
  assert (run example_remote example_md5 example_stringify example_globSync
              part_000 example_records example_warm_world
          = Ok tt part_000_once) as Hrun.
  { vm_compute. reflexivity. }
  pose proof (part_000_reconciles example_remote example_md5 example_stringify
                example_globSync example_globSync_listing example_records
                example_warm_world part_000_once Hrun) as Hreconciles.
  cbv zeta in Hreconciles. destruct Hreconciles as (Hkept & Hremoved & _).
  split.
  - assert ("public/themes/attachments/about-attabout1-about.png"
            ∈ example_globSync (files example_warm_world)) as Hlisted.
    { apply (bool_decide_unpack _). vm_compute. exact I. }
    assert (Some "public/themes/attachments/about-attabout1-about.png"
            ∈ allFiles (snapshot part_000 example_records)) as Hreferenced.
    { apply (bool_decide_unpack _). vm_compute. exact I. }
    destruct (Hkept _ Hlisted Hreferenced) as [_ Hsame].
    rewrite Hsame; [vm_compute; reflexivity | vm_compute; eauto].
  - apply Hremoved; apply (bool_decide_unpack _); vm_compute; exact I.
Defined.

(** * Instances on a file system that rejects *)

(** C7, an instance: the local copy of one archive cannot be read; the
    archive after it in the list is mirrored. *)
Lemma downloadArchive_isolated_witness :
  ∃ w', mapLimit (Faulty.downloadArchive (bodies example_files_host)
                    example_md5 example_disk)
                 ["Old.sit"; "Theme.sit"] example_archives_world
        = Ok tt w'
        ∧ files w' !! "archives/Theme.sit" = Some "archive bytes"
        ∧ files w' !! "archives/Theme.sit.md5" = Some "d41d8cd9  Theme.sit"
        ∧ Log "[ERROR] could not download Old.sit" ∈ console w'
        ∧ LogError (ReadFailed "archives/Old.sit") ∈ console w'.
Proof.
  assert (Faulty.downloadArchive_try (bodies example_files_host) example_md5
            example_disk "Old.sit" example_archives_world
          = Throw (ReadFailed "archives/Old.sit")
                  (requested "https://files.macthemes.garden/Old.sit.md5"
                             example_archives_world)) as Hfails.
  { vm_compute. reflexivity. }
  assert ("Theme.sit" ≠ "Old.sit" ∧ "Theme.sit" ≠ "Old.sit" +:+ ".md5"
          ∧ "Old.sit" ≠ "Theme.sit" +:+ ".md5") as Hindependent.
  { by split_and!. }
  pose proof (downloadArchive_isolated (bodies example_files_host) example_md5
                example_stringify example_globSync example_disk
                "Old.sit" "Theme.sit" "d41d8cd9  Theme.sit" "archive bytes"
                example_archives_world _ _ Hfails eq_refl eq_refl
                (λ _ _, conj eq_refl eq_refl) eq_refl Hindependent)
    as Hisolated.
  cbv zeta beta in Hisolated.
  destruct Hisolated as (_ & _ & _ & _ & _ & _ & Hsibling & _).
  destruct Hsibling as (w' & Hrun & Hmirrored & Hlog & Herror).
  destruct Hmirrored as [Hfile Hmd5].
  exists w'. split_and!; [exact Hrun | exact Hfile | exact Hmd5 | exact Hlog
                         | exact Herror].
Defined.

(** C7, counterexample: the host answers the request for the manifest of
    an archive with the status 404.  [fetch] resolves and the script reads
    no status: nothing is caught, no error is printed, the error page is
    taken for the manifest and then for the archive, and the local copy is
    overwritten with it. *)
Lemma downloadArchive_missing_manifest :
  (Response.status
     <$> example_files_host "https://files.macthemes.garden/Gone.sit.md5")
  = Some 404%nat
  ∧ Faulty.downloadArchive (bodies example_files_host) example_md5 reliable
      "Gone.sit" example_archives_world
    = Ok tt example_gone
  ∧ console example_gone = [Log "[INFO] downloaded Gone.sit"]
  ∧ files example_archives_world !! "archives/Gone.sit" = Some "good bytes"
  ∧ files example_gone !! "archives/Gone.sit" = Some "Not Found"
  ∧ files example_gone !! "archives/Gone.sit.md5" = Some "Not Found".
Proof. split_and!; vm_compute; reflexivity. Qed.

(** X14, an instance: the write of the second attachment is rejected; the
    stale file is still there and no snapshot was written. *)
Lemma run_throws_cleanly_witness :
  files example_interrupted !! "public/themes/attachments/old.png"
  = Some "old bytes"
  ∧ files example_interrupted !! "airtable.json" = None.
Proof.
  assert (Faulty.run example_remote example_md5 example_stringify
            example_globSync example_disk dump_airtable example_records
            example_world
          = Throw (WriteFailed "attachments/ksa-sampler-attsampler1-sampler.png")
                  example_interrupted) as Hrun.
  { vm_compute. reflexivity. }
  pose proof (run_throws_cleanly example_remote example_md5 example_stringify
                example_globSync example_disk dump_airtable example_records
                example_world example_interrupted _ Hrun) as Hclean.
  cbv zeta in Hclean.
  destruct Hclean
    as [[(record & prefix & a & _ & _ & _ & _ & Hkeep & Hout)
        | [(p & v & He & _) | (v & remains & He & _)]] _];
    [| discriminate He | discriminate He].
  split.
  - rewrite Hkeep; [vm_compute; reflexivity | vm_compute; eauto].
  - rewrite Hout; vm_compute; reflexivity.
Defined.

(** X15, an instance: the sibling script on the same file system, which
    accepts the writes under its own attachments directory. *)
Lemma run_returns_witness :
  ∃ w', Faulty.run example_remote example_md5 example_stringify
          example_globSync example_disk part_000 example_records example_world
        = Ok tt w'.
Proof.
  assert (Forall (λ pa : string * Attachment.t,
                    (is_Some (files example_world
                              !! filepath_of part_000 pa.1 pa.2)
                     ∨ is_Some (example_remote (Attachment.url pa.2)))
                    ∧ String.eqb (filepath_of part_000 pa.1 pa.2)
                        "attachments/ksa-sampler-attsampler1-sampler.png"
                      = false)
                 (targetsOf (normalizedRecords example_records))) as Hall.
  { apply (bool_decide_unpack _). vm_compute. exact I. }
  assert (∀ record prefix a,
            record ∈ normalizedRecords example_records →
            (prefix, a) ∈ attachmentsOf record →
            (is_Some (files example_world !! filepath_of part_000 prefix a)
             ∨ is_Some (example_remote (Attachment.url a)))
            ∧ String.eqb (filepath_of part_000 prefix a)
                "attachments/ksa-sampler-attsampler1-sampler.png" = false)
    as Htargets.
  { intros record prefix a Hrecord Hpa.
    apply (proj1 (Forall_forall _ _) Hall (prefix, a)).
    apply elem_of_targetsOf. by exists record. }
  apply (run_returns example_remote example_md5 example_stringify
           example_globSync example_disk part_000 example_records
           example_world).
  - intros record prefix a Hrecord Hpa.
    by destruct (Htargets record prefix a Hrecord Hpa).
  - intros v record prefix a content Hrecord Hpa.
    destruct (Htargets record prefix a Hrecord Hpa) as [_ Hpath].
    change (writes example_disk v (filepath_of part_000 prefix a) content)
      with (if String.eqb (filepath_of part_000 prefix a)
                 "attachments/ksa-sampler-attsampler1-sampler.png"
            then WriteRejected (Some "") else Written).
    by rewrite Hpath.
  - reflexivity.
  - reflexivity.
Defined.
